(** * smartWallSocketApp: telemetry sanitizer, alert aggregator, command
      registry, liveness monitor and schedule planner

    A shallow embedding of the client-side logic of the smart wall socket
    application (the full screen with acknowledgments, and the reduced
    screen [src/app/index.tsx]), with the properties its specification
    states about it.

    Conventions of the model.
    - A JavaScript string is a [string]: a sequence of code units below 256
      (the Latin-1 range).
    - A JavaScript number is a [number]: NaN, the two infinities, or a finite
      value held as a rational; the sign of zero is not modelled. The
      numbers of the engine are the binary64 values: what the engine rounds
      (the seconds [Date.now() / 1000], the bounds [now - 3600] and
      [now + 3600], the result of [parseInt]) goes through [RoundNumber] and
      [IntegerToNumber] of the class [JsRuntime], of which only what every
      rounding to the nearest value has is assumed. Four computations are
      left exact, where the rounded value decides the same: the difference
      of two timestamps, of which the sort reads the sign; the span of a
      schedule in hours compared with 24, a quotient of integers below 2^53
      by 3600000; the seconds [Math.floor(t / 1000)] of a time of [Date],
      which are the integer quotient; the cost per hour, of which the sign
      is stated.
    - A value read from the store is a [JsVal] (what [snapshot.val()] can
      return, and [undefined] for an absent property): an object is a plain
      object and an array a plain array, with the prototypes of the
      language.
    - The conversions between strings and numbers done by the engine
      ([Number] applied to a string, a number turned into a string) are
      operations of the class [JsRuntime]; everything is proved for every
      runtime. A conversion that throws gives [None].
    - A callback runs at one reading [now] of the clock, in milliseconds; the
      state of the component is threaded through the callbacks, each state
      updater being applied when it is given.
    - The console, the throttled refresh of the screen and the content of
      the records written to the store are not modelled; an alert dialog is
      modelled by which dialog it is, not by its text.
    - A time of [Date] is an integer of milliseconds, and the time zone is a
      parameter ([TimeZone]); the clock reads times in the range of [Date]. *)

From Stdlib Require Import ZArith QArith String Ascii List Bool Lia Sorted.
From stdpp Require Import base option list gmap strings pretty.

Local Open Scope string_scope.
Local Open Scope list_scope.
Local Open Scope Z_scope.

(** ** JavaScript numbers *)

Inductive number : Type :=
  | NaN
  | NegInf
  | Fin (q : Q)
  | PosInf.

Definition num_of_Z (z : Z) : number := Fin (inject_Z z).

Definition isNaN (x : number) : bool :=
  match x with NaN => true | _ => false end.

Definition Qlt_bool (a b : Q) : bool := negb (Qle_bool b a).

(** [a < b] of JavaScript: false as soon as an operand is NaN. *)
Definition num_lt (a b : number) : bool :=
  match a, b with
  | NaN, _ | _, NaN => false
  | NegInf, NegInf => false
  | NegInf, _ => true
  | Fin _, NegInf => false
  | Fin x, Fin y => Qlt_bool x y
  | Fin _, PosInf => true
  | PosInf, _ => false
  end.

Definition num_gt (a b : number) : bool := num_lt b a.

(** [a <= b]: not [b < a], and false when an operand is NaN. *)
Definition num_le (a b : number) : bool :=
  match a, b with
  | NaN, _ | _, NaN => false
  | _, _ => negb (num_lt b a)
  end.

Definition num_ge (a b : number) : bool := num_le b a.

(** [a === b] on numbers. *)
Definition num_eq (a b : number) : bool :=
  match a, b with
  | NegInf, NegInf | PosInf, PosInf => true
  | Fin x, Fin y => Qeq_bool x y
  | _, _ => false
  end.

Definition num_add (a b : number) : number :=
  match a, b with
  | NaN, _ | _, NaN => NaN
  | PosInf, NegInf | NegInf, PosInf => NaN
  | PosInf, _ | _, PosInf => PosInf
  | NegInf, _ | _, NegInf => NegInf
  | Fin x, Fin y => Fin (x + y)
  end.

Definition num_neg (a : number) : number :=
  match a with
  | NaN => NaN
  | NegInf => PosInf
  | Fin x => Fin (- x)
  | PosInf => NegInf
  end.

Definition num_sub (a b : number) : number := num_add a (num_neg b).

(** [Math.max(a, b)]: NaN when an argument is NaN, else the larger one. *)
Definition Math_max (a b : number) : number :=
  match a, b with
  | NaN, _ | _, NaN => NaN
  | _, _ => if num_lt a b then b else a
  end.

Definition zero : number := num_of_Z 0.

(** What the engine does between strings and numbers, and how it rounds.
    [RoundNumber q] is the number nearest to the real value [q]; a larger
    value rounds to a number at least as large, and a value that is a number
    rounds to itself. [IntegerToNumber radix z] is the number [parseInt]
    gives for the integer [z] read in the given radix, which is [z] up to
    2^53 and may be approximated beyond. *)
Class JsRuntime : Type := {
  StringToNumber : string -> number;
  NumberToString : number -> string;
  RoundNumber : Q -> number;
  IntegerToNumber : Z -> Z -> number;
  RoundNumber_le : forall p q : Q,
    (p <= q)%Q -> num_le (RoundNumber p) (RoundNumber q) = true;
  RoundNumber_fixed : forall p q : Q,
    RoundNumber p = Fin q -> RoundNumber q = Fin q;
  IntegerToNumber_exact : forall radix z : Z,
    - 2 ^ 53 <= z <= 2 ^ 53 -> IntegerToNumber radix z = num_of_Z z
}.

(** The value of an arithmetic operation, rounded. *)
Definition num_round `{rt : JsRuntime} (x : number) : number :=
  match x with
  | Fin q => RoundNumber q
  | _ => x
  end.

(** ** Strings *)

Definition code (c : ascii) : N := N_of_ascii c.

(** The white space and line terminators of the language, below 256. *)
Definition is_white_space (c : ascii) : bool :=
  let n := code c in
  ((9 <=? n) && (n <=? 13) || (n =? 32) || (n =? 160))%N.

Fixpoint trim_start (s : string) : string :=
  match s with
  | String c s' => if is_white_space c then trim_start s' else s
  | EmptyString => EmptyString
  end.

Definition trim_end (s : string) : string :=
  String.rev (trim_start (String.rev s)).

(** [s.trim()] *)
Definition trim (s : string) : string := trim_end (trim_start s).

Definition lower_char (c : ascii) : ascii :=
  let n := code c in
  if ((65 <=? n) && (n <=? 90) ||
      (192 <=? n) && (n <=? 222) && negb (n =? 215))%N
  then ascii_of_N (n + 32) else c.

(** [s.toLowerCase()] *)
Fixpoint toLowerCase (s : string) : string :=
  match s with
  | String c s' => String (lower_char c) (toLowerCase s')
  | EmptyString => EmptyString
  end.

(** [s.substr(start, len)] for non-negative arguments. *)
Definition substr (start len : nat) (s : string) : string :=
  String.substring start len s.

Definition digit_value (c : ascii) : option Z :=
  let n := code c in
  if ((48 <=? n) && (n <=? 57))%N then Some (Z.of_N n - 48) else None.

Definition hex_digit_value (c : ascii) : option Z :=
  let n := code c in
  if ((48 <=? n) && (n <=? 57))%N then Some (Z.of_N n - 48)
  else if ((97 <=? n) && (n <=? 102))%N then Some (Z.of_N n - 87)
  else if ((65 <=? n) && (n <=? 70))%N then Some (Z.of_N n - 55)
  else None.

(** The longest prefix of digits of [s] in the given radix, read as an
    integer onto the accumulator; [None] when [s] starts with no digit. *)
Fixpoint read_digits (dv : ascii -> option Z) (radix : Z) (s : string)
    (acc : option Z) : option Z :=
  match s with
  | String c s' =>
      match dv c with
      | Some d =>
          read_digits dv radix s'
            (Some (match acc with Some a => a * radix + d | None => d end))
      | None => acc
      end
  | EmptyString => acc
  end.

(** [parseInt(s)] with no radix argument: leading white space is skipped, a
    sign is read, a [0x] or [0X] prefix selects base 16, and the longest run of
    digits gives the value; NaN when there is no digit. *)
Definition parseInt `{rt : JsRuntime} (s : string) : number :=
  let s1 := trim_start s in
  let '(neg, s2) :=
    match s1 with
    | String "-" r => (true, r)
    | String "+" r => (false, r)
    | _ => (false, s1)
    end in
  let '(dv, radix, s3) :=
    match s2 with
    | String "0" (String "x" r) | String "0" (String "X" r) =>
        (hex_digit_value, 16, r)
    | _ => (digit_value, 10, s2)
    end in
  match read_digits dv radix s3 None with
  | Some m => IntegerToNumber radix (if neg then - m else m)
  | None => NaN
  end.

(** ** Values read from the store *)

#[warnings="-register-all"]
Inductive JsVal : Type :=
  | JUndefined
  | JNull
  | JBool (b : bool)
  | JNum (n : number)
  | JStr (s : string)
  | JArr (elems : list JsVal)
  | JObj (props : list (string * JsVal)).

Inductive JsType : Type :=
  | TUndefined | TObject | TBoolean | TNumber | TString.

(** [typeof v]; [typeof null] is ["object"], and so is the type of an array. *)
Definition typeof (v : JsVal) : JsType :=
  match v with
  | JUndefined => TUndefined
  | JNull | JArr _ | JObj _ => TObject
  | JBool _ => TBoolean
  | JNum _ => TNumber
  | JStr _ => TString
  end.

Definition is_object_type (t : JsType) : bool :=
  match t with TObject => true | _ => false end.

(** The boolean a value converts to in a condition. *)
Definition truthy (v : JsVal) : bool :=
  match v with
  | JUndefined | JNull => false
  | JBool b => b
  | JNum n => negb (num_eq n zero || isNaN n)
  | JStr s => negb (String.eqb s "")
  | JArr _ | JObj _ => true
  end.

(** [a || b] on values. *)
Definition js_or (a b : JsVal) : JsVal := if truthy a then a else b.

Fixpoint assoc (k : string) (props : list (string * JsVal)) : JsVal :=
  match props with
  | [] => JUndefined
  | (k', v) :: rest => if String.eqb k k' then v else assoc k rest
  end.

(** [v.k] for the property names the program reads (none of them is defined
    on a prototype): the own property of an object, and [undefined] on every
    other value. The program reads no property of [null] or [undefined]. *)
Definition get_prop (v : JsVal) (k : string) : JsVal :=
  match v with
  | JObj props => assoc k props
  | _ => JUndefined
  end.

(** [Object.values(v)] for an object or an array. *)
Definition Object_values (v : JsVal) : list JsVal :=
  match v with
  | JObj props => map snd props
  | JArr elems => elems
  | _ => []
  end.

(** [props] has an own property [k]. *)
Definition has_own (k : string) (props : list (string * JsVal)) : bool :=
  existsb (fun p => String.eqb k p.1) props.

Section Conversions.
Context `{rt : JsRuntime}.

(** [String(v)]; [None] when the conversion throws a [TypeError]. An object
    is converted by its method [toString], then by [valueOf]: the method of
    the prototype gives ["[object Object]"], but an own property [toString]
    hides it, no value of the store is a function, [valueOf] gives the
    object back, and the conversion throws. An array is converted by [join],
    which converts its elements. *)
Fixpoint ToString (v : JsVal) : option string :=
  match v with
  | JUndefined => Some "undefined"
  | JNull => Some "null"
  | JBool true => Some "true"
  | JBool false => Some "false"
  | JNum n => Some (NumberToString n)
  | JStr s => Some s
  | JArr elems =>
      String.concat "," <$>
        mapM (fun e => match e with
                       | JUndefined | JNull => Some ""
                       | _ => ToString e
                       end) elems
  | JObj props =>
      if has_own "toString" props then None else Some "[object Object]"
  end.

(** [Number(v)]; an object or an array goes through its string, and the
    conversion throws when that of the string does. *)
Definition ToNumber (v : JsVal) : option number :=
  match v with
  | JUndefined => Some NaN
  | JNull => Some zero
  | JBool true => Some (num_of_Z 1)
  | JBool false => Some zero
  | JNum n => Some n
  | JStr s => Some (StringToNumber s)
  | JArr _ | JObj _ => StringToNumber <$> ToString v
  end.
End Conversions.

(** ** Telemetry sanitizer ([validateTelemetryData]) *)

Record TelemetryData : Type := {
  current : number;
  power : number;
  voltage : number;
  energy : number;
  relayState : bool;
  deviceConnected : bool;
  timestamp : number;
  heartbeat : number;
  detectedWattage : number;
  expectedCurrent : number;
  currentThreshold : number;
  scheduleActive : bool;
  overcurrentTripped : bool;
  scheduleStarted : bool;
  lastCommandId : string;
  lastCommandTime : number
}.

(** [Date.now() / 1000] for the clock reading [t], in milliseconds. *)
Definition seconds_of_ms `{rt : JsRuntime} (t : Z) : number :=
  RoundNumber (t # 1000).

Section Sanitizer.
Context `{rt : JsRuntime}.

(** The parameter [defaultValue] has a default in the source ([0] here,
    [false] in [parseBoolean]); the callers below pass it. [None] when
    [Number(value)] throws. *)
Definition parseNumeric (value : JsVal) (fieldName : string)
    (defaultValue : number) : option number :=
  match value with
  | JNull | JUndefined => Some defaultValue
  | _ =>
      parsed ← ToNumber value;
      Some (if isNaN parsed then defaultValue else parsed)
  end.

Definition parseBoolean (value : JsVal) (fieldName : string)
    (defaultValue : bool) : bool :=
  match value with
  | JNull | JUndefined => defaultValue
  | JBool b => b
  | JStr s => String.eqb (toLowerCase s) "true"
  | JNum n => negb (num_eq n zero)
  | JArr _ | JObj _ => defaultValue
  end.

(** [t1] and [t2] are the two readings of [Date.now()], in the order the
    function takes them. *)
Definition parseTimestamp (value : JsVal) (t1 t2 : Z) : option number :=
  parsed ← parseNumeric value "timestamp" (seconds_of_ms t1);
  let now := seconds_of_ms t2 in
  Some (if num_lt parsed (num_round (num_sub now (num_of_Z 3600))) ||
           num_gt parsed (num_round (num_add now (num_of_Z 3600)))
        then now else parsed).

(** [clk k] is the [k]-th reading of [Date.now()] during the call. The
    fields of [validatedData] are computed in the order of the object
    literal; the first conversion that throws ends the [try] block, and the
    [catch] block returns [null]. *)
Definition validateTelemetryData (clk : nat -> Z) (data : JsVal)
    : option TelemetryData :=
  if negb (truthy data) || negb (is_object_type (typeof data)) then None
  else
    let f := get_prop data in
    current_ ← Math_max zero <$> parseNumeric (f "current") "current" zero;
    power_ ← Math_max zero <$> parseNumeric (f "power") "power" zero;
    voltage_ ← parseNumeric (f "voltage") "voltage" (num_of_Z 230);
    energy_ ← Math_max zero <$> parseNumeric (f "energy") "energy" zero;
    timestamp_ ← parseTimestamp (f "timestamp") (clk 0%nat) (clk 1%nat);
    heartbeat_ ← parseTimestamp (f "heartbeat") (clk 2%nat) (clk 3%nat);
    detectedWattage_ ←
      Math_max zero <$>
        parseNumeric (f "detectedWattage") "detectedWattage" zero;
    expectedCurrent_ ←
      Math_max zero <$>
        parseNumeric (f "expectedCurrent") "expectedCurrent" zero;
    currentThreshold_ ←
      Math_max zero <$>
        parseNumeric (f "currentThreshold") "currentThreshold" (num_of_Z 10);
    lastCommandId_ ← ToString (js_or (f "lastCommandId") (JStr ""));
    lastCommandTime_ ←
      parseNumeric (f "lastCommandTime") "lastCommandTime" zero;
    Some {|
      current := current_;
      power := power_;
      voltage := voltage_;
      energy := energy_;
      relayState := parseBoolean (f "relayState") "relayState" false;
      deviceConnected :=
        parseBoolean (f "deviceConnected") "deviceConnected" false;
      timestamp := timestamp_;
      heartbeat := heartbeat_;
      detectedWattage := detectedWattage_;
      expectedCurrent := expectedCurrent_;
      currentThreshold := currentThreshold_;
      scheduleActive :=
        parseBoolean (f "scheduleActive") "scheduleActive" false;
      scheduleStarted :=
        parseBoolean (f "scheduleStarted") "scheduleStarted" false;
      overcurrentTripped :=
        parseBoolean (f "overcurrentTripped") "overcurrentTripped" false;
      lastCommandId := lastCommandId_;
      lastCommandTime := lastCommandTime_
    |}.
End Sanitizer.

(** ** Alert aggregator ([validateAlertData]) *)

Record AlertData : Type := {
  alert_type : string;
  alert_message : string;
  alert_timestamp : number
}.

Section ArraySort.
Context {A : Type} (comparefn : A -> A -> number).

(** [x] stood before the elements of [l] in the array: it goes before the
    first element it does not compare greater than. A comparison that is
    NaN counts as equal. *)
Fixpoint sort_insert (x : A) (l : list A) : list A :=
  match l with
  | [] => [x]
  | y :: rest =>
      if num_gt (comparefn x y) zero then y :: sort_insert x rest
      else x :: l
  end.

(** [Array.prototype.sort(comparefn)], a stable sort; every stable sort
    gives this result when [comparefn] is a consistent ordering, as the
    comparison of the alerts is when no timestamp is NaN. When it is not,
    the order of the result is left to the engine by the definition of the
    language, and this is one order an engine may give: what is proved of
    the order of the result is proved of consistent orderings, or of every
    order. *)
Fixpoint Array_sort (l : list A) : list A :=
  match l with
  | [] => []
  | x :: rest => sort_insert x (Array_sort rest)
  end.
End ArraySort.

Section Alerts.
Context `{rt : JsRuntime}.

(** The predicate given to [filter]. *)
Definition alert_filter (alert : JsVal) : bool :=
  truthy alert && is_object_type (typeof alert) &&
  truthy (get_prop alert "type") &&
  truthy (get_prop alert "message") &&
  truthy (get_prop alert "timestamp").

(** The function given to [map]; [None] when a conversion throws. *)
Definition alert_map (alert : JsVal) : option AlertData :=
  type ← ToString (get_prop alert "type");
  message ← ToString (get_prop alert "message");
  timestamp ←
    match get_prop alert "timestamp" with
    | JStr s => Some (parseInt s)
    | v => ToNumber v
    end;
  Some {| alert_type := type; alert_message := message;
          alert_timestamp := timestamp |}.

(** The comparison given to [sort]: [b.timestamp - a.timestamp]. *)
Definition alert_compare (a b : AlertData) : number :=
  num_sub (alert_timestamp b) (alert_timestamp a).

(** The [try] block ends at the first alert of which a conversion throws,
    and the [catch] block returns the empty array. *)
Definition validateAlertData (data : JsVal) : list AlertData :=
  if negb (truthy data) || negb (is_object_type (typeof data)) then []
  else
    match mapM alert_map (filter alert_filter (Object_values data)) with
    | Some alertArray => take 10 (Array_sort alert_compare alertArray)
    | None => []
    end.
End Alerts.

(** A runtime for evaluating examples: it reads plain decimal integers and
    prints integers in decimal. *)
Definition sample_StringToNumber (s : string) : number :=
  let t := trim s in
  if String.eqb t "" then zero
  else
    let '(neg, body) :=
      match t with
      | String "-" r => (true, r)
      | String "+" r => (false, r)
      | _ => (false, t)
      end in
    match read_digits digit_value 10 body None with
    | Some m =>
        if forallb (fun c => bool_decide (is_Some (digit_value c)))
             (list_ascii_of_string body)
        then num_of_Z (if neg then - m else m) else NaN
    | None => NaN
    end.

(** The runtime of the examples rounds nothing. *)
Definition sample_RoundNumber_le (p q : Q) (H : (p <= q)%Q)
    : num_le (Fin p) (Fin q) = true :=
  f_equal (fun b => negb (negb b)) (proj2 (Qle_bool_iff p q) H).

Definition sample_NumberToString (n : number) : string :=
  match n with
  | NaN => "NaN"
  | PosInf => "Infinity"
  | NegInf => "-Infinity"
  | Fin q => pretty (Qnum q / Z.pos (Qden q))
  end.

Definition sample_runtime : JsRuntime :=
  {| StringToNumber := sample_StringToNumber;
     NumberToString := sample_NumberToString;
     RoundNumber := Fin;
     IntegerToNumber := fun _ z => num_of_Z z;
     RoundNumber_le := sample_RoundNumber_le;
     RoundNumber_fixed := fun _ _ _ => eq_refl;
     IntegerToNumber_exact := fun _ _ _ => eq_refl |}.

(** ** Schedule planner ([handleScheduleSet]) *)

Definition in_range (lo hi : ascii) (c : ascii) : bool :=
  ((code lo <=? code c) && (code c <=? code hi))%N.

(** [/^([0-1]?[0-9]|2[0-3]):[0-5][0-9]$/.test(s)]: the hour is one digit, or
    two digits from [00] to [19], or [20] to [23]; then a colon and a minute
    from [00] to [59]; nothing before, nothing after. *)
Definition timeRegex_test (s : string) : bool :=
  match list_ascii_of_string s with
  | [h; colon; m1; m2] =>
      in_range "0" "9" h &&
      Ascii.eqb colon ":" && in_range "0" "5" m1 && in_range "0" "9" m2
  | [h1; h2; colon; m1; m2] =>
      (in_range "0" "1" h1 && in_range "0" "9" h2 ||
       Ascii.eqb h1 "2" && in_range "0" "3" h2) &&
      Ascii.eqb colon ":" && in_range "0" "5" m1 && in_range "0" "9" m2
  | _ => false
  end.

Definition validateTimeFormat (timeString : string) : bool :=
  timeRegex_test (trim timeString).

(** [s.split(':')]; [piece] holds, in reverse, the characters read since the
    last colon. *)
Fixpoint split_colon (s : string) (piece : string) : list string :=
  match s with
  | EmptyString => [String.rev piece]
  | String c s' =>
      if Ascii.eqb c ":" then String.rev piece :: split_colon s' ""
      else split_colon s' (String c piece)
  end.

Definition all_digits (s : string) : bool :=
  forallb (in_range "0" "9") (list_ascii_of_string s).

(** [Number(piece)] for a piece that is a run of decimal digits, which is
    what the pieces of a string accepted by [validateTimeFormat] are; the
    value on any other piece is not modelled ([None]). *)
Definition digits_to_Z (piece : string) : option Z :=
  if all_digits piece then read_digits digit_value 10 piece None else None.

Definition msPerDay : Z := 24 * 60 * 60 * 1000.

Inductive ScheduleError : Type :=
  | MissingTimes       (* 'Please set both start and end times' *)
  | InvalidTimeFormat  (* 'Please use HH:MM format (e.g., 14:30)' *)
  | ScheduleTooLong.   (* 'Schedule duration cannot exceed 24 hours' *)

Inductive ScheduleOutcome : Type :=
  | Rejected (e : ScheduleError)
  (** the record written to [smartSocket/schedule] *)
  | ScheduleWrite (active : bool) (startTime endTime : Z)
  (** a time that is not a number; never the outcome, see
      [handleScheduleSet_is_a_time] *)
  | NotATime.

(** The time zone of the device, as [Date] uses it: [LocalTime t] is the
    local time at the instant [t], and [UTC l] the instant at which the local
    clock shows [l]; instants are milliseconds since the epoch, and a local
    time is the milliseconds the local calendar and clock have counted. The
    two functions are those of the same names in the definition of the
    language; where the offset changes (daylight saving time) they are not
    a translation. Time values stay in the range of [Date]. *)
Record TimeZone : Type := {
  LocalTime : Z -> Z;
  UTC : Z -> Z
}.

(** A zone whose local time is the universal time plus [tz] milliseconds,
    the same offset on every day. *)
Definition fixed_zone (tz : Z) : TimeZone :=
  {| LocalTime t := t + tz; UTC l := l - tz |}.

(** The instant at which the clocks of New York went back in 2026:
    2026-11-01T06:00:00Z, 02:00 of daylight time, 01:00 of standard time. *)
Definition new_york_clocks_back_2026 : Z := 1793512800000.

(** The zone of New York around that night: four hours behind before the
    instant, five hours behind from it on. A local time that the clock shows
    twice is read as the first of the two, as [Date] does. *)
Definition new_york_autumn_2026 : TimeZone :=
  {| LocalTime t :=
       if t <? new_york_clocks_back_2026 then t - 4 * 3600000
       else t - 5 * 3600000;
     UTC l :=
       if l + 4 * 3600000 <? new_york_clocks_back_2026 then l + 4 * 3600000
       else l + 5 * 3600000 |}.

Section Planner.
Variable zone : TimeZone.

(** [d.setHours(hours, minutes, 0, 0)] on the date [d]: the local day of
    [d], at the given local time. *)
Definition setHours (d hours minutes : Z) : Z :=
  UTC zone
    ((LocalTime zone d / msPerDay) * msPerDay +
     hours * 3600000 + minutes * 60000).

(** [d.setDate(d.getDate() + 1)]: the next local day, at the same local
    time. *)
Definition setDate_next (d : Z) : Z := UTC zone (LocalTime zone d + msPerDay).

(** [now] is the reading of [new Date()]. *)
Definition parseTimeToTimestamp (now : Z) (timeString : string) : option Z :=
  let cleanTime := trim timeString in
  match split_colon cleanTime "" with
  | hs :: ms :: _ =>
      match digits_to_Z hs, digits_to_Z ms with
      | Some hours, Some minutes =>
          let targetTime := setHours now hours minutes in
          if targetTime <=? now then Some (setDate_next targetTime)
          else Some targetTime
      | _, _ => None
      end
  | _ => None
  end.

(** [nowS] and [nowE] are the readings of the clock by the two calls of
    [parseTimeToTimestamp]. *)
Definition handleScheduleSet (scheduleStart scheduleEnd : string)
    (nowS nowE : Z) : ScheduleOutcome :=
  if String.eqb (trim scheduleStart) "" || String.eqb (trim scheduleEnd) ""
  then Rejected MissingTimes
  else if negb (validateTimeFormat scheduleStart) ||
          negb (validateTimeFormat scheduleEnd)
  then Rejected InvalidTimeFormat
  else
    match parseTimeToTimestamp nowS scheduleStart,
          parseTimeToTimestamp nowE scheduleEnd with
    | Some startTime, Some endTime0 =>
        let endTime :=
          if endTime0 <=? startTime then endTime0 + msPerDay else endTime0 in
        if Qlt_bool (inject_Z 24)
             (inject_Z (endTime - startTime) / inject_Z (1000 * 60 * 60))
        then Rejected ScheduleTooLong
        else ScheduleWrite true (startTime / 1000) (endTime / 1000)
    | _, _ => NotATime
    end.

(** [plan(startText, endText, now)] of the specification. *)
Definition plan (startText endText : string) (now : Z) : ScheduleOutcome :=
  handleScheduleSet startText endText now now.
End Planner.

(** ** Promises *)

(** [new Error(message)], and the errors a failed write of the store gives. *)
Inductive JsError : Type :=
  | Error (message : string).

Inductive PromiseState : Type :=
  | Pending
  | Fulfilled (value : JsVal)
  | RejectedWith (reason : JsError).

(** [resolve] or [reject] called on the promise [h]: only a pending promise
    changes state. *)
Definition settle (h : nat) (outcome : PromiseState)
    (ps : gmap nat PromiseState) : gmap nat PromiseState :=
  match ps !! h with
  | Some Pending => <[h := outcome]> ps
  | _ => ps
  end.

(** ** Command registry *)

(** The functions [resolve] and [reject] of an entry are those of one
    promise, [cmd_promise]. *)
Record PendingCommand : Type := {
  cmd_id : string;
  cmd_type : string;
  cmd_timestamp : Z;
  cmd_promise : nat
}.

(** A call of [set(ref(database, 'smartSocket/controls'), ...)] that has not
    completed, with what the function awaiting it holds. *)
Record StoreWrite : Type := {
  write_id : string;
  write_type : string;
  write_promise : nat
}.

(** A callback given to [setTimeout] that has not run, with what it holds. *)
Record Timer : Type := {
  timer_due : Z;
  timer_id : string;
  timer_type : string;
  timer_promise : nat
}.

Inductive Origin : Type :=
  | ByAck | ByTimeout | BySweep | ByWriteFailure | ByWriteSuccess.

(** One call of a [resolve] or a [reject]: the command id at hand, where in
    the program the call is, the promise and the outcome asked for. *)
Record Call : Type := {
  call_id : string;
  call_origin : Origin;
  call_promise : nat;
  call_outcome : PromiseState
}.

Record Commands : Type := {
  pendingCommands : gmap string PendingCommand;
  promises : gmap nat PromiseState;
  nextPromise : nat;
  writes : list StoreWrite;
  timers : list Timer;
  (** deletions of acknowledgment records asked for: due time and id *)
  ackDeletes : list (Z * string);
  (** the calls made so far, the latest first *)
  calls : list Call
}.

Definition initialCommands : Commands :=
  {| pendingCommands := ∅; promises := ∅; nextPromise := 0;
     writes := []; timers := []; ackDeletes := []; calls := [] |}.

Definition setPendingCommands (f : gmap string PendingCommand ->
                                   gmap string PendingCommand)
    (s : Commands) : Commands :=
  {| pendingCommands := f (pendingCommands s); promises := promises s;
     nextPromise := nextPromise s; writes := writes s; timers := timers s;
     ackDeletes := ackDeletes s; calls := calls s |}.

(** The call [c] is made: it is recorded and the promise takes the outcome if
    it was pending. *)
Definition invoke (c : Call) (s : Commands) : Commands :=
  {| pendingCommands := pendingCommands s;
     promises := settle (call_promise c) (call_outcome c) (promises s);
     nextPromise := nextPromise s; writes := writes s; timers := timers s;
     ackDeletes := ackDeletes s; calls := c :: calls s |}.

Definition setWrites (ws : list StoreWrite) (s : Commands) : Commands :=
  {| pendingCommands := pendingCommands s; promises := promises s;
     nextPromise := nextPromise s; writes := ws; timers := timers s;
     ackDeletes := ackDeletes s; calls := calls s |}.

Definition setTimers (ts : list Timer) (s : Commands) : Commands :=
  {| pendingCommands := pendingCommands s; promises := promises s;
     nextPromise := nextPromise s; writes := writes s; timers := ts;
     ackDeletes := ackDeletes s; calls := calls s |}.

Definition scheduleAckDelete (due : Z) (id : string) (s : Commands) : Commands :=
  {| pendingCommands := pendingCommands s; promises := promises s;
     nextPromise := nextPromise s; writes := writes s; timers := timers s;
     ackDeletes := ackDeletes s ++ [(due, id)]; calls := calls s |}.

(** [`cmd_${Date.now()}_${Math.random().toString(36).substr(2, 9)}`]: [now]
    is the reading of the clock and [rnd36] the string
    [Math.random().toString(36)]. *)
Definition generateCommandId (now : Z) (rnd36 : string) : string :=
  "cmd_" +:+ pretty now +:+ "_" +:+ substr 2 9 rnd36.

Definition timeoutError (commandType : string) : JsError :=
  Error ("Command " +:+ commandType +:+ " timed out").

Definition findWrite (h : nat) (ws : list StoreWrite) : option StoreWrite :=
  List.find (fun w => Nat.eqb (write_promise w) h) ws.

Definition dropWrite (h : nat) (ws : list StoreWrite) : list StoreWrite :=
  List.filter (fun w => negb (Nat.eqb (write_promise w) h)) ws.

Definition findTimer (h : nat) (now : Z) (ts : list Timer) : option Timer :=
  List.find (fun t => Nat.eqb (timer_promise t) h && (timer_due t <=? now)) ts.

Definition dropTimer (h : nat) (ts : list Timer) : list Timer :=
  List.filter (fun t => negb (Nat.eqb (timer_promise t) h)) ts.

(** The start of [sendCommandWithAck] and of [sendCommand], up to the
    [await]: a promise is made, the id is generated, the entry is put in the
    map, the write is started. The record written is not modelled. *)
Definition sendStart (now : Z) (rnd36 commandType : string) (s : Commands)
    : Commands :=
  let h := nextPromise s in
  let commandId := generateCommandId now rnd36 in
  let pendingCommand :=
    {| cmd_id := commandId; cmd_type := commandType;
       cmd_timestamp := now; cmd_promise := h |} in
  {| pendingCommands := <[commandId := pendingCommand]> (pendingCommands s);
     promises := <[h := Pending]> (promises s);
     nextPromise := S h;
     writes := writes s ++
       [{| write_id := commandId; write_type := commandType;
           write_promise := h |}];
     timers := timers s; ackDeletes := ackDeletes s; calls := calls s |}.

(** The [catch] branch: the write [w] failed with [error]. *)
Definition sendFailed (w : StoreWrite) (error : JsError) (s : Commands)
    : Commands :=
  invoke {| call_id := write_id w; call_origin := ByWriteFailure;
            call_promise := write_promise w;
            call_outcome := RejectedWith error |}
    (setPendingCommands (delete (write_id w))
       (setWrites (dropWrite (write_promise w) (writes s)) s)).

(** [setTimeout(callback, 10000)] called at [now] by the call that wrote [w]. *)
Definition armTimeout (now : Z) (w : StoreWrite) (s : Commands) : Commands :=
  setTimers (timers s ++
             [{| timer_due := now + 10000; timer_id := write_id w;
                 timer_type := write_type w;
                 timer_promise := write_promise w |}])
    (setWrites (dropWrite (write_promise w) (writes s)) s).

(** The full screen, with acknowledgments. *)
Module SmartSocketApp.

Inductive Event : Type :=
  (** [sendCommandWithAck(commandData, commandType)] is called *)
  | Send (rnd36 commandType : string)
  (** the write of the call that made promise [h] succeeded *)
  | Written (h : nat)
  (** it failed *)
  | WriteFailed (h : nat) (error : JsError)
  (** the timer set by the call that made promise [h] fires *)
  | TimerFired (h : nat)
  (** the listener on [smartSocket/commandAck] receives [data] *)
  | AckSnapshot (data : JsVal)
  (** the 5-second interval of the clean-up fires *)
  | Sweep.

(** The callback of the timeout. *)
Definition timeoutCallback (t : Timer) (s : Commands) : Commands :=
  match pendingCommands s !! timer_id t with
  | Some cmd =>
      invoke {| call_id := timer_id t; call_origin := ByTimeout;
                call_promise := cmd_promise cmd;
                call_outcome := RejectedWith (timeoutError (timer_type t)) |}
        (setPendingCommands (delete (timer_id t)) s)
  | None => s
  end.

(** The body of the [forEach] of the acknowledgment listener. *)
Definition processAck (now : Z) (s : Commands) (ack : JsVal) : Commands :=
  if truthy ack && truthy (get_prop ack "commandId") then
    match get_prop ack "commandId" with
    | JStr commandId =>
        match pendingCommands s !! commandId with
        | Some pendingCmd =>
            scheduleAckDelete (now + 5000) commandId
              (invoke {| call_id := commandId; call_origin := ByAck;
                         call_promise := cmd_promise pendingCmd;
                         call_outcome := Fulfilled ack |}
                 (setPendingCommands (delete commandId) s))
        | None => s
        end
    (** a key that is not a string is the key of no entry *)
    | _ => s
    end
  else s.

Definition onAckSnapshot (now : Z) (data : JsVal) (s : Commands) : Commands :=
  if truthy data && is_object_type (typeof data)
  then foldl (processAck now) s (Object_values data)
  else s.

Definition expired (now : Z) (cmd : PendingCommand) : bool :=
  15000 <? now - cmd_timestamp cmd.

Definition expiredError : JsError := Error "Command expired".

Definition expireCall (entry : string * PendingCommand) : Call :=
  {| call_id := entry.1; call_origin := BySweep;
     call_promise := cmd_promise entry.2;
     call_outcome := RejectedWith expiredError |}.

(** The clean-up of old pending commands. *)
Definition sweep (now : Z) (s : Commands) : Commands :=
  let prev := pendingCommands s in
  let old := filter (fun entry => expired now entry.2 = true) prev in
  foldr invoke
    (setPendingCommands
       (filter (fun entry => expired now entry.2 = false)) s)
    (expireCall <$> map_to_list old).

(** One callback runs at time [now]; [None] when the event cannot happen
    in [s]: no such write under way, no such timer due. *)
Definition step (now : Z) (e : Event) (s : Commands) : option Commands :=
  match e with
  | Send rnd36 commandType => Some (sendStart now rnd36 commandType s)
  | Written h =>
      w ← findWrite h (writes s); Some (armTimeout now w s)
  | WriteFailed h error =>
      w ← findWrite h (writes s); Some (sendFailed w error s)
  | TimerFired h =>
      t ← findTimer h now (timers s);
      Some (timeoutCallback t (setTimers (dropTimer h (timers s)) s))
  | AckSnapshot data => Some (onAckSnapshot now data s)
  | Sweep => Some (sweep now s)
  end.

Fixpoint run (trace : list (Z * Event)) (s : Commands) : option Commands :=
  match trace with
  | [] => Some s
  | (now, e) :: rest => s' ← step now e s; run rest s'
  end.

End SmartSocketApp.

(** The reduced screen, [src/app/index.tsx]: no acknowledgment listener and
    no clean-up. *)
Module SmartWallSocketApp.

Inductive Event : Type :=
  (** [sendCommand(commandData, commandType)] is called *)
  | Send (rnd36 commandType : string)
  | Written (h : nat)
  | WriteFailed (h : nat) (error : JsError)
  | TimerFired (h : nat).

(** The callback of the timeout: it calls the [reject] of its own call. *)
Definition timeoutCallback (t : Timer) (s : Commands) : Commands :=
  match pendingCommands s !! timer_id t with
  | Some _ =>
      invoke {| call_id := timer_id t; call_origin := ByTimeout;
                call_promise := timer_promise t;
                call_outcome := RejectedWith (timeoutError (timer_type t)) |}
        (setPendingCommands (delete (timer_id t)) s)
  | None => s
  end.

(** After the [await]: the timer is set, then [resolve()] is called. *)
Definition sendWritten (now : Z) (w : StoreWrite) (s : Commands) : Commands :=
  invoke {| call_id := write_id w; call_origin := ByWriteSuccess;
            call_promise := write_promise w;
            call_outcome := Fulfilled JUndefined |}
    (armTimeout now w s).

Definition step (now : Z) (e : Event) (s : Commands) : option Commands :=
  match e with
  | Send rnd36 commandType => Some (sendStart now rnd36 commandType s)
  | Written h =>
      w ← findWrite h (writes s); Some (sendWritten now w s)
  | WriteFailed h error =>
      w ← findWrite h (writes s); Some (sendFailed w error s)
  | TimerFired h =>
      t ← findTimer h now (timers s);
      Some (timeoutCallback t (setTimers (dropTimer h (timers s)) s))
  end.

Fixpoint run (trace : list (Z * Event)) (s : Commands) : option Commands :=
  match trace with
  | [] => Some s
  | (now, e) :: rest => s' ← step now e s; run rest s'
  end.

End SmartWallSocketApp.

(** ** Liveness monitor *)

Record Connectivity : Type := {
  isConnected : bool;
  lastDataReceived : Z;
  connectionRetryCount : Z;
  latestTelemetry : option TelemetryData
}.

Definition initialConnectivity : Connectivity :=
  {| isConnected := false; lastDataReceived := 0;
     connectionRetryCount := 0; latestTelemetry := None |}.

Inductive LivenessEvent : Type :=
  (** the listener on [smartSocket/telemetry] receives [data] *)
  | TelemetrySnapshot (data : JsVal)
  (** the telemetry subscription reports an error *)
  | SubscriptionError
  (** the 5-second interval of the connection monitoring fires *)
  | ConnectionCheck.

Section Liveness.
Context `{rt : JsRuntime}.

Definition onTelemetry (now : Z) (data : JsVal) (s : Connectivity)
    : Connectivity :=
  if truthy data then
    match validateTelemetryData (fun _ => now) data with
    | Some validatedData =>
        {| isConnected := true; lastDataReceived := now;
           connectionRetryCount := 0;
           latestTelemetry := Some validatedData |}
    | None => s
    end
  else s.

(** [handleFirebaseError] then [setConnectionRetryCount(prev => prev + 1)];
    the new subscription asked for after the back-off is not modelled. *)
Definition onSubscriptionError (s : Connectivity) : Connectivity :=
  {| isConnected := false; lastDataReceived := lastDataReceived s;
     connectionRetryCount := connectionRetryCount s + 1;
     latestTelemetry := latestTelemetry s |}.

Definition connectionCheck (now : Z) (s : Connectivity) : Connectivity :=
  if (0 <? lastDataReceived s) && (15000 <? now - lastDataReceived s) then
    {| isConnected := false; lastDataReceived := lastDataReceived s;
       connectionRetryCount := connectionRetryCount s;
       latestTelemetry := latestTelemetry s |}
  else s.

Definition liveness_step (now : Z) (e : LivenessEvent) (s : Connectivity)
    : Connectivity :=
  match e with
  | TelemetrySnapshot data => onTelemetry now data s
  | SubscriptionError => onSubscriptionError s
  | ConnectionCheck => connectionCheck now s
  end.

Definition liveness_run (trace : list (Z * LivenessEvent)) (s : Connectivity)
    : Connectivity :=
  foldl (fun s te => liveness_step te.1 te.2 s) s trace.
End Liveness.



(** ** The words of the specification *)

(** A structured record: an object or an array, as opposed to [null],
    [undefined] and the primitive values. *)
Definition is_record (v : JsVal) : bool :=
  match v with
  | JObj _ | JArr _ => true
  | _ => false
  end.

Definition is_nullish (v : JsVal) : bool :=
  match v with
  | JNull | JUndefined => true
  | _ => false
  end.

(** The conversion of the value to a string or to a number throws: the
    value is an object with an own property [toString], or an array that
    holds such a value. *)
Fixpoint throws_on_conversion (v : JsVal) : bool :=
  match v with
  | JObj props => has_own "toString" props
  | JArr elems => existsb throws_on_conversion elems
  | _ => false
  end.

(** The fields of the raw record that the sanitizer converts to a number or
    to a string. *)
Definition converted_fields : list string :=
  ["current"; "power"; "voltage"; "energy"; "timestamp"; "heartbeat";
   "detectedWattage"; "expectedCurrent"; "currentThreshold";
   "lastCommandId"; "lastCommandTime"].

(** A record whose field [current] cannot be converted. *)
Definition record_with_unconvertible_field : JsVal :=
  JObj [("current", JObj [("toString", JNum (Fin 1))])].

(** A record that the reduced screen accepts and the full screen rejects:
    the reduced screen does not read [heartbeat]. *)
Definition record_with_unconvertible_heartbeat : JsVal :=
  JObj [("power", JNum (Fin 5));
        ("heartbeat", JObj [("toString", JNum (Fin 1))])].

Section SanitizerWords.
Context `{rt : JsRuntime}.

(** [r] is the raw value [v] coerced to a number, or the default [d] when
    [v] is null, undefined or coerces to NaN. *)
Definition coerced (d : number) (v : JsVal) (r : number) : Prop :=
  exists x, ToNumber v = Some x /\
    (is_nullish v = true \/ isNaN x = true -> r = d) /\
    (is_nullish v = false -> isNaN x = false -> r = x).

(** [r] is the coerced value clamped to [max(0, value)]. *)
Definition clamped (d : number) (v : JsVal) (r : number) : Prop :=
  exists x, coerced d v x /\ r = Math_max zero x /\ num_le zero r = true.

(** The bounds of the times accepted at the clock reading [t]: 3600 seconds
    before and after it. *)
Definition earliest (t : Z) : number :=
  num_round (num_sub (seconds_of_ms t) (num_of_Z 3600)).

Definition latest (t : Z) : number :=
  num_round (num_add (seconds_of_ms t) (num_of_Z 3600)).

(** [r] is the coerced time, with the clock as default, when that is no
    more than 3600 seconds away from the clock, and the clock when it is;
    either way it is within the bounds. *)
Definition stamped (t1 t2 : Z) (v : JsVal) (r : number) : Prop :=
  exists x, coerced (seconds_of_ms t1) v x /\
    (num_le (earliest t2) x = true -> num_le x (latest t2) = true -> r = x) /\
    (num_lt x (earliest t2) = true \/ num_gt x (latest t2) = true ->
     r = seconds_of_ms t2) /\
    num_le (earliest t2) r = true /\
    num_le r (latest t2) = true.
End SanitizerWords.

(** The boolean fields as the specification words them: only the string
    ["true"] gives [true]. *)
Definition boolean_as_specified (v : JsVal) : bool :=
  match v with
  | JBool b => b
  | JStr s => String.eqb s "true"
  | JNum n => negb (num_eq n zero)
  | _ => false
  end.

(** The strings that are ["true"] up to the case of the letters. *)
Definition is_true_any_case (s : string) : bool :=
  match list_ascii_of_string s with
  | [t; r; u; e] =>
      (Ascii.eqb t "t" || Ascii.eqb t "T") &&
      (Ascii.eqb r "r" || Ascii.eqb r "R") &&
      (Ascii.eqb u "u" || Ascii.eqb u "U") &&
      (Ascii.eqb e "e" || Ascii.eqb e "E")
  | _ => false
  end.

(** The boolean fields as the program decides them. *)
Definition boolean_of (v : JsVal) : bool :=
  match v with
  | JBool b => b
  | JStr s => is_true_any_case s
  | JNum n => negb (num_eq n zero)
  | JUndefined | JNull | JArr _ | JObj _ => false
  end.

Section SanitizedWords.
Context `{rt : JsRuntime}.

(** What the specification asks of the numeric fields of the state [st]
    made from the raw record [data]. *)
Definition sanitized (clk : nat -> Z) (data : JsVal) (st : TelemetryData)
    : Prop :=
  let f := get_prop data in
  clamped zero (f "current") (current st) /\
  clamped zero (f "power") (power st) /\
  coerced (num_of_Z 230) (f "voltage") (voltage st) /\
  clamped zero (f "energy") (energy st) /\
  stamped (clk 0%nat) (clk 1%nat) (f "timestamp") (timestamp st) /\
  stamped (clk 2%nat) (clk 3%nat) (f "heartbeat") (heartbeat st) /\
  clamped zero (f "detectedWattage") (detectedWattage st) /\
  clamped zero (f "expectedCurrent") (expectedCurrent st) /\
  clamped (num_of_Z 10) (f "currentThreshold") (currentThreshold st) /\
  coerced zero (f "lastCommandTime") (lastCommandTime st) /\
  forallb (fun x => negb (isNaN x))
    [current st; power st; voltage st; energy st; timestamp st;
     heartbeat st; detectedWattage st; expectedCurrent st;
     currentThreshold st; lastCommandTime st] = true.
End SanitizedWords.

(** Most recent first: the timestamp of an alert is [>=] that of every
    alert after it. *)
Definition newer_or_equal (a b : AlertData) : Prop :=
  num_ge (alert_timestamp a) (alert_timestamp b) = true.

Definition sorted_descending (l : list AlertData) : Prop :=
  StronglySorted newer_or_equal l.

(** The entry has the property: reading it does not give [undefined]. *)
Definition has_prop (v : JsVal) (k : string) : Prop :=
  get_prop v k <> JUndefined.

(** The correlation id an acknowledgment record carries, when the listener
    looks it up: [commandId] is truthy and is a string. *)
Definition ack_key (ack : JsVal) : option string :=
  if truthy ack && truthy (get_prop ack "commandId") then
    match get_prop ack "commandId" with
    | JStr commandId => Some commandId
    | _ => None
    end
  else None.

(** The calls made with an entry taken out of the registry: a match, a
    timeout, a sweep. *)
Definition through_registry (o : Origin) : bool :=
  match o with
  | ByAck | ByTimeout | BySweep => true
  | ByWriteFailure | ByWriteSuccess => false
  end.

Definition is_registry_call (id : string) (c : Call) : bool :=
  through_registry (call_origin c) && String.eqb (call_id c) id.

(** How many times the registry resolved or rejected a handle for [id]. *)
Definition registry_calls (id : string) (l : list Call) : nat :=
  length (List.filter (is_registry_call id) l).

(** The ids generated by the sends of a trace. *)
Definition sent_ids (trace : list (Z * SmartSocketApp.Event)) : list string :=
  omap (fun te => match te.2 with
                  | SmartSocketApp.Send rnd36 _ =>
                      Some (generateCommandId te.1 rnd36)
                  | _ => None
                  end) trace.

(** Every entry is stored under its own id. *)
Definition keyed_by_id (m : gmap string PendingCommand) : Prop :=
  forall k cmd, m !! k = Some cmd -> cmd_id cmd = k.

(** ** What the statements below are made of *)

Import SmartSocketApp.

(** The timestamp of the alert is not NaN. *)
Definition timestamp_is_number (a : AlertData) : Prop :=
  isNaN (alert_timestamp a) = false.

Section AlertWords.
Context `{rt : JsRuntime}.

(** The alerts kept, before they are sorted: the array [alertArray] of the
    program, and no alert when a conversion throws. *)
Definition alertArray (data : JsVal) : list AlertData :=
  default [] (mapM alert_map (filter alert_filter (Object_values data))).

(** The entries of the batch that pass the filter. *)
Definition alerts_kept (data : JsVal) : list JsVal :=
  filter alert_filter (Object_values data).
End AlertWords.

(** One of the three conversions made of the alert throws. *)
Definition alert_throws (alert : JsVal) : bool :=
  throws_on_conversion (get_prop alert "type") ||
  throws_on_conversion (get_prop alert "message") ||
  throws_on_conversion (get_prop alert "timestamp").

(** A batch of three alerts; the timestamp of the second is a string that is
    not a number. *)
Definition alert_batch_with_bad_timestamp : JsVal :=
  JObj [("a1", JObj [("type", JStr "overcurrent"); ("message", JStr "first");
                     ("timestamp", JNum (Fin 1))]);
        ("a2", JObj [("type", JStr "overcurrent"); ("message", JStr "second");
                     ("timestamp", JStr "abc")]);
        ("a3", JObj [("type", JStr "overcurrent"); ("message", JStr "third");
                     ("timestamp", JNum (Fin 2))])].

(** The time a validated string resolves to: today at [h]:[m], or tomorrow
    when that is not after [now]. *)
Definition resolve_time (zone : TimeZone) (now h m : Z) : Z :=
  let targetTime := setHours zone now h m in
  if targetTime <=? now then setDate_next zone targetTime else targetTime.

(** [t] is the next time after [now] at which the local clock shows [h]:[m]
    and no seconds, where the local time is the universal time plus [tz]
    milliseconds. *)
Definition is_next_occurrence (tz now h m t : Z) : Prop :=
  now < t <= now + msPerDay /\
  (t + tz) mod msPerDay = h * 3600000 + m * 60000.

(** The end time the planner writes, in milliseconds: the resolved end, a
    day later when it is not after the resolved start. *)
Definition rolled_end (startTime endTime0 : Z) : Z :=
  if endTime0 <=? startTime then endTime0 + msPerDay else endTime0.

(** No character of the string is an underscore. *)
Fixpoint no_underscore (s : string) : bool :=
  match s with
  | EmptyString => true
  | String c r => negb (Ascii.eqb c "_") && no_underscore r
  end.

(** 1 when the registry has an entry for [k], 0 when it has none. *)
Definition present (k : string) (s : Commands) : nat :=
  match pendingCommands s !! k with Some _ => 1 | None => 0 end.

(** What holds of a state reached by sends that generated the ids [issued],
    all different. *)
Record consistent (issued : list string) (s : Commands) : Prop := {
  c_unissued : forall k, k ∉ issued ->
    pendingCommands s !! k = None /\ registry_calls k (calls s) = 0%nat;
  c_once : forall k, (registry_calls k (calls s) + present k s <= 1)%nat;
  c_entries : forall k cmd, pendingCommands s !! k = Some cmd ->
    cmd_id cmd = k /\ promises s !! cmd_promise cmd = Some Pending /\
    (cmd_promise cmd < nextPromise s)%nat;
  c_distinct : forall k k' cmd cmd',
    pendingCommands s !! k = Some cmd -> pendingCommands s !! k' = Some cmd' ->
    cmd_promise cmd = cmd_promise cmd' -> k = k';
  c_writes : forall w, w ∈ writes s ->
    write_id w ∈ issued /\ (write_promise w < nextPromise s)%nat /\
    forall k cmd, pendingCommands s !! k = Some cmd ->
      (cmd_promise cmd = write_promise w -> k = write_id w) /\
      (k = write_id w ->
       cmd_promise cmd = write_promise w /\ cmd_type cmd = write_type w);
  c_timers : forall t, t ∈ timers s ->
    timer_id t ∈ issued /\
    forall cmd, pendingCommands s !! timer_id t = Some cmd ->
      cmd_promise cmd = timer_promise t /\ cmd_type cmd = timer_type t
}.

(** An entry is taken out of the registry and its handle is resolved or
    rejected: by a match, by the timeout, by the sweep. *)
Definition retire (k : string) (o : Origin) (cmd : PendingCommand)
    (outcome : PromiseState) (s : Commands) : Commands :=
  invoke {| call_id := k; call_origin := o; call_promise := cmd_promise cmd;
            call_outcome := outcome |}
    (setPendingCommands (delete k) s).

(** A record acknowledging the command sent at time 0. *)
Definition sample_ack : JsVal :=
  JObj [("commandId", JStr "cmd_0_abcdefghi"); ("type", JStr "RELAY_CONTROL");
        ("result", JStr "OK"); ("processed", JBool true)].

Definition sample_acknowledged_trace : list (Z * Event) :=
  [(0, Send "0.abcdefghijk" "RELAY_CONTROL"); (100, Written 0%nat);
   (2000, AckSnapshot (JObj [("cmd_0_abcdefghi", sample_ack)]));
   (2500, AckSnapshot (JObj [("cmd_0_abcdefghi", sample_ack)]));
   (10100, TimerFired 0%nat); (15500, Sweep)].

(** Two commands sent in the same millisecond with the same random string,
    each acknowledged before the next event. *)
Definition colliding_trace : list (Z * Event) :=
  [(0, Send "0.abcdefghijk" "RELAY_CONTROL");
   (0, AckSnapshot (JObj [("cmd_0_abcdefghi", sample_ack)]));
   (0, Send "0.abcdefghijk" "RELAY_CONTROL");
   (0, AckSnapshot (JObj [("cmd_0_abcdefghi", sample_ack)]))].

(** Two commands sent in the same millisecond with the same random string,
    a relay command and then a reset; the write of the first completes. *)
Definition shared_id_trace : list (Z * Event) :=
  [(0, Send "0.abcdefghijk" "RELAY_CONTROL");
   (0, Send "0.abcdefghijk" "RESET_PROTECTION");
   (100, Written 0%nat)].

Definition sample_timed_out_trace : list (Z * Event) :=
  [(0, Send "0.abcdefghijk" "RELAY_CONTROL"); (100, Written 0%nat);
   (5500, Sweep)].

(** The command is sent at time 0, its write completes at 6000, the clean-up
    runs every 5 seconds from 500 on, no acknowledgment arrives. *)
Definition slow_write_trace : list (Z * Event) :=
  [(0, Send "0.abcdefghijk" "RELAY_CONTROL"); (500, Sweep); (5500, Sweep);
   (6000, Written 0%nat); (10500, Sweep)].

(** What an id is made of: the reading of the clock and the nine characters
    kept of the random string. *)
Definition id_source (send : Z * string) : Z * string :=
  (send.1, substr 2 9 send.2).

Definition id_of_send (send : Z * string) : string :=
  generateCommandId send.1 send.2.

Definition sample_sends : list (Z * string) :=
  [(1700000000000, "0.k3j5h2l9xq7"); (1700000000000, "0.9f8e7d6c5b4");
   (1700000000001, "0.k3j5h2l9xq7")].

(** The event takes the entry of [id] out of the registry or puts one in:
    a timer or a failed write of a command with that id, a send that
    generates that id. *)
Definition concerns (id : string) (now : Z) (e : SmartWallSocketApp.Event)
    (s : Commands) : Prop :=
  match e with
  | SmartWallSocketApp.Send rnd36 _ => generateCommandId now rnd36 = id
  | SmartWallSocketApp.Written _ => False
  | SmartWallSocketApp.WriteFailed h _ =>
      exists w, findWrite h (writes s) = Some w /\ write_id w = id
  | SmartWallSocketApp.TimerFired h =>
      exists t, findTimer h now (timers s) = Some t /\ timer_id t = id
  end.

(** The ids generated by the sends of a trace of the reduced screen. *)
Definition reduced_sent_ids (trace : list (Z * SmartWallSocketApp.Event))
    : list string :=
  omap (fun te => match te.2 with
                  | SmartWallSocketApp.Send rnd36 _ =>
                      Some (generateCommandId te.1 rnd36)
                  | _ => None
                  end) trace.

(** What holds of a state of the reduced screen reached by sends that
    generated the ids [issued], all different: a command whose write is under
    way has its entry and a pending promise; a command whose timer is set has
    its entry and a fulfilled promise. *)
Record reduced_consistent (issued : list string) (s : Commands) : Prop := {
  r_pending : forall k, is_Some (pendingCommands s !! k) -> k ∈ issued;
  r_writes : forall w, w ∈ writes s ->
    write_id w ∈ issued /\ (write_promise w < nextPromise s)%nat /\
    is_Some (pendingCommands s !! write_id w) /\
    promises s !! write_promise w = Some Pending;
  r_timers : forall t, t ∈ timers s ->
    timer_id t ∈ issued /\ (timer_promise t < nextPromise s)%nat /\
    is_Some (pendingCommands s !! timer_id t) /\
    promises s !! timer_promise t = Some (Fulfilled JUndefined);
  r_write_ids : forall w w', w ∈ writes s -> w' ∈ writes s ->
    write_id w = write_id w' -> write_promise w = write_promise w';
  r_timer_ids : forall t t', t ∈ timers s -> t' ∈ timers s ->
    timer_id t = timer_id t' -> timer_promise t = timer_promise t';
  r_apart : forall w t, w ∈ writes s -> t ∈ timers s ->
    write_id w <> timer_id t
}.

Definition sample_reduced_trace : list (Z * SmartWallSocketApp.Event) :=
  [(0, SmartWallSocketApp.Send "0.abcdefghijk" "RELAY_CONTROL");
   (200, SmartWallSocketApp.Written 0%nat)].


(** The time of the last event, [T0] when there is none. *)
Definition time_after (T0 : Z) (trace : list (Z * LivenessEvent)) : Z :=
  List.last (trace.*1) T0.


Definition sample_telemetry : JsVal :=
  JObj [("power", JNum (Fin 5)); ("relayState", JBool true)].

Definition sample_liveness_trace : list (Z * LivenessEvent) :=
  [(1000, TelemetrySnapshot sample_telemetry); (5000, ConnectionCheck);
   (10000, ConnectionCheck); (15000, ConnectionCheck);
   (20000, ConnectionCheck)].

(** ** The other handlers of the full screen *)

(** The validated object as a value of the language: the sixteen properties
    of [validatedData], each a number, a boolean or a string. *)
Definition telemetry_value (st : TelemetryData) : JsVal :=
  JObj [("current", JNum (current st)); ("power", JNum (power st));
        ("voltage", JNum (voltage st)); ("energy", JNum (energy st));
        ("relayState", JBool (relayState st));
        ("deviceConnected", JBool (deviceConnected st));
        ("timestamp", JNum (timestamp st));
        ("heartbeat", JNum (heartbeat st));
        ("detectedWattage", JNum (detectedWattage st));
        ("expectedCurrent", JNum (expectedCurrent st));
        ("currentThreshold", JNum (currentThreshold st));
        ("scheduleActive", JBool (scheduleActive st));
        ("scheduleStarted", JBool (scheduleStarted st));
        ("overcurrentTripped", JBool (overcurrentTripped st));
        ("lastCommandId", JStr (lastCommandId st));
        ("lastCommandTime", JNum (lastCommandTime st))].

Inductive QuickScheduleOutcome : Type :=
  | InvalidDuration  (* 'Duration must be between 1 and 1440 minutes' *)
  (** the record written to [smartSocket/schedule] *)
  | QuickScheduleWrite (active : bool) (startTime endTime : Z).

(** [minutes] is an integer (the buttons pass 15, 30, 60 and 120) and [now]
    the reading of [new Date()]. *)
Definition handleQuickSchedule (minutes now : Z) : QuickScheduleOutcome :=
  if (minutes <=? 0) || (1440 <? minutes) then InvalidDuration
  else
    let startTime := now / 1000 in
    let endTime := startTime + minutes * 60 in
    QuickScheduleWrite true startTime endTime.

(** [s.includes(needle)] *)
Fixpoint includes (needle s : string) : bool :=
  String.prefix needle s ||
  match s with
  | String _ s' => includes needle s'
  | EmptyString => false
  end.

(** What [await sendCommandWithAck(...)] gives when the promise is settled:
    the acknowledgment it was resolved with, or the error it throws. *)
Inductive Awaited : Type :=
  | Resolved (result : JsVal)
  | Thrown (error : JsError).

Definition awaited (p : PromiseState) : option Awaited :=
  match p with
  | Pending => None
  | Fulfilled v => Some (Resolved v)
  | RejectedWith e => Some (Thrown e)
  end.

(** The dialogs of [handleManualControl], by title. *)
Inductive ControlAlert : Type :=
  | ControlNotConnected  (* 'Connection Error', 'Not connected to device...' *)
  | ControlSuccess (value : bool)  (* 'Success', 'Socket turned ON|OFF ...' *)
  | OperationBlocked     (* 'Operation Blocked' *)
  | NoChange             (* 'No Change' *)
  | CommandNotProcessed (reason : JsVal)  (* 'Command Not Processed' *)
  | ControlTimeout       (* 'Timeout' *)
  | ControlError (message : string).  (* 'Error', 'Failed to control socket: ...' *)

(** [handleManualControl(value)] up to the [await]: the dialog when the
    screen is not connected, else the command is sent. *)
Definition handleManualControl (now : Z) (rnd36 : string)
    (isConnected value : bool) (s : Commands) : ControlAlert + Commands :=
  if negb isConnected then inl ControlNotConnected
  else inr (sendStart now rnd36 "RELAY_CONTROL" s).

(** The rest of [handleManualControl(value)], once the promise is settled:
    the dialog shown and the new value of [manualRelay], the state of the
    switch on the screen; [manualRelay] is that state when the promise is
    settled, which the telemetry may have set since the call. *)
Definition handleManualControl_settled (value manualRelay : bool)
    (r : Awaited) : ControlAlert * bool :=
  match r with
  | Resolved result =>
      if truthy (get_prop result "processed") then (ControlSuccess value, value)
      else
        let reason := get_prop result "result" in
        let reason_is s :=
          match reason with JStr c => String.eqb c s | _ => false end in
        (if reason_is "BLOCKED_PROTECTION_ACTIVE" then OperationBlocked
         else if reason_is "NO_CHANGE_REQUIRED" then NoChange
         else CommandNotProcessed (js_or reason (JStr "Unknown reason")),
         if negb (reason_is "NO_CHANGE_REQUIRED") then negb value else manualRelay)
  | Thrown (Error message) =>
      (if includes "timed out" message then ControlTimeout
       else ControlError message,
       negb value)
  end.

(** The dialogs of [handleResetTrip], by title. *)
Inductive ResetAlert : Type :=
  | ResetSuccess        (* 'Success' *)
  | ResetBlocked        (* 'Reset Blocked' *)
  | NoActionNeeded      (* 'No Action Needed' *)
  | ResetFailed (reason : JsVal)  (* 'Reset Failed' *)
  | ResetTimeout        (* 'Timeout' *)
  | ResetError (message : string).  (* 'Error', 'Failed to reset protection: ...' *)

(** [handleResetTrip()] once the promise of
    [sendCommandWithAck({ resetTrip: true }, 'RESET_PROTECTION')] is settled. *)
Definition handleResetTrip_settled (r : Awaited) : ResetAlert :=
  match r with
  | Resolved result =>
      if truthy (get_prop result "processed") then ResetSuccess
      else
        let reason := get_prop result "result" in
        let reason_is s :=
          match reason with JStr c => String.eqb c s | _ => false end in
        if reason_is "BLOCKED_UNSAFE_CONDITIONS" then ResetBlocked
        else if reason_is "NO_PROTECTION_ACTIVE" then NoActionNeeded
        else ResetFailed (js_or reason (JStr "Unknown reason"))
  | Thrown (Error message) =>
      if includes "timed out" message then ResetTimeout
      else ResetError message
  end.

(** [telemetry] is the state of that name: the record shown, or [null]. *)
Definition getStatusColor (isConnected : bool)
    (telemetry : option TelemetryData) : string :=
  if negb isConnected then "#8E8E93"
  else if from_option overcurrentTripped false telemetry then "#6E6E73"
  else if from_option relayState false telemetry then "#000000"
  else "#BDBDBD".

(** The text of the status indicator in the header. *)
Definition statusText (isConnected : bool)
    (telemetry : option TelemetryData) : string :=
  if negb isConnected then "Offline"
  else if from_option overcurrentTripped false telemetry then "Tripped"
  else if from_option relayState false telemetry then "ON"
  else "OFF".


(** The seconds shown after [Last update:] at time [now], when the line is
    shown. *)
Definition lastUpdateSeconds (now : Z) (s : Connectivity) : option Z :=
  if 0 <? lastDataReceived s then Some ((now - lastDataReceived s) / 1000)
  else None.

(** ** The rest of the reduced screen, [src/app/index.tsx] *)

Module IndexTsx.

Record TelemetryData : Type := {
  current : number;
  power : number;
  voltage : number;
  energy : number;
  relayState : bool;
  timestamp : number
}.

Section Sanitizer.
Context `{rt : JsRuntime}.

Definition parseNumeric (value : JsVal) (defaultValue : number)
    : option number :=
  match value with
  | JNull | JUndefined => Some defaultValue
  | _ =>
      parsed ← ToNumber value;
      Some (if isNaN parsed then defaultValue else parsed)
  end.

Definition parseBoolean (value : JsVal) (defaultValue : bool) : bool :=
  match value with
  | JNull | JUndefined => defaultValue
  | JBool b => b
  | _ => defaultValue
  end.

(** [now] is the reading of [Date.now()]. A conversion that throws ends the
    [try] block, and the [catch] block returns [null]. *)
Definition validateTelemetryData (now : Z) (data : JsVal)
    : option TelemetryData :=
  if negb (truthy data) || negb (is_object_type (typeof data)) then None
  else
    let f := get_prop data in
    current_ ← Math_max zero <$> parseNumeric (f "current") zero;
    power_ ← Math_max zero <$> parseNumeric (f "power") zero;
    voltage_ ← parseNumeric (f "voltage") (num_of_Z 230);
    energy_ ← Math_max zero <$> parseNumeric (f "energy") zero;
    timestamp_ ← parseNumeric (f "timestamp") (seconds_of_ms now);
    Some {|
      current := current_;
      power := power_;
      voltage := voltage_;
      energy := energy_;
      relayState := parseBoolean (f "relayState") false;
      timestamp := timestamp_
    |}.
End Sanitizer.

Inductive ToggleOutcome : Type :=
  | NotConnected  (* 'Not Connected: Cannot send command. ...' *)
  | PleaseWait    (* 'Please Wait: Another command is already in progress.' *)
  (** [manualRelay] is set to [newState] and the command is sent *)
  | Toggled (newState : bool) (s : Commands).

(** [handleToggleSwitch()] up to the [await], with the states [isConnected],
    [manualRelay] and [pendingCommands] as they are when the button is
    pressed. *)
Definition handleToggleSwitch (now : Z) (rnd36 : string)
    (isConnected manualRelay : bool) (s : Commands) : ToggleOutcome :=
  if negb isConnected then NotConnected
  else if (0 <? size (pendingCommands s))%nat then PleaseWait
  else
    let newState := negb manualRelay in
    Toggled newState (sendStart now rnd36 "RELAY_CONTROL" s).

(** What happens on the screen: the button is pressed, or a command sent by
    a press goes on. *)
Inductive ScreenEvent : Type :=
  | Press (rnd36 : string) (isConnected manualRelay : bool)
  | Written (h : nat)
  | WriteFailed (h : nat) (error : JsError)
  | TimerFired (h : nat).

Definition screen_step (now : Z) (e : ScreenEvent) (s : Commands)
    : option Commands :=
  match e with
  | Press rnd36 isConnected manualRelay =>
      match handleToggleSwitch now rnd36 isConnected manualRelay s with
      | Toggled _ s' => Some s'
      | NotConnected | PleaseWait => Some s
      end
  | Written h => SmartWallSocketApp.step now (SmartWallSocketApp.Written h) s
  | WriteFailed h error =>
      SmartWallSocketApp.step now (SmartWallSocketApp.WriteFailed h error) s
  | TimerFired h =>
      SmartWallSocketApp.step now (SmartWallSocketApp.TimerFired h) s
  end.

Fixpoint screen_run (trace : list (Z * ScreenEvent)) (s : Commands)
    : option Commands :=
  match trace with
  | [] => Some s
  | (now, e) :: rest => s' ← screen_step now e s; screen_run rest s'
  end.

End IndexTsx.

(** ** What the further statements are made of *)

(** The timestamp of the alert equals [t]. *)
Definition same_time (t : number) (a : AlertData) : bool :=
  num_eq (alert_timestamp a) t.

(** A batch of twelve alerts, two of them at the same time, the timestamps
    given as numbers and as strings. *)
Definition sample_alert_batch : JsVal :=
  JObj (imap (fun i t =>
          (pretty (Z.of_nat i),
           JObj [("type", JStr "overcurrent");
                 ("message", JStr (pretty (Z.of_nat i)));
                 ("timestamp", t)]))
        [JNum (Fin 1700000100); JStr "1700000900"; JNum (Fin 1700000300);
         JNum (Fin 1700000300); JStr "1700000200"; JNum (Fin 1700001200);
         JNum (Fin 1700000500); JNum (Fin 1700000700); JNum (Fin 1700000600);
         JNum (Fin 1700000400); JStr "1700001100"; JNum (Fin 1700000800)]).


(** Every promise made and not yet settled is the promise of an entry of the
    registry. *)
Definition covered (s : Commands) : Prop :=
  forall h, promises s !! h = Some Pending ->
    exists k cmd, pendingCommands s !! k = Some cmd /\ cmd_promise cmd = h.

(** The command sent at time 0 is written at 100; the clean-up runs at
    5500. *)
Definition sample_waiting_trace : list (Z * Event) :=
  [(0, Send "0.abcdefghijk" "RELAY_CONTROL"); (100, Written 0%nat)].

(** The command sent at time 0 is still being written. *)
Definition sample_writing_trace : list (Z * Event) :=
  [(0, Send "0.abcdefghijk" "RELAY_CONTROL")].

(** The correlation ids carried by the records of a snapshot. *)
Definition acknowledged_ids (data : JsVal) : list string :=
  omap ack_key (Object_values data).

(** Two commands are sent and written; a snapshot acknowledges the second,
    and holds a record for a command that is not pending. *)
Definition sample_two_commands_trace : list (Z * Event) :=
  [(0, Send "0.abcdefghijk" "RELAY_CONTROL"); (100, Written 0%nat);
   (200, Send "0.zyxwvutsrqp" "RESET_PROTECTION"); (300, Written 1%nat)].

Definition sample_ack_snapshot : JsVal :=
  JObj [("cmd_200_zyxwvutsr",
         JObj [("commandId", JStr "cmd_200_zyxwvutsr");
               ("result", JStr "NO_PROTECTION_ACTIVE");
               ("processed", JBool false)]);
        ("cmd_1_old", JObj [("commandId", JStr "cmd_1_old")])].

(** On the reduced screen: no command is under way, or one command is
    being written, or one command is written and its timer is set. *)
Inductive serialised (s : Commands) : Prop :=
  | ser_idle :
      pendingCommands s = ∅ -> writes s = [] -> timers s = [] ->
      serialised s
  | ser_writing (w : StoreWrite) (cmd : PendingCommand) :
      pendingCommands s = {[write_id w := cmd]} -> writes s = [w] ->
      timers s = [] -> serialised s
  | ser_waiting (t : Timer) (cmd : PendingCommand) :
      pendingCommands s = {[timer_id t := cmd]} -> writes s = [] ->
      timers s = [t] -> serialised s.

(** The button is pressed twice while the screen is connected, and a third
    time after the command of the first press is written. *)
Definition sample_presses : list (Z * IndexTsx.ScreenEvent) :=
  [(0, IndexTsx.Press "0.abcdefghijk" true false);
   (50, IndexTsx.Press "0.zyxwvutsrqp" true true);
   (200, IndexTsx.Written 0%nat);
   (3000, IndexTsx.Press "0.mnopqrstuvw" true true)].

(** The digit [d], from 0 to 9, as a character. *)
Definition digit_char (d : Z) : ascii := ascii_of_N (48 + Z.to_N d).

Definition two_digits (n : Z) : string :=
  String (digit_char (n / 10)) (String (digit_char (n mod 10)) "").

(** The time of day [h]:[m] as a text: the minute with two digits; the hour
    with two digits when it has two or when [pad] is set, with one digit
    otherwise. *)
Definition clock_text (pad : bool) (h m : Z) : string :=
  (if pad || (10 <=? h) then two_digits h else String (digit_char h) "")
  +:+ ":" +:+ two_digits m.

(** The hour and the minute that [parseTimeToTimestamp] reads in the trimmed
    string: [cleanTime.split(':').map(Number)], the first two pieces. *)
Definition read_time (cleanTime : string) : option (Z * Z) :=
  match split_colon cleanTime "" with
  | hs :: ms :: _ =>
      match digits_to_Z hs, digits_to_Z ms with
      | Some hours, Some minutes => Some (hours, minutes)
      | _, _ => None
      end
  | _ => None
  end.

(** Every text of a time of day matches the pattern and is read as that
    time. *)
Definition clock_texts_checked : bool :=
  forallb (fun pad =>
    forallb (fun h =>
      forallb (fun m =>
        let t := clock_text pad h m in
        timeRegex_test t &&
        match read_time t with
        | Some (h', m') => (h' =? h) && (m' =? m)
        | None => false
        end) (seqZ 0 60)) (seqZ 0 24)) [true; false].

(** The entry [cmd], stored under [k], is the one a send of the trace puts
    in the registry: sent at the time the entry records, with its type, and
    with the id [k]. *)
Definition sent_in (trace : list (Z * Event)) (k : string)
    (cmd : PendingCommand) : Prop :=
  exists rnd36,
    (cmd_timestamp cmd, Send rnd36 (cmd_type cmd)) ∈ trace /\
    k = generateCommandId (cmd_timestamp cmd) rnd36 /\ cmd_id cmd = k.

(** The string does not start with a decimal digit. *)
Definition no_leading_digit (s : string) : bool :=
  match s with
  | String c _ => negb (bool_decide (is_Some (digit_value c)))
  | EmptyString => true
  end.

(** An alert whose timestamp is a text: a number followed by a unit. *)
Definition sample_alert_with_text_time : JsVal :=
  JObj [("type", JStr "overcurrent"); ("message", JStr "tripped");
        ("timestamp", JStr (pretty 1700000000 +:+ " s"))].

(** The ids of the acknowledgments the listener resolved a handle with, the
    latest first. *)
Definition resolved_ids (l : list Call) : list string :=
  omap (fun c => match call_origin c with
                 | ByAck => Some (call_id c)
                 | _ => None
                 end) l.

(** The deletion of an acknowledgment record, asked for 5 seconds after a
    snapshot of the trace that carries its id. *)
Definition deletion_of (trace : list (Z * Event)) (d : Z * string) : Prop :=
  exists now data,
    (now, AckSnapshot data) ∈ trace /\ d.1 = now + 5000 /\
    d.2 ∈ acknowledged_ids data.

(** What a run adds to the deletions asked for and to the calls made: the
    deletions are those of the acknowledgments resolved, in the same order,
    each asked for by a snapshot of the trace. *)
Definition adds (trace : list (Z * Event)) (s s' : Commands) : Prop :=
  exists new cs,
    ackDeletes s' = ackDeletes s ++ new /\ calls s' = cs ++ calls s /\
    new.*2 = reverse (resolved_ids cs) /\ Forall (deletion_of trace) new.

(** ** What the screens show of the telemetry *)

(** [a * b] *)
Definition num_mul (a b : number) : number :=
  match a, b with
  | NaN, _ | _, NaN => NaN
  | Fin x, Fin y => Fin (x * y)
  | Fin x, PosInf | PosInf, Fin x =>
      if Qeq_bool x 0 then NaN else if Qlt_bool 0 x then PosInf else NegInf
  | Fin x, NegInf | NegInf, Fin x =>
      if Qeq_bool x 0 then NaN else if Qlt_bool 0 x then NegInf else PosInf
  | PosInf, PosInf | NegInf, NegInf => PosInf
  | PosInf, NegInf | NegInf, PosInf => NegInf
  end.

(** [a / b]; a divisor that is zero is the positive zero. *)
Definition num_div (a b : number) : number :=
  match a, b with
  | NaN, _ | _, NaN => NaN
  | Fin x, Fin y =>
      if Qeq_bool y 0 then
        if Qeq_bool x 0 then NaN else if Qlt_bool 0 x then PosInf else NegInf
      else Fin (x / y)
  | Fin _, PosInf | Fin _, NegInf => zero
  | PosInf, PosInf | PosInf, NegInf | NegInf, PosInf | NegInf, NegInf => NaN
  | PosInf, Fin y => if Qlt_bool y 0 then NegInf else PosInf
  | NegInf, Fin y => if Qlt_bool y 0 then PosInf else NegInf
  end.

(** [telemetry ? (telemetry.power / 1000) * 209.50 : 0] *)
Definition costPerHour (telemetry : option TelemetryData) : number :=
  match telemetry with
  | Some t => num_mul (num_div (power t) (num_of_Z 1000)) (Fin (419 # 2))
  | None => zero
  end.



Section ReducedLiveness.
Context `{rt : JsRuntime}.





End ReducedLiveness.





(** * Properties *)

(** ** Numbers *)

Lemma Qlt_bool_iff (a b : Q) : Qlt_bool a b = true <-> (a < b)%Q.
Proof.
  unfold Qlt_bool. rewrite negb_true_iff.
  split; intros H.
  - apply Qnot_le_lt. intros Hle. apply Qle_bool_iff in Hle. congruence.
  - destruct (Qle_bool b a) eqn:E; [|reflexivity].
    apply Qle_bool_iff in E. exfalso. exact (Qlt_not_le _ _ H E).
Qed.

Lemma Qlt_bool_false_iff (a b : Q) : Qlt_bool a b = false <-> (b <= a)%Q.
Proof.
  unfold Qlt_bool. rewrite negb_false_iff. apply Qle_bool_iff.
Qed.

Lemma Math_max_zero_not_NaN (x : number) :
  isNaN x = false -> isNaN (Math_max zero x) = false.
Proof.
  destruct x; try reflexivity; [discriminate|].
  intros _. unfold Math_max, zero, num_of_Z.
  destruct (num_lt (Fin (inject_Z 0)) (Fin q)); reflexivity.
Qed.

Lemma Math_max_zero_nonneg (x : number) :
  isNaN x = false -> num_le zero (Math_max zero x) = true.
Proof.
  destruct x; try reflexivity; [discriminate|].
  intros _. unfold Math_max, zero, num_of_Z.
  destruct (num_lt (Fin (inject_Z 0)) (Fin q)) eqn:E; [|reflexivity].
  simpl in *. rewrite negb_true_iff. apply Qlt_bool_false_iff.
  apply Qlt_bool_iff in E. apply Qlt_le_weak. exact E.
Qed.

(** ** Conversions *)

(** Induction on a value, through the elements of an array. *)
Lemma JsVal_array_ind (P : JsVal -> Prop) :
  P JUndefined -> P JNull -> (forall b, P (JBool b)) ->
  (forall n, P (JNum n)) -> (forall s, P (JStr s)) ->
  (forall elems, Forall P elems -> P (JArr elems)) ->
  (forall props, P (JObj props)) ->
  forall v, P v.
Proof.
  intros Hu Hn Hb Hnum Hs Ha Ho.
  fix IH 1.
  intros [| |b|n|s|elems|props];
    [exact Hu|exact Hn|apply Hb|apply Hnum|apply Hs| |apply Ho].
  apply Ha. induction elems as [|e elems IHl]; constructor;
    [apply IH|exact IHl].
Qed.

Section ConversionProperties.
Context `{rt : JsRuntime}.

Lemma ToString_None (v : JsVal) :
  ToString v = None <-> throws_on_conversion v = true.
Proof.
  induction v as [| |b|n|s|elems IH|props] using JsVal_array_ind;
    cbn [ToString throws_on_conversion]; try (split; discriminate).
  - destruct b; split; discriminate.
  - rewrite fmap_None.
    induction IH as [|e elems He _ IHl]; cbn [mapM existsb];
      [split; discriminate|].
    assert (Hhead :
      match e with JUndefined | JNull => Some "" | _ => ToString e end = None
      <-> throws_on_conversion e = true).
    { destruct e; try exact He; split; discriminate. }
    destruct (match e with JUndefined | JNull => Some "" | _ => ToString e end)
      as [x|] eqn:E; cbn [mbind option_bind].
    + destruct (throws_on_conversion e);
        [discriminate (proj2 Hhead eq_refl)|].
      cbn [orb]. rewrite <- IHl.
      destruct (mapM _ elems); simpl; split; intros H;
        (discriminate H || reflexivity).
    + rewrite (proj1 Hhead eq_refl). split; reflexivity.
  - destruct (has_own "toString" props); split; congruence.
Qed.

Lemma ToNumber_None (v : JsVal) :
  ToNumber v = None <-> throws_on_conversion v = true.
Proof.
  destruct v as [| |b|n|s|elems|props]; cbn [ToNumber];
    try (split; discriminate).
  - destruct b; split; discriminate.
  - rewrite fmap_None. apply ToString_None.
  - rewrite fmap_None. apply ToString_None.
Qed.

Lemma ToString_Some (v : JsVal) (s : string) :
  ToString v = Some s -> throws_on_conversion v = false.
Proof.
  intros H. destruct (throws_on_conversion v) eqn:E; [|reflexivity].
  apply ToString_None in E. congruence.
Qed.

Lemma ToNumber_Some (v : JsVal) (x : number) :
  ToNumber v = Some x -> throws_on_conversion v = false.
Proof.
  intros H. destruct (throws_on_conversion v) eqn:E; [|reflexivity].
  apply ToNumber_None in E. congruence.
Qed.
End ConversionProperties.
(** ** Telemetry sanitizer *)

Lemma num_le_negb_lt (a b : number) :
  isNaN a = false -> isNaN b = false -> num_le a b = negb (num_lt b a).
Proof. destruct a, b; simpl; intros; try discriminate; reflexivity. Qed.

Lemma num_le_Fin (a b : Q) : num_le (Fin a) (Fin b) = true <-> (a <= b)%Q.
Proof.
  simpl. rewrite negb_true_iff. apply Qlt_bool_false_iff.
Qed.

Lemma num_le_not_NaN (a b : number) :
  num_le a b = true -> isNaN a = false /\ isNaN b = false.
Proof. destruct a, b; simpl; intros; try discriminate; split; reflexivity. Qed.

Lemma Some_not_None {A : Type} (m : option A) (b : bool) (x : A) :
  (m = None <-> b = true) -> m = Some x -> b = false.
Proof.
  intros H E. destruct b; [|reflexivity].
  rewrite (proj2 H eq_refl) in E. discriminate E.
Qed.

Section SanitizerProperties.
Context `{rt : JsRuntime}.

Lemma RoundNumber_not_NaN (q : Q) : isNaN (RoundNumber q) = false.
Proof.
  apply (num_le_not_NaN (RoundNumber q) (RoundNumber q)).
  apply RoundNumber_le, Qle_refl.
Qed.

Lemma seconds_of_ms_not_NaN (t : Z) : isNaN (seconds_of_ms t) = false.
Proof. apply RoundNumber_not_NaN. Qed.

Lemma parseNumeric_None (v : JsVal) (name : string) (d : number) :
  parseNumeric v name d = None <-> throws_on_conversion v = true.
Proof.
  rewrite <- ToNumber_None. unfold parseNumeric.
  destruct v; cbn [ToNumber]; try (split; discriminate);
    try (destruct b; split; discriminate);
    destruct (StringToNumber <$> _); simpl; split; intros H;
      (discriminate H || reflexivity).
Qed.

Lemma parseNumeric_Some (v : JsVal) (name : string) (d r : number) :
  parseNumeric v name d = Some r -> throws_on_conversion v = false.
Proof.
  intros H. destruct (throws_on_conversion v) eqn:E; [|reflexivity].
  apply (parseNumeric_None v name d) in E. congruence.
Qed.

Lemma parseNumeric_coerced (v : JsVal) (name : string) (d r : number) :
  parseNumeric v name d = Some r -> coerced d v r.
Proof.
  unfold coerced, parseNumeric.
  destruct (ToNumber v) as [x|] eqn:E.
  - intros H. exists x. split; [reflexivity|].
    assert (Hr : r = if is_nullish v || isNaN x then d else x).
    { destruct v; cbn [is_nullish orb]; simpl in H; congruence. }
    subst r. split.
    + intros [-> | ->]; rewrite ?orb_true_r; reflexivity.
    + intros -> ->. reflexivity.
  - destruct v; try discriminate E; simpl; discriminate.
Qed.

Lemma parseNumeric_not_NaN (v : JsVal) (name : string) (d r : number) :
  isNaN d = false -> parseNumeric v name d = Some r -> isNaN r = false.
Proof.
  intros Hd H. destruct (parseNumeric_coerced v name d r H)
    as (x & _ & Hdef & Hval).
  destruct (is_nullish v) eqn:En; [rewrite Hdef by auto; exact Hd|].
  destruct (isNaN x) eqn:Ex; [rewrite Hdef by auto; exact Hd|].
  rewrite Hval by reflexivity. exact Ex.
Qed.

Lemma parseNumeric_clamped (v : JsVal) (name : string) (d r : number) :
  isNaN d = false ->
  Math_max zero <$> parseNumeric v name d = Some r -> clamped d v r.
Proof.
  intros Hd H. apply fmap_Some in H as (x & Hx & ->).
  exists x. split; [eapply parseNumeric_coerced, Hx|].
  split; [reflexivity|].
  eapply Math_max_zero_nonneg, parseNumeric_not_NaN; eassumption.
Qed.

Lemma parseNumeric_clamped_not_NaN (v : JsVal) (name : string)
    (d r : number) :
  isNaN d = false ->
  Math_max zero <$> parseNumeric v name d = Some r -> isNaN r = false.
Proof.
  intros Hd H. apply fmap_Some in H as (x & Hx & ->).
  eapply Math_max_zero_not_NaN, parseNumeric_not_NaN; eassumption.
Qed.

Lemma parseNumeric_clamped_None (v : JsVal) (name : string) (d : number) :
  Math_max zero <$> parseNumeric v name d = None <->
  throws_on_conversion v = true.
Proof. rewrite fmap_None. apply parseNumeric_None. Qed.

(** The clock is within its own bounds, rounded as they are. *)
Lemma window_contains_now (t : Z) :
  num_le (earliest t) (seconds_of_ms t) = true /\
  num_le (seconds_of_ms t) (latest t) = true.
Proof.
  unfold earliest, latest, seconds_of_ms.
  destruct (RoundNumber (t # 1000)) as [| |n|] eqn:E.
  - pose proof (RoundNumber_not_NaN (t # 1000)) as H. rewrite E in H.
    discriminate H.
  - split; reflexivity.
  - pose proof (RoundNumber_fixed _ _ E) as Hn.
    cbn [num_sub num_add num_neg num_of_Z num_round].
    split; rewrite <- Hn at 2 || rewrite <- Hn at 1; apply RoundNumber_le.
    + rewrite <- (Qplus_0_r n) at 2. apply Qplus_le_r. discriminate.
    + rewrite <- (Qplus_0_r n) at 1. apply Qplus_le_r. discriminate.
  - split; reflexivity.
Qed.

Lemma earliest_not_NaN (t : Z) : isNaN (earliest t) = false.
Proof. apply (num_le_not_NaN _ _ (proj1 (window_contains_now t))). Qed.

Lemma latest_not_NaN (t : Z) : isNaN (latest t) = false.
Proof. apply (num_le_not_NaN _ _ (proj2 (window_contains_now t))). Qed.

Lemma parseTimestamp_None (v : JsVal) (t1 t2 : Z) :
  parseTimestamp v t1 t2 = None <-> throws_on_conversion v = true.
Proof.
  rewrite <- (parseNumeric_None v "timestamp" (seconds_of_ms t1)).
  unfold parseTimestamp.
  destruct (parseNumeric v "timestamp" (seconds_of_ms t1)); simpl;
    split; intros H; (discriminate H || reflexivity).
Qed.

Lemma parseTimestamp_stamped (v : JsVal) (t1 t2 : Z) (r : number) :
  parseTimestamp v t1 t2 = Some r -> stamped t1 t2 v r.
Proof.
  unfold parseTimestamp. intros H.
  destruct (parseNumeric v "timestamp" (seconds_of_ms t1)) as [parsed|] eqn:E;
    [|discriminate H].
  cbn [mbind option_bind] in H. apply (inj Some) in H.
  fold (earliest t2) in H. fold (latest t2) in H.
  pose proof (parseNumeric_not_NaN v _ _ _ (seconds_of_ms_not_NaN t1) E)
    as Hnan.
  pose proof (earliest_not_NaN t2) as Hlo.
  pose proof (latest_not_NaN t2) as Hhi.
  exists parsed. split; [eapply parseNumeric_coerced, E|].
  rewrite (num_le_negb_lt (earliest t2) parsed) by assumption.
  rewrite (num_le_negb_lt parsed (latest t2)) by assumption.
  unfold num_gt in *.
  destruct (num_lt parsed (earliest t2)) eqn:Elo;
    [|destruct (num_lt (latest t2) parsed) eqn:Ehi];
    cbn [orb negb] in *; subst r.
  - split; [discriminate|]. split; [reflexivity|]. apply window_contains_now.
  - split; [discriminate|]. split; [reflexivity|]. apply window_contains_now.
  - split; [reflexivity|]. split; [intros [?|?]; discriminate|].
    rewrite (num_le_negb_lt (earliest t2) parsed) by assumption.
    rewrite (num_le_negb_lt parsed (latest t2)) by assumption.
    rewrite Elo, Ehi. split; reflexivity.
Qed.

Lemma parseTimestamp_not_NaN (v : JsVal) (t1 t2 : Z) (r : number) :
  parseTimestamp v t1 t2 = Some r -> isNaN r = false.
Proof.
  intros H. destruct (parseTimestamp_stamped v t1 t2 r H)
    as (x & _ & _ & _ & Hlo & _).
  apply (num_le_not_NaN _ _ Hlo).
Qed.

Lemma lastCommandId_None (v : JsVal) :
  ToString (js_or v (JStr "")) = None <-> throws_on_conversion v = true.
Proof.
  rewrite <- ToString_None. unfold js_or.
  destruct (truthy v) eqn:E; [reflexivity|].
  destruct v; try discriminate E; cbn [ToString]; split; try discriminate.
  all: destruct b; discriminate.
Qed.

(** What a record accepted is made of, field by field. *)
Lemma validateTelemetryData_Some (clk : nat -> Z) (data : JsVal)
    (st : TelemetryData) :
  validateTelemetryData clk data = Some st <->
  is_record data = true /\
  let f := get_prop data in
  Math_max zero <$> parseNumeric (f "current") "current" zero =
    Some (current st) /\
  Math_max zero <$> parseNumeric (f "power") "power" zero =
    Some (power st) /\
  parseNumeric (f "voltage") "voltage" (num_of_Z 230) = Some (voltage st) /\
  Math_max zero <$> parseNumeric (f "energy") "energy" zero =
    Some (energy st) /\
  relayState st = parseBoolean (f "relayState") "relayState" false /\
  deviceConnected st =
    parseBoolean (f "deviceConnected") "deviceConnected" false /\
  parseTimestamp (f "timestamp") (clk 0%nat) (clk 1%nat) =
    Some (timestamp st) /\
  parseTimestamp (f "heartbeat") (clk 2%nat) (clk 3%nat) =
    Some (heartbeat st) /\
  Math_max zero <$>
    parseNumeric (f "detectedWattage") "detectedWattage" zero =
    Some (detectedWattage st) /\
  Math_max zero <$>
    parseNumeric (f "expectedCurrent") "expectedCurrent" zero =
    Some (expectedCurrent st) /\
  Math_max zero <$>
    parseNumeric (f "currentThreshold") "currentThreshold" (num_of_Z 10) =
    Some (currentThreshold st) /\
  scheduleActive st =
    parseBoolean (f "scheduleActive") "scheduleActive" false /\
  scheduleStarted st =
    parseBoolean (f "scheduleStarted") "scheduleStarted" false /\
  overcurrentTripped st =
    parseBoolean (f "overcurrentTripped") "overcurrentTripped" false /\
  ToString (js_or (f "lastCommandId") (JStr "")) = Some (lastCommandId st) /\
  parseNumeric (f "lastCommandTime") "lastCommandTime" zero =
    Some (lastCommandTime st).
Proof.
  unfold validateTelemetryData.
  assert (Hrec : negb (truthy data) || negb (is_object_type (typeof data)) =
                 negb (is_record data)) by (destruct data; simpl; rewrite ?orb_true_r; reflexivity).
  rewrite Hrec. clear Hrec.
  destruct (is_record data); cbn [negb];
    [|split; [discriminate|intros [H _]; discriminate H]].
  cbv zeta.
  repeat match goal with
  | |- context [mbind _ ?m] =>
      let o := fresh "o" in
      remember m as o eqn:E; clear E; destruct o as [?x|];
      cbn [mbind option_bind];
      [|split; [discriminate|intros H; decompose [and] H; discriminate]]
  end.
  destruct st. cbn. split.
  - intros H. apply (inj Some) in H. injection H as <- <- <- <- <- <- <- <-
      <- <- <- <- <- <- <- <-. repeat split.
  - intros H. decompose [and] H. repeat
      match goal with E : Some _ = Some _ |- _ => apply (inj Some) in E end.
    subst. reflexivity.
Qed.

Lemma validateTelemetryData_None (clk : nat -> Z) (data : JsVal) :
  validateTelemetryData clk data = None <->
  is_record data = false \/
  exists k, k ∈ converted_fields /\
            throws_on_conversion (get_prop data k) = true.
Proof.
  split.
  - intros H. destruct (is_record data) eqn:Erec; [right|left; reflexivity].
    unfold validateTelemetryData in H.
    assert (Hrec : negb (truthy data) || negb (is_object_type (typeof data)) =
                   negb (is_record data)) by (destruct data; simpl; rewrite ?orb_true_r; reflexivity).
    rewrite Hrec, Erec in H. cbn [negb] in H. cbv zeta in H.
    repeat match type of H with
    | context [mbind _ ?m] =>
        let E := fresh "E" in
        destruct m eqn:E; cbn [mbind option_bind] in H;
        [|first [apply parseNumeric_clamped_None in E
                |apply parseNumeric_None in E
                |apply parseTimestamp_None in E
                |apply lastCommandId_None in E];
          eexists; split; [|exact E]; unfold converted_fields;
          repeat (first [left|right])]
    end.
    discriminate H.
  - intros [H|(k & Hk & Hthrow)].
    + unfold validateTelemetryData.
      destruct data; try discriminate H;
        cbn [truthy typeof is_object_type negb]; rewrite ?orb_true_r;
        reflexivity.
    + destruct (validateTelemetryData clk data) as [st|] eqn:E;
        [|reflexivity].
      exfalso. apply validateTelemetryData_Some in E.
      cbv zeta in E. decompose [and] E. clear E.
      repeat match goal with
      | H : ?m = Some _ |- _ =>
          first [apply (Some_not_None _ _ _ (parseNumeric_clamped_None _ _ _))
                   in H
                |apply (Some_not_None _ _ _ (parseNumeric_None _ _ _)) in H
                |apply (Some_not_None _ _ _ (parseTimestamp_None _ _ _)) in H
                |apply (Some_not_None _ _ _ (lastCommandId_None _)) in H]
      end.
      unfold converted_fields in Hk.
      repeat (apply elem_of_cons in Hk as [->|Hk]); try congruence.
      inversion Hk.
Qed.
End SanitizerProperties.

(** C4, as the code has it. The telemetry sanitizer rejects the inputs that
    are not structured records, and the records of which a field that it
    converts cannot be converted: the field is an object with an own
    property [toString], or an array that holds one, the conversion throws
    and the sanitizer returns none. On every other record it returns a state
    whose numeric fields are the raw fields coerced to numbers, with the
    default of the field (0, 230 for the voltage, 10 for the current
    threshold, the clock for the two times) in place of a null, undefined or
    uncoercible value, clamped to [max(0, value)] where the field is to be
    non-negative, the two times replaced by the clock when they are more
    than 3600 seconds away from it, and none of them NaN. *)
Theorem validateTelemetryData_sanitizes `{rt : JsRuntime}
    (clk : nat -> Z) (data : JsVal) :
  (validateTelemetryData clk data = None <->
   is_record data = false \/
   exists k, k ∈ converted_fields /\
             throws_on_conversion (get_prop data k) = true) /\
  (forall st, validateTelemetryData clk data = Some st ->
              sanitized clk data st).
Proof.
  split; [apply validateTelemetryData_None|].
  intros st Hst. apply validateTelemetryData_Some in Hst.
  cbv zeta in Hst.
  destruct Hst as (_ & Hc & Hp & Hv & He & _ & _ & Ht & Hh & Hw & Hx & Hth &
                   _ & _ & _ & _ & Hl).
  unfold sanitized.
  repeat match goal with
  | |- _ /\ _ => split
  | |- clamped _ _ _ => eapply parseNumeric_clamped; [reflexivity|eassumption]
  | |- coerced _ _ _ => eapply parseNumeric_coerced; eassumption
  | |- stamped _ _ _ _ => eapply parseTimestamp_stamped; eassumption
  end.
  unfold forallb.
  rewrite (parseNumeric_clamped_not_NaN _ _ zero _ eq_refl Hc),
    (parseNumeric_clamped_not_NaN _ _ zero _ eq_refl Hp),
    (parseNumeric_not_NaN _ _ (num_of_Z 230) _ eq_refl Hv),
    (parseNumeric_clamped_not_NaN _ _ zero _ eq_refl He),
    (parseTimestamp_not_NaN _ _ _ _ Ht), (parseTimestamp_not_NaN _ _ _ _ Hh),
    (parseNumeric_clamped_not_NaN _ _ zero _ eq_refl Hw),
    (parseNumeric_clamped_not_NaN _ _ zero _ eq_refl Hx),
    (parseNumeric_clamped_not_NaN _ _ (num_of_Z 10) _ eq_refl Hth),
    (parseNumeric_not_NaN _ _ zero _ eq_refl Hl).
  reflexivity.
Qed.

Lemma validateTelemetryData_sanitizes_witness :
  let clk := fun _ : nat => 1700000000000 in
  let data :=
    JObj [("current", JStr "12"); ("voltage", JStr "abc");
          ("power", JNum (Fin (-3))); ("relayState", JStr "true");
          ("timestamp", JNum (Fin 5)); ("energy", JNull)] in
  exists st,
    @validateTelemetryData sample_runtime clk data = Some st /\
    @sanitized sample_runtime clk data st.
Proof.
  intros clk data. eexists. split.
  - reflexivity.
  - apply (proj2 (@validateTelemetryData_sanitizes sample_runtime clk data)).
    reflexivity.
Defined.

(** C4, as the specification words it, fails: the record whose field
    [current] is an object with an own property [toString] is a structured
    record, and the sanitizer returns none on it. *)
Lemma validateTelemetryData_rejects_a_record :
  is_record record_with_unconvertible_field = true /\
  validateTelemetryData (rt := sample_runtime) (fun _ => 1700000000000)
    record_with_unconvertible_field = None.
Proof. split; reflexivity. Qed.

Lemma lower_char_letters (c : ascii) :
  Ascii.eqb (lower_char c) "t" = (Ascii.eqb c "t" || Ascii.eqb c "T") /\
  Ascii.eqb (lower_char c) "r" = (Ascii.eqb c "r" || Ascii.eqb c "R") /\
  Ascii.eqb (lower_char c) "u" = (Ascii.eqb c "u" || Ascii.eqb c "U") /\
  Ascii.eqb (lower_char c) "e" = (Ascii.eqb c "e" || Ascii.eqb c "E").
Proof.
  destruct c as [[] [] [] [] [] [] [] []]; vm_compute; repeat split.
Qed.

Lemma toLowerCase_true (s : string) :
  String.eqb (toLowerCase s) "true" = is_true_any_case s.
Proof.
  unfold is_true_any_case.
  destruct s as [|c1 [|c2 [|c3 [|c4 [|c5 s]]]]]; cbn -[lower_char Ascii.eqb];
    try reflexivity.
  - destruct (Ascii.eqb (lower_char c1) "t"); reflexivity.
  - destruct (Ascii.eqb (lower_char c1) "t"); [|reflexivity].
    destruct (Ascii.eqb (lower_char c2) "r"); reflexivity.
  - destruct (Ascii.eqb (lower_char c1) "t"); [|reflexivity].
    destruct (Ascii.eqb (lower_char c2) "r"); [|reflexivity].
    destruct (Ascii.eqb (lower_char c3) "u"); reflexivity.
  - destruct (lower_char_letters c1) as (-> & _).
    destruct (lower_char_letters c2) as (_ & -> & _).
    destruct (lower_char_letters c3) as (_ & _ & -> & _).
    destruct (lower_char_letters c4) as (_ & _ & _ & ->).
    repeat match goal with
    | |- context [if ?b then _ else false] => destruct b
    end; reflexivity.
  - destruct (Ascii.eqb (lower_char c1) "t"); [|reflexivity].
    destruct (Ascii.eqb (lower_char c2) "r"); [|reflexivity].
    destruct (Ascii.eqb (lower_char c3) "u"); [|reflexivity].
    destruct (Ascii.eqb (lower_char c4) "e"); reflexivity.
Qed.

(** C5, as the code has it. A boolean field takes a native boolean as it is;
    a string gives true exactly when it is ["true"] in any case of the letters
    (["true"], ["TRUE"], ["True"], ...) and false otherwise; a number gives
    [value !== 0]; every other value (null, undefined, an object, an array)
    gives false. Every boolean field of a sanitized state is decided so; the
    sanitizer gives no state when the input is not a structured record or a
    field that it converts cannot be converted. *)
Theorem parseBoolean_cases `{rt : JsRuntime} :
  (forall (v : JsVal) (name : string),
     parseBoolean v name false = boolean_of v) /\
  (forall (clk : nat -> Z) (data : JsVal),
     match validateTelemetryData clk data with
     | Some st =>
         relayState st = boolean_of (get_prop data "relayState") /\
         deviceConnected st = boolean_of (get_prop data "deviceConnected") /\
         scheduleActive st = boolean_of (get_prop data "scheduleActive") /\
         scheduleStarted st = boolean_of (get_prop data "scheduleStarted") /\
         overcurrentTripped st =
           boolean_of (get_prop data "overcurrentTripped")
     | None =>
         is_record data = false \/
         exists k, k ∈ converted_fields /\
                   throws_on_conversion (get_prop data k) = true
     end).
Proof.
  assert (Hpb : forall v name, parseBoolean v name false = boolean_of v).
  { intros v name. destruct v; try reflexivity. apply toLowerCase_true. }
  split; [exact Hpb|].
  intros clk data.
  destruct (validateTelemetryData clk data) as [st|] eqn:E.
  - apply validateTelemetryData_Some in E. cbv zeta in E.
    destruct E as (_ & _ & _ & _ & _ & Hr & Hd & _ & _ & _ & _ & _ & Ha & Hs &
                   Ho & _).
    rewrite Hr, Hd, Ha, Hs, Ho, !Hpb. repeat split.
  - apply validateTelemetryData_None in E. exact E.
Qed.

(** C5, as the specification words it, fails: the string ["TRUE"] is not the
    lowercase string ["true"], and the sanitizer maps it to true. *)
Lemma parseBoolean_not_as_specified :
  parseBoolean (JStr "TRUE") "relayState" false = true /\
  boolean_as_specified (JStr "TRUE") = false.
Proof. split; reflexivity. Qed.

(** ** Alert aggregator *)

Lemma num_ge_trans (a b c : number) :
  num_ge a b = true -> num_ge b c = true -> num_ge a c = true.
Proof.
  unfold num_ge.
  destruct a, b, c; simpl; intros H1 H2; try discriminate; try reflexivity.
  rewrite negb_true_iff, Qlt_bool_false_iff in *.
  eapply Qle_trans; eassumption.
Qed.

Lemma num_lt_ge (a b : number) :
  isNaN a = false -> isNaN b = false ->
  num_lt a b = true -> num_ge b a = true.
Proof.
  unfold num_ge.
  destruct a, b; simpl; intros _ _ H; try discriminate; try reflexivity.
  rewrite negb_true_iff, Qlt_bool_false_iff.
  apply Qlt_le_weak, Qlt_bool_iff, H.
Qed.

Lemma num_not_lt_ge (a b : number) :
  isNaN a = false -> isNaN b = false ->
  num_lt a b = false -> num_ge a b = true.
Proof.
  unfold num_ge.
  destruct a, b; intros Ha Hb H; try discriminate; try reflexivity.
  unfold num_le. rewrite H. reflexivity.
Qed.

(** The sign of [b - a] tells whether [a < b], for numbers that are not NaN. *)
Lemma num_sub_positive (a b : number) :
  isNaN a = false -> isNaN b = false ->
  num_gt (num_sub b a) zero = num_lt a b.
Proof.
  destruct a, b; simpl; intros _ _; try discriminate; try reflexivity.
  destruct (Qlt_bool q q0) eqn:E.
  - rewrite Qlt_bool_iff in *. rewrite <- Qlt_minus_iff. exact E.
  - rewrite Qlt_bool_false_iff in *.
    unfold Qle, Qplus, Qopp, inject_Z in *. cbn in *. lia.
Qed.

Section SortProperties.
Context {A : Type} (comparefn : A -> A -> number).

Lemma sort_insert_elem_of (x z : A) (l : list A) :
  z ∈ sort_insert comparefn x l <-> z = x \/ z ∈ l.
Proof.
  induction l as [|y rest IH]; cbn [sort_insert].
  - rewrite list_elem_of_singleton, elem_of_nil. tauto.
  - destruct (num_gt (comparefn x y) zero).
    + rewrite !elem_of_cons, IH. tauto.
    + rewrite !elem_of_cons. tauto.
Qed.

Lemma Array_sort_elem_of (z : A) (l : list A) :
  z ∈ Array_sort comparefn l <-> z ∈ l.
Proof.
  induction l as [|x rest IH]; cbn [Array_sort]; [reflexivity|].
  rewrite sort_insert_elem_of, elem_of_cons, IH. reflexivity.
Qed.

Lemma sort_insert_length (x : A) (l : list A) :
  length (sort_insert comparefn x l) = S (length l).
Proof.
  induction l as [|y rest IH]; cbn [sort_insert]; [reflexivity|].
  destruct (num_gt (comparefn x y) zero); cbn [length]; congruence.
Qed.

Lemma Array_sort_length (l : list A) :
  length (Array_sort comparefn l) = length l.
Proof.
  induction l as [|x rest IH]; cbn [Array_sort]; [reflexivity|].
  rewrite sort_insert_length. cbn [length]. congruence.
Qed.
Lemma sort_insert_Permutation (x : A) (l : list A) :
  sort_insert comparefn x l ≡ₚ x :: l.
Proof.
  induction l as [|y rest IH]; cbn [sort_insert]; [reflexivity|].
  destruct (num_gt (comparefn x y) zero); [|reflexivity].
  rewrite IH. apply Permutation_swap.
Qed.

Lemma Array_sort_Permutation (l : list A) : Array_sort comparefn l ≡ₚ l.
Proof.
  induction l as [|x rest IH]; cbn [Array_sort]; [reflexivity|].
  rewrite sort_insert_Permutation, IH. reflexivity.
Qed.
End SortProperties.

Lemma sort_insert_sorted (x : AlertData) (l : list AlertData) :
  timestamp_is_number x -> Forall timestamp_is_number l ->
  sorted_descending l ->
  sorted_descending (sort_insert alert_compare x l).
Proof.
  intros Hx Hl Hs. induction Hs as [|y rest Hrest IH Hy]; cbn [sort_insert].
  - repeat constructor.
  - apply Forall_cons in Hl as [Hny Hnrest].
    unfold alert_compare at 1. rewrite num_sub_positive by assumption.
    destruct (num_lt (alert_timestamp x) (alert_timestamp y)) eqn:E.
    + constructor; [apply IH, Hnrest|].
      apply Forall_forall. intros z Hz.
      apply sort_insert_elem_of in Hz as [->|Hz].
      * apply num_lt_ge; assumption.
      * rewrite Forall_forall in Hy. apply Hy, Hz.
    + assert (Hxy : newer_or_equal x y) by (apply num_not_lt_ge; assumption).
      constructor; [constructor; assumption|].
      constructor; [exact Hxy|].
      eapply Forall_impl; [exact Hy|].
      intros z Hyz. unfold newer_or_equal in *.
      eapply num_ge_trans; eassumption.
Qed.

Lemma Array_sort_sorted (l : list AlertData) :
  Forall timestamp_is_number l ->
  sorted_descending (Array_sort alert_compare l).
Proof.
  induction l as [|x rest IH]; intros Hl; cbn [Array_sort]; [constructor|].
  apply Forall_cons in Hl as [Hx Hrest].
  apply sort_insert_sorted; [exact Hx| |apply IH, Hrest].
  apply Forall_forall. intros z Hz.
  apply Array_sort_elem_of in Hz.
  rewrite Forall_forall in Hrest. apply Hrest, Hz.
Qed.

Lemma take_sorted (n : nat) (l : list AlertData) :
  sorted_descending l -> sorted_descending (take n l).
Proof.
  intros Hs. revert n. induction Hs as [|x rest Hrest IH Hx]; intros [|n];
    simpl; try constructor.
  - apply IH.
  - apply Forall_forall. intros z Hz.
    rewrite Forall_forall in Hx. apply Hx.
    eapply subseteq_take, Hz.
Qed.

Section AlertProperties.
Context `{rt : JsRuntime}.

Lemma alert_map_None (alert : JsVal) :
  alert_map alert = None <-> alert_throws alert = true.
Proof.
  unfold alert_map, alert_throws.
  pose proof (ToString_None (get_prop alert "type")) as Ht.
  pose proof (ToString_None (get_prop alert "message")) as Hm.
  assert (Hs : match get_prop alert "timestamp" with
               | JStr s => Some (parseInt s)
               | v => ToNumber v
               end = None <->
               throws_on_conversion (get_prop alert "timestamp") = true).
  { pose proof (ToNumber_None (get_prop alert "timestamp")) as Hn.
    destruct (get_prop alert "timestamp"); try exact Hn. split; discriminate. }
  destruct (ToString (get_prop alert "type")) as [ty|];
    [|rewrite (proj1 Ht eq_refl); split; reflexivity].
  destruct (throws_on_conversion (get_prop alert "type"));
    [discriminate (proj2 Ht eq_refl)|].
  destruct (ToString (get_prop alert "message")) as [msg|];
    [|rewrite (proj1 Hm eq_refl); split; reflexivity].
  destruct (throws_on_conversion (get_prop alert "message"));
    [discriminate (proj2 Hm eq_refl)|].
  cbn [mbind option_bind orb].
  destruct (match get_prop alert "timestamp" with
            | JStr s => Some (parseInt s)
            | v => ToNumber v
            end) as [ts|];
    [|rewrite (proj1 Hs eq_refl); split; reflexivity].
  destruct (throws_on_conversion (get_prop alert "timestamp"));
    [discriminate (proj2 Hs eq_refl)|].
  split; discriminate.
Qed.

Lemma mapM_alert_map_None (l : list JsVal) :
  mapM alert_map l = None <-> existsb alert_throws l = true.
Proof.
  induction l as [|alert l IH]; cbn [mapM existsb]; [split; discriminate|].
  pose proof (alert_map_None alert) as Ha.
  destruct (alert_map alert) as [a|]; cbn [mbind option_bind].
  - destruct (alert_throws alert); [discriminate (proj2 Ha eq_refl)|].
    cbn [orb]. rewrite <- IH.
    destruct (mapM alert_map l); simpl; split; intros H;
      (discriminate H || reflexivity).
  - rewrite (proj1 Ha eq_refl). split; reflexivity.
Qed.

(** When no conversion throws, the alerts kept are the entries that pass
    the filter, each converted. *)
Lemma alertArray_Some (data : JsVal) :
  existsb alert_throws (alerts_kept data) = false ->
  mapM alert_map (alerts_kept data) = Some (alertArray data) /\
  length (alertArray data) = length (alerts_kept data).
Proof.
  intros H. unfold alertArray. fold (alerts_kept data).
  destruct (mapM alert_map (alerts_kept data)) as [l|] eqn:E.
  - split; [reflexivity|]. symmetry. eapply length_mapM, E.
  - apply mapM_alert_map_None in E. congruence.
Qed.

Lemma alertArray_None (data : JsVal) :
  existsb alert_throws (alerts_kept data) = true -> alertArray data = [].
Proof.
  intros H. apply mapM_alert_map_None in H.
  unfold alertArray. fold (alerts_kept data). rewrite H. reflexivity.
Qed.

(** The result is the first ten of the alerts kept, sorted. *)
Lemma validateAlertData_alertArray (data : JsVal) :
  validateAlertData data =
  take 10 (Array_sort alert_compare (alertArray data)).
Proof.
  unfold validateAlertData, alertArray.
  destruct data; cbn [truthy typeof is_object_type negb orb Object_values];
    rewrite ?orb_true_r; try reflexivity;
    destruct (mapM alert_map _); reflexivity.
Qed.

Lemma validateAlertData_not_record (data : JsVal) :
  is_record data = false -> validateAlertData data = [].
Proof.
  unfold validateAlertData.
  destruct data; cbn [truthy typeof is_object_type is_record negb];
    rewrite ?orb_true_r; cbn [orb]; intros H; try reflexivity; discriminate.
Qed.

Lemma validateAlertData_length (data : JsVal) :
  (length (validateAlertData data) <= 10)%nat.
Proof. rewrite validateAlertData_alertArray, length_take. lia. Qed.

Lemma alert_filter_has_props (alert : JsVal) :
  alert_filter alert = true ->
  has_prop alert "type" /\ has_prop alert "message" /\
  has_prop alert "timestamp".
Proof.
  unfold alert_filter, has_prop. rewrite !andb_true_iff.
  intros ((((_ & _) & Ht) & Hm) & Hs).
  repeat split; intros E; rewrite E in *; discriminate.
Qed.

(** Every alert of the result is made from an entry of the batch that has
    the three properties. *)
Lemma validateAlertData_from_entries (data : JsVal) (a : AlertData) :
  a ∈ validateAlertData data ->
  exists alert, alert ∈ Object_values data /\ alert_map alert = Some a /\
    has_prop alert "type" /\ has_prop alert "message" /\
    has_prop alert "timestamp".
Proof.
  rewrite validateAlertData_alertArray.
  intros Ha. apply subseteq_take in Ha.
  apply Array_sort_elem_of in Ha. unfold alertArray in Ha.
  destruct (mapM alert_map (filter alert_filter (Object_values data)))
    as [l|] eqn:E; [|inversion Ha].
  cbn [default] in Ha. rewrite mapM_Some in E.
  apply list_elem_of_lookup in Ha as [i Hi].
  destruct (Forall2_lookup_r _ _ _ _ _ E Hi) as (alert & Halert & Hmap).
  apply list_elem_of_lookup_2, list_elem_of_filter in Halert as [Hf Hin].
  exists alert. split; [exact Hin|]. split; [exact Hmap|].
  apply alert_filter_has_props. apply Is_true_true, Hf.
Qed.

(** The result is sorted, most recent first, when no timestamp kept is NaN. *)
Lemma validateAlertData_sorted (data : JsVal) :
  Forall timestamp_is_number (alertArray data) ->
  sorted_descending (validateAlertData data).
Proof.
  intros Hn. rewrite validateAlertData_alertArray.
  apply take_sorted, Array_sort_sorted, Hn.
Qed.
End AlertProperties.

(** A list with an alert whose timestamp is NaN and another alert is not
    sorted, wherever the NaN stands: NaN is [>=] nothing and nothing is [>=]
    NaN. *)
Lemma sorted_descending_NaN (l : list AlertData) (a : AlertData) :
  sorted_descending l -> a ∈ l -> isNaN (alert_timestamp a) = true ->
  l = [a].
Proof.
  intros Hs. induction Hs as [|x rest Hrest IH Hx]; intros Hin Hnan.
  - inversion Hin.
  - apply elem_of_cons in Hin as [->|Hin].
    + destruct rest as [|y rest]; [reflexivity|].
      apply Forall_cons in Hx as [Hxy _].
      unfold newer_or_equal, num_ge in Hxy.
      destruct (alert_timestamp x); try discriminate.
      destruct (alert_timestamp y); discriminate.
    + rewrite Forall_forall in Hx. specialize (Hx a Hin).
      unfold newer_or_equal, num_ge in Hx.
      destruct (alert_timestamp a); discriminate.
Qed.

(** C6 fails on the code. On a batch where one timestamp is the string
    ["abc"], [parseInt] gives NaN, every comparison with it is NaN, and the
    result is not sorted: the alert of time 1 comes before the alert of time
    2, and the NaN stands between them. No order of the three alerts kept
    would be sorted, so this does not depend on what the sort does with a
    comparison that is NaN. This holds for every runtime. *)
Theorem validateAlertData_unsorted_on_NaN `{rt : JsRuntime} :
  map alert_timestamp (validateAlertData alert_batch_with_bad_timestamp) =
    [Fin 1; NaN; Fin 2] /\
  ~ sorted_descending (validateAlertData alert_batch_with_bad_timestamp) /\
  (forall l, l ≡ₚ alertArray alert_batch_with_bad_timestamp ->
             ~ sorted_descending l).
Proof.
  split; [reflexivity|].
  assert (Hperm : forall l, l ≡ₚ alertArray alert_batch_with_bad_timestamp ->
                            ~ sorted_descending l).
  { intros l Hperm Hs.
    assert (Hin : {| alert_type := "overcurrent"; alert_message := "second";
                     alert_timestamp := NaN |} ∈ l).
    { rewrite Hperm. right. left. }
    apply Permutation_length in Hperm.
    rewrite (sorted_descending_NaN l _ Hs Hin eq_refl) in Hperm.
    discriminate Hperm. }
  split; [|exact Hperm].
  apply Hperm.
  rewrite validateAlertData_alertArray.
  rewrite take_ge
    by (rewrite Array_sort_length; apply Nat.leb_le; vm_compute; reflexivity).
  apply Array_sort_Permutation.
Qed.

(** ** Schedule planner *)

Lemma in_range_code (lo hi c : ascii) :
  in_range lo hi c = true <-> (code lo <= code c <= code hi)%N.
Proof. unfold in_range. rewrite andb_true_iff, !N.leb_le. reflexivity. Qed.

Lemma digit_value_in_range (hi c : ascii) :
  (code hi <= 57)%N -> in_range "0" hi c = true ->
  in_range "0" "9" c = true /\
  Ascii.eqb c ":" = false /\
  exists d, digit_value c = Some d /\ 0 <= d <= Z.of_N (code hi) - 48.
Proof.
  intros Hhi Hc. apply in_range_code in Hc.
  change (code "0") with 48%N in *.
  split; [apply in_range_code; change (code "9") with 57%N;
          change (code "0") with 48%N; lia|].
  split.
  - apply Ascii.eqb_neq. intros ->. change (code ":") with 58%N in Hc. lia.
  - exists (Z.of_N (code c) - 48). split; [|lia].
    unfold digit_value.
    replace ((48 <=? code c)%N && (code c <=? 57)%N) with true; [reflexivity|].
    symmetry. rewrite andb_true_iff, !N.leb_le. lia.
Qed.

Ltac use_digit H hi :=
  let Hd := fresh "Hd" in
  let Hc := fresh "Hc" in
  let d := fresh "d" in
  let Hv := fresh "Hv" in
  let Hb := fresh "Hb" in
  destruct (digit_value_in_range hi _ ltac:(vm_compute; discriminate) H)
    as (Hd & Hc & d & Hv & Hb);
  change (Z.of_N (code hi) - 48) with
    (ltac:(let v := eval vm_compute in (Z.of_N (code hi) - 48) in exact v))
    in Hb.

Lemma validated_time (s : string) :
  validateTimeFormat s = true ->
  exists h m, 0 <= h < 24 /\ 0 <= m < 60 /\
    forall zone now,
      parseTimeToTimestamp zone now s = Some (resolve_time zone now h m).
Proof.
  unfold validateTimeFormat, timeRegex_test, parseTimeToTimestamp.
  destruct (trim s) as [|c1 [|c2 [|c3 [|c4 [|c5 [|c6 r]]]]]];
    cbn [list_ascii_of_string]; try discriminate.
  - rewrite !andb_true_iff. intros (((H1 & H2) & H3) & H4).
    apply Ascii.eqb_eq in H2. subst c2.
    use_digit H1 "9"%char. use_digit H3 "5"%char. use_digit H4 "9"%char.
    exists d, (d0 * 10 + d1). split; [lia|]. split; [lia|].
    intros tz now. cbn [split_colon]. rewrite Hc, Hc0, Hc1.
    change (Ascii.eqb ":" ":") with true. cbv iota.
    cbn [String.rev String.rev_app].
    unfold digits_to_Z, all_digits. cbn [list_ascii_of_string forallb].
    rewrite Hd, Hd0, Hd1. cbn [andb read_digits].
    rewrite Hv, Hv0, Hv1. unfold resolve_time.
    destruct (_ <=? _); reflexivity.
  - rewrite !andb_true_iff, orb_true_iff, !andb_true_iff.
    intros (((Hh & H3) & H4) & H5).
    apply Ascii.eqb_eq in H3. subst c3.
    use_digit H4 "5"%char. use_digit H5 "9"%char.
    destruct Hh as [[H1 H2]|[H1 H2]].
    + use_digit H1 "1"%char. use_digit H2 "9"%char.
      exists (d1 * 10 + d2), (d * 10 + d0). split; [lia|]. split; [lia|].
      intros tz now. cbn [split_colon]. rewrite Hc, Hc0, Hc1, Hc2.
      change (Ascii.eqb ":" ":") with true. cbv iota.
      cbn [String.rev String.rev_app].
      unfold digits_to_Z, all_digits. cbn [list_ascii_of_string forallb].
      rewrite Hd, Hd0, Hd1, Hd2. cbn [andb read_digits].
      rewrite Hv, Hv0, Hv1, Hv2. unfold resolve_time.
      destruct (_ <=? _); reflexivity.
    + apply Ascii.eqb_eq in H1. subst c1. use_digit H2 "3"%char.
      exists (2 * 10 + d1), (d * 10 + d0). split; [lia|]. split; [lia|].
      intros tz now. cbn [split_colon]. rewrite Hc, Hc0, Hc1.
      change (Ascii.eqb ":" ":") with true.
      change (Ascii.eqb "2" ":") with false. cbv iota.
      cbn [String.rev String.rev_app].
      unfold digits_to_Z, all_digits. cbn [list_ascii_of_string forallb].
      rewrite Hd, Hd0, Hd1.
      change (in_range "0" "9" "2") with true. cbn [andb read_digits].
      rewrite Hv, Hv0, Hv1.
      change (digit_value "2") with (Some 2). unfold resolve_time.
      destruct (_ <=? _); reflexivity.
Qed.

(** Where the offset is constant, the time resolved is the next occurrence
    of the time of day. *)
Lemma resolve_time_next (tz now h m : Z) :
  0 <= h < 24 -> 0 <= m < 60 ->
  is_next_occurrence tz now h m (resolve_time (fixed_zone tz) now h m).
Proof.
  intros Hh Hm.
  unfold is_next_occurrence, resolve_time, setHours, setDate_next.
  cbn [LocalTime UTC fixed_zone].
  change msPerDay with 86400000.
  destruct (Z.leb_spec
    ((now + tz) / 86400000 * 86400000 + h * 3600000 + m * 60000 - tz) now);
    split; Z.to_euclidean_division_equations; lia.
Qed.

Lemma next_occurrence_unique (tz now h m t t' : Z) :
  is_next_occurrence tz now h m t -> is_next_occurrence tz now h m t' ->
  t = t'.
Proof.
  unfold is_next_occurrence. change msPerDay with 86400000.
  intros [Ht Hmod] [Ht' Hmod']. rewrite <- Hmod' in Hmod. clear Hmod'.
  Z.to_euclidean_division_equations. lia.
Qed.

Lemma too_long_test (d : Z) :
  Qlt_bool (inject_Z 24) (inject_Z d / inject_Z (1000 * 60 * 60)) =
  (msPerDay <? d).
Proof.
  change msPerDay with 86400000. change (1000 * 60 * 60) with 3600000.
  destruct (Z.ltb_spec 86400000 d) as [H|H].
  - apply Qlt_bool_iff.
    unfold Qlt, Qdiv, Qmult, Qinv, inject_Z. cbn. lia.
  - apply Qlt_bool_false_iff.
    unfold Qle, Qdiv, Qmult, Qinv, inject_Z. cbn. lia.
Qed.

Lemma validated_not_empty (s : string) :
  validateTimeFormat s = true -> String.eqb (trim s) "" = false.
Proof.
  unfold validateTimeFormat. destruct (trim s); [discriminate|reflexivity].
Qed.

(** On two strings of the accepted format the planner resolves each, rolls
    the end over when it is not after the start, and writes the two times in
    seconds unless they are more than a day apart; this in every zone. *)
Lemma handleScheduleSet_resolved (zone : TimeZone) (s e : string)
    (nowS nowE : Z) :
  validateTimeFormat s = true -> validateTimeFormat e = true ->
  exists hs ms he me,
    (0 <= hs < 24 /\ 0 <= ms < 60) /\ (0 <= he < 24 /\ 0 <= me < 60) /\
    parseTimeToTimestamp zone nowS s = Some (resolve_time zone nowS hs ms) /\
    parseTimeToTimestamp zone nowE e = Some (resolve_time zone nowE he me) /\
    handleScheduleSet zone s e nowS nowE =
      let startTime := resolve_time zone nowS hs ms in
      let endTime0 := resolve_time zone nowE he me in
      if msPerDay <? rolled_end startTime endTime0 - startTime
      then Rejected ScheduleTooLong
      else ScheduleWrite true (startTime / 1000)
             (rolled_end startTime endTime0 / 1000).
Proof.
  intros Hs He.
  destruct (validated_time s Hs) as (hs & ms & Hhs & Hms & Ps).
  destruct (validated_time e He) as (he & me & Hhe & Hme & Pe).
  exists hs, ms, he, me.
  split; [split; assumption|]. split; [split; assumption|].
  split; [apply Ps|]. split; [apply Pe|].
  unfold handleScheduleSet.
  rewrite (validated_not_empty s Hs), (validated_not_empty e He), Hs, He.
  cbn [orb negb]. rewrite Ps, Pe, too_long_test. reflexivity.
Qed.

(** Where the offset is constant, each time resolved is the next occurrence
    of its time of day. *)
Lemma handleScheduleSet_validated (tz : Z) (s e : string) (nowS nowE : Z) :
  validateTimeFormat s = true -> validateTimeFormat e = true ->
  exists startTime endTime0,
    parseTimeToTimestamp (fixed_zone tz) nowS s = Some startTime /\
    parseTimeToTimestamp (fixed_zone tz) nowE e = Some endTime0 /\
    (exists h m, is_next_occurrence tz nowS h m startTime) /\
    (exists h m, is_next_occurrence tz nowE h m endTime0) /\
    handleScheduleSet (fixed_zone tz) s e nowS nowE =
      if msPerDay <? rolled_end startTime endTime0 - startTime
      then Rejected ScheduleTooLong
      else ScheduleWrite true (startTime / 1000)
             (rolled_end startTime endTime0 / 1000).
Proof.
  intros Hs He.
  destruct (handleScheduleSet_resolved (fixed_zone tz) s e nowS nowE Hs He)
    as (hs & ms & he & me & [Hhs Hms] & [Hhe Hme] & Ps & Pe & Hrun).
  exists (resolve_time (fixed_zone tz) nowS hs ms),
         (resolve_time (fixed_zone tz) nowE he me).
  split; [apply Ps|]. split; [apply Pe|].
  split; [exists hs, ms; apply resolve_time_next; assumption|].
  split; [exists he, me; apply resolve_time_next; assumption|].
  exact Hrun.
Qed.

Lemma parseTimeToTimestamp_2350 (zone : TimeZone) (now : Z) :
  parseTimeToTimestamp zone now "23:50" = Some (resolve_time zone now 23 50).
Proof.
  unfold resolve_time.
  change (parseTimeToTimestamp zone now "23:50") with
    (if setHours zone now 23 50 <=? now
     then Some (setDate_next zone (setHours zone now 23 50))
     else Some (setHours zone now 23 50)).
  destruct (_ <=? _); reflexivity.
Qed.

Lemma parseTimeToTimestamp_0010 (zone : TimeZone) (now : Z) :
  parseTimeToTimestamp zone now "00:10" = Some (resolve_time zone now 0 10).
Proof.
  unfold resolve_time.
  change (parseTimeToTimestamp zone now "00:10") with
    (if setHours zone now 0 10 <=? now
     then Some (setDate_next zone (setHours zone now 0 10))
     else Some (setHours zone now 0 10)).
  destruct (_ <=? _); reflexivity.
Qed.

(** What the planner does with ["23:50"] and ["00:10"], in every zone. *)
Lemma handleScheduleSet_2350_0010 (zone : TimeZone) (nowS nowE : Z) :
  handleScheduleSet zone "23:50" "00:10" nowS nowE =
    let startMs := resolve_time zone nowS 23 50 in
    let endMs := rolled_end startMs (resolve_time zone nowE 0 10) in
    if msPerDay <? endMs - startMs then Rejected ScheduleTooLong
    else ScheduleWrite true (startMs / 1000) (endMs / 1000).
Proof.
  unfold handleScheduleSet.
  change (String.eqb (trim "23:50") "" || String.eqb (trim "00:10") "")
    with false.
  change (negb (validateTimeFormat "23:50") ||
          negb (validateTimeFormat "00:10")) with false.
  cbv iota.
  rewrite parseTimeToTimestamp_2350, parseTimeToTimestamp_0010.
  rewrite too_long_test. reflexivity.
Qed.

(** With the clock read twice, less than twenty minutes apart, where the
    offset is constant. *)
Lemma handleScheduleSet_over_midnight (tz nowS nowE : Z) :
  nowS <= nowE < nowS + 1200000 ->
  let startMs := resolve_time (fixed_zone tz) nowS 23 50 in
  let endMs := rolled_end startMs (resolve_time (fixed_zone tz) nowE 0 10) in
  endMs - startMs = 20 * 60 * 1000 /\
  handleScheduleSet (fixed_zone tz) "23:50" "00:10" nowS nowE =
    ScheduleWrite true (startMs / 1000) (endMs / 1000) /\
  startMs / 1000 < endMs / 1000 /\
  endMs / 1000 - startMs / 1000 = 20 * 60.
Proof.
  intros Hnow startMs endMs.
  assert (Hspan : endMs - startMs = 20 * 60 * 1000).
  { subst startMs endMs.
    unfold rolled_end, resolve_time, setHours, setDate_next.
    cbn [LocalTime UTC fixed_zone].
    change msPerDay with 86400000.
    repeat match goal with
    | |- context [?a <=? ?b] => destruct (Z.leb_spec a b)
    end; Z.to_euclidean_division_equations; lia. }
  split; [exact Hspan|].
  rewrite handleScheduleSet_2350_0010. cbv zeta.
  fold startMs. fold endMs.
  rewrite Hspan. change (msPerDay <? 20 * 60 * 1000) with false.
  split; [reflexivity|].
  Z.to_euclidean_division_equations. lia.
Qed.

(** C8 fails on the code. Where the offset of the zone is constant, the plan
    from ["23:50"] to ["00:10"] is written for every [now], each string
    resolves to the next occurrence of its time of day, the end is after the
    start and the span is exactly twenty minutes. Where the clocks change it
    is not so: in New York, at 23:55 of 31 October 2026 (2026-11-01T03:55Z),
    the night the clocks go back, ["23:50"] resolves to 23:50 of 1 November
    in standard time (2026-11-02T04:50Z), ["00:10"] to 00:10 of 1 November in
    daylight time (2026-11-01T04:10Z); the end is not after the start, the 24
    hours added to it leave it forty minutes before the start, and that
    record is written. *)
Theorem plan_over_midnight :
  (forall tz now : Z,
     let startMs := resolve_time (fixed_zone tz) now 23 50 in
     let end0 := resolve_time (fixed_zone tz) now 0 10 in
     let endMs := if end0 <=? startMs then end0 + msPerDay else end0 in
     is_next_occurrence tz now 23 50 startMs /\
     is_next_occurrence tz now 0 10 end0 /\
     endMs - startMs = 20 * 60 * 1000 /\
     plan (fixed_zone tz) "23:50" "00:10" now =
       ScheduleWrite true (startMs / 1000) (endMs / 1000) /\
     startMs / 1000 < endMs / 1000 /\
     endMs / 1000 - startMs / 1000 = 20 * 60) /\
  (let now := 1793505300000 in
   parseTimeToTimestamp new_york_autumn_2026 now "23:50" =
     Some 1793595000000 /\
   parseTimeToTimestamp new_york_autumn_2026 now "00:10" =
     Some 1793506200000 /\
   plan new_york_autumn_2026 "23:50" "00:10" now =
     ScheduleWrite true 1793595000 1793592600 /\
   1793592600 - 1793595000 = - (40 * 60)).
Proof.
  split.
  - intros tz now startMs end0 endMs.
    split; [apply resolve_time_next; lia|].
    split; [apply resolve_time_next; lia|].
    apply (handleScheduleSet_over_midnight tz now now). lia.
  - cbv zeta. repeat split; vm_compute; reflexivity.
Qed.

(** With one reading of the clock the span of an accepted plan is within a
    day, so the test on the span never rejects, where the offset is
    constant. *)
Lemma plan_span_within_a_day (tz : Z) (s e : string) (now : Z) :
  validateTimeFormat s = true -> validateTimeFormat e = true ->
  exists startMs endMs,
    0 < endMs - startMs <= msPerDay /\
    plan (fixed_zone tz) s e now =
      ScheduleWrite true (startMs / 1000) (endMs / 1000).
Proof.
  intros Hs He. unfold plan.
  destruct (handleScheduleSet_validated tz s e now now Hs He)
    as (S & E0 & _ & _ & (hs & ms & [HS _]) & (he & me & [HE _]) & Hrun).
  exists S, (rolled_end S E0).
  assert (Hspan : 0 < rolled_end S E0 - S <= msPerDay).
  { unfold rolled_end. destruct (Z.leb_spec E0 S); lia. }
  split; [exact Hspan|].
  rewrite Hrun.
  destruct (Z.ltb_spec msPerDay (rolled_end S E0 - S)); [lia|reflexivity].
Qed.

(** C9, as the code has it. A pair of strings of which one, once trimmed,
    does not match the pattern (an hour of one or two digits from 0 to 23, a
    colon, a minute of two digits from 00 to 59) is rejected and nothing is
    written: with the missing-times error when a trimmed string is empty,
    with the invalid-time-format error otherwise. ["25:00"] does not match.
    On two matching strings, a resolved span of more than 24 hours is
    rejected with the schedule-too-long error, and otherwise the two times
    are written. *)
Theorem plan_rejections (zone : TimeZone) (s e : string) (nowS nowE : Z) :
  (validateTimeFormat s = false \/ validateTimeFormat e = false ->
   handleScheduleSet zone s e nowS nowE =
     if String.eqb (trim s) "" || String.eqb (trim e) ""
     then Rejected MissingTimes else Rejected InvalidTimeFormat) /\
  (validateTimeFormat "25:00" = false /\
   handleScheduleSet zone "25:00" e nowS nowE =
     if String.eqb (trim e) "" then Rejected MissingTimes
     else Rejected InvalidTimeFormat) /\
  (validateTimeFormat s = true -> validateTimeFormat e = true ->
   exists startTime endTime0,
     parseTimeToTimestamp zone nowS s = Some startTime /\
     parseTimeToTimestamp zone nowE e = Some endTime0 /\
     handleScheduleSet zone s e nowS nowE =
       if msPerDay <? rolled_end startTime endTime0 - startTime
       then Rejected ScheduleTooLong
       else ScheduleWrite true (startTime / 1000)
              (rolled_end startTime endTime0 / 1000)).
Proof.
  split; [|split].
  - intros H. unfold handleScheduleSet.
    destruct (String.eqb (trim s) "" || String.eqb (trim e) "");
      [reflexivity|].
    destruct H as [-> | ->]; rewrite ?orb_true_r; reflexivity.
  - split; [reflexivity|]. unfold handleScheduleSet.
    change (String.eqb (trim "25:00") "") with false.
    change (validateTimeFormat "25:00") with false.
    cbn [orb negb]. reflexivity.
  - intros Hs He.
    destruct (handleScheduleSet_resolved zone s e nowS nowE Hs He)
      as (hs & ms & he & me & _ & _ & PS & PE & Hrun).
    eexists _, _. split; [exact PS|]. split; [exact PE|]. exact Hrun.
Qed.

Lemma plan_rejections_witness :
  (validateTimeFormat "12:60" = false /\
   handleScheduleSet (fixed_zone 0) "12:60" "13:00"
     1700000000000 1700000000000 =
     Rejected InvalidTimeFormat) /\
  (validateTimeFormat "10:00" = true /\ validateTimeFormat "11:00" = true /\
   handleScheduleSet (fixed_zone 0) "10:00" "11:00"
     1700000000000 1900000000000 =
     Rejected ScheduleTooLong).
Proof.
  split.
  - split; [reflexivity|].
    apply (proj1 (plan_rejections (fixed_zone 0) "12:60" "13:00"
                    1700000000000 1700000000000)).
    left. reflexivity.
  - split; [reflexivity|]. split; [reflexivity|].
    destruct (proj2 (proj2 (plan_rejections (fixed_zone 0) "10:00" "11:00"
                              1700000000000 1900000000000))
                eq_refl eq_refl) as (S & E0 & PS & PE & Hrun).
    rewrite Hrun. vm_compute in PS, PE.
    injection PS as <-. injection PE as <-. reflexivity.
Defined.

(** C9, as the specification words it, fails: an empty start time does not
    match the pattern, and it is rejected with the missing-times error, not
    with the invalid-time-format error. *)
Lemma plan_empty_is_not_a_format_error :
  validateTimeFormat "" = false /\
  plan (fixed_zone 0) "" "10:00" 1700000000000 = Rejected MissingTimes /\
  plan (fixed_zone 0) "" "10:00" 1700000000000 <>
    Rejected InvalidTimeFormat.
Proof. repeat split. discriminate. Qed.

(** ** Command ids *)

Lemma pretty_N_go_no_underscore (x : N) (s : string) :
  no_underscore s = true -> no_underscore (pretty_N_go x s) = true.
Proof.
  revert s. induction (N.lt_wf_0 x) as [x _ IH]; intros s Hs.
  destruct (decide (x = 0)%N) as [->|Hx].
  - rewrite pretty_N_go_0. exact Hs.
  - rewrite pretty_N_go_step by lia. apply IH.
    + apply N.div_lt; lia.
    + cbn [no_underscore]. rewrite Hs, andb_true_r.
      unfold pretty_N_char. repeat case_match; reflexivity.
Qed.

Lemma pretty_Z_no_underscore (z : Z) : no_underscore (pretty z) = true.
Proof.
  assert (HN : forall n : N, no_underscore (pretty n) = true).
  { intros n. unfold pretty, pretty_N. case_decide; [reflexivity|].
    apply pretty_N_go_no_underscore. reflexivity. }
  destruct z as [|p|p]; unfold pretty, pretty_Z; [reflexivity|apply HN|].
  cbn [String.app no_underscore]. apply HN.
Qed.

Lemma append_underscore_inj (a b x y : string) :
  no_underscore a = true -> no_underscore b = true ->
  a +:+ String "_" x = b +:+ String "_" y -> a = b /\ x = y.
Proof.
  revert b. induction a as [|c a IH]; intros [|d b]; cbn [String.app no_underscore].
  - intros _ _ [= ->]. auto.
  - rewrite andb_true_iff, negb_true_iff. intros _ [Hd _] [= <- _].
    discriminate Hd.
  - rewrite andb_true_iff, negb_true_iff. intros [Hc _] _ [= -> _].
    discriminate Hc.
  - rewrite !andb_true_iff. intros [_ Ha] [_ Hb] [= -> Heq].
    destruct (IH b Ha Hb Heq) as [-> ->]. auto.
Qed.

(** Two ids are the same exactly when the clock readings are the same and
    the random strings have the same nine characters after the first two. *)
Lemma generateCommandId_eq (t1 t2 : Z) (r1 r2 : string) :
  generateCommandId t1 r1 = generateCommandId t2 r2 <->
  t1 = t2 /\ substr 2 9 r1 = substr 2 9 r2.
Proof.
  unfold generateCommandId. split.
  - intros H. injection H as H.
    apply append_underscore_inj in H as [Ht Hr];
      try apply pretty_Z_no_underscore.
    split; [|exact Hr]. apply (inj pretty), Ht.
  - intros [-> ->]. reflexivity.
Qed.

(** ** Command registry: acknowledgments *)


Lemma processAck_cases (now : Z) (s : Commands) (ack : JsVal) :
  processAck now s ack =
    match ack_key ack with
    | Some commandId =>
        match pendingCommands s !! commandId with
        | Some pendingCmd =>
            scheduleAckDelete (now + 5000) commandId
              (invoke {| call_id := commandId; call_origin := ByAck;
                         call_promise := cmd_promise pendingCmd;
                         call_outcome := Fulfilled ack |}
                 (setPendingCommands (delete commandId) s))
        | None => s
        end
    | None => s
    end.
Proof.
  unfold processAck, ack_key.
  destruct (truthy ack && truthy (get_prop ack "commandId")); [|reflexivity].
  destruct (get_prop ack "commandId"); reflexivity.
Qed.

(** An acknowledgment that matches no entry changes nothing. *)
Lemma processAck_unmatched (now : Z) (s : Commands) (ack : JsVal) :
  (forall id, ack_key ack = Some id -> pendingCommands s !! id = None) ->
  processAck now s ack = s.
Proof.
  intros H. rewrite processAck_cases.
  destruct (ack_key ack) as [id|]; [|reflexivity].
  rewrite (H id eq_refl). reflexivity.
Qed.

Lemma processAck_pending (now : Z) (s : Commands) (ack : JsVal) :
  pendingCommands (processAck now s ack) =
    match ack_key ack with
    | Some id => delete id (pendingCommands s)
    | None => pendingCommands s
    end.
Proof.
  rewrite processAck_cases.
  destruct (ack_key ack) as [id|]; [|reflexivity].
  destruct (pendingCommands s !! id) eqn:E; [reflexivity|].
  symmetry. apply delete_id, E.
Qed.

Lemma processAck_lookup_None (now : Z) (s : Commands) (ack : JsVal)
    (id : string) :
  pendingCommands s !! id = None ->
  pendingCommands (processAck now s ack) !! id = None.
Proof.
  intros H. rewrite processAck_pending.
  destruct (ack_key ack) as [k|]; [|exact H].
  apply lookup_delete_None. right. exact H.
Qed.

Lemma foldl_processAck_lookup_None (now : Z) (acks : list JsVal)
    (s : Commands) (id : string) :
  pendingCommands s !! id = None ->
  pendingCommands (foldl (processAck now) s acks) !! id = None.
Proof.
  revert s. induction acks as [|ack acks IH]; intros s H; [exact H|].
  cbn [foldl]. apply IH, processAck_lookup_None, H.
Qed.

(** After the records of a snapshot are processed, none of them has an
    entry left. *)
Lemma foldl_processAck_consumed (now : Z) (acks : list JsVal) (s : Commands)
    (ack : JsVal) (id : string) :
  ack ∈ acks -> ack_key ack = Some id ->
  pendingCommands (foldl (processAck now) s acks) !! id = None.
Proof.
  revert s. induction acks as [|a acks IH]; intros s Hin Hk.
  - inversion Hin.
  - cbn [foldl]. apply elem_of_cons in Hin as [->|Hin].
    + apply foldl_processAck_lookup_None.
      rewrite processAck_pending, Hk. apply lookup_delete_eq.
    + apply IH; assumption.
Qed.

Lemma foldl_processAck_unmatched (now : Z) (acks : list JsVal) (s : Commands) :
  (forall ack id, ack ∈ acks -> ack_key ack = Some id ->
                  pendingCommands s !! id = None) ->
  foldl (processAck now) s acks = s.
Proof.
  induction acks as [|a acks IH]; intros H; [reflexivity|].
  cbn [foldl]. rewrite processAck_unmatched.
  - apply IH. intros ack id Hin. apply H. right. exact Hin.
  - intros id. apply H. left.
Qed.

(** The same snapshot delivered again changes nothing. *)
Lemma onAckSnapshot_again (now now' : Z) (data : JsVal) (s : Commands) :
  onAckSnapshot now' data (onAckSnapshot now data s) = onAckSnapshot now data s.
Proof.
  unfold onAckSnapshot.
  destruct (truthy data && is_object_type (typeof data)); [|reflexivity].
  apply foldl_processAck_unmatched.
  intros ack id Hin Hk. eapply foldl_processAck_consumed; eassumption.
Qed.

(** ** Command registry: what holds in every state *)

Lemma registry_calls_cons (k : string) (c : Call) (l : list Call) :
  registry_calls k (c :: l) =
    ((if is_registry_call k c then 1 else 0) + registry_calls k l)%nat.
Proof.
  unfold registry_calls. cbn [List.filter].
  destruct (is_registry_call k c); reflexivity.
Qed.

Lemma registry_calls_app (k : string) (l1 l2 : list Call) :
  registry_calls k (l1 ++ l2) =
    (registry_calls k l1 + registry_calls k l2)%nat.
Proof.
  unfold registry_calls. rewrite List.filter_app, length_app. reflexivity.
Qed.

Lemma settle_other (h p : nat) (o : PromiseState) (ps : gmap nat PromiseState) :
  h <> p -> settle h o ps !! p = ps !! p.
Proof.
  intros Hne. unfold settle.
  destruct (ps !! h) as [[]|]; try reflexivity.
  apply lookup_insert_ne, Hne.
Qed.

Lemma settle_pending (h : nat) (o : PromiseState) (ps : gmap nat PromiseState) :
  ps !! h = Some Pending -> settle h o ps !! h = Some o.
Proof. intros H. unfold settle. rewrite H. apply lookup_insert_eq. Qed.

Lemma settle_settled (h : nat) (o o' : PromiseState)
    (ps : gmap nat PromiseState) :
  ps !! h = Some o' -> o' <> Pending -> settle h o ps = ps.
Proof. intros H Ho. unfold settle. rewrite H. destruct o'; congruence. Qed.

(** Projections of a state written out as a record. *)
Ltac fields :=
  cbn [pendingCommands promises nextPromise writes timers ackDeletes calls
       invoke setPendingCommands setWrites setTimers scheduleAckDelete
       cmd_id cmd_type cmd_timestamp cmd_promise
       write_id write_type write_promise
       timer_due timer_id timer_type timer_promise
       call_id call_origin call_promise call_outcome] in *.

Lemma consistent_initial : consistent [] initialCommands.
Proof.
  split; cbn; intros; try (rewrite lookup_empty in *; discriminate);
    try (exfalso; eapply not_elem_of_nil; eassumption).
  - split; [apply lookup_empty|reflexivity].
  - unfold present. cbn. rewrite lookup_empty. cbn. lia.
Qed.

Lemma consistent_sendStart (issued : list string) (s : Commands)
    (now : Z) (rnd36 commandType : string) :
  consistent issued s ->
  generateCommandId now rnd36 ∉ issued ->
  consistent (generateCommandId now rnd36 :: issued)
    (sendStart now rnd36 commandType s).
Proof.
  intros C Hfresh. set (id := generateCommandId now rnd36) in *.
  destruct (c_unissued _ _ C id Hfresh) as [Hnone Hcalls].
  assert (Hiss : forall k cmd, pendingCommands s !! k = Some cmd -> k <> id).
  { intros k cmd Hk ->. congruence. }
  split; unfold sendStart; fold id; fields.
  - intros k Hk. apply not_elem_of_cons in Hk as [Hne Hk].
    rewrite lookup_insert_ne by congruence. apply (c_unissued _ _ C), Hk.
  - intros k. unfold present. fields.
    destruct (decide (k = id)) as [->|Hne].
    + rewrite lookup_insert_eq, Hcalls. lia.
    + rewrite lookup_insert_ne by congruence. apply (c_once _ _ C).
  - intros k cmd Hk.
    destruct (decide (k = id)) as [->|Hne].
    + rewrite lookup_insert_eq in Hk. injection Hk as <-. fields.
      rewrite lookup_insert_eq. repeat split; lia.
    + rewrite lookup_insert_ne in Hk by congruence.
      destruct (c_entries _ _ C k cmd Hk) as (Hid & Hp & Hlt).
      rewrite lookup_insert_ne by lia. repeat split; auto; lia.
  - intros k k' cmd cmd' Hk Hk'.
    destruct (decide (k = id)) as [->|Hne];
      destruct (decide (k' = id)) as [->|Hne']; [reflexivity|..].
    + rewrite lookup_insert_eq in Hk. rewrite lookup_insert_ne in Hk' by congruence.
      injection Hk as <-. fields.
      destruct (c_entries _ _ C k' cmd' Hk') as (_ & _ & Hlt). lia.
    + rewrite lookup_insert_eq in Hk'. rewrite lookup_insert_ne in Hk by congruence.
      injection Hk' as <-. fields.
      destruct (c_entries _ _ C k cmd Hk) as (_ & _ & Hlt). lia.
    + rewrite lookup_insert_ne in Hk, Hk' by congruence.
      apply (c_distinct _ _ C _ _ _ _ Hk Hk').
  - intros w Hw. apply elem_of_app in Hw as [Hw|Hw].
    + destruct (c_writes _ _ C w Hw) as (Hin & Hlt & Hent).
      split; [right; exact Hin|]. split; [lia|].
      intros k cmd Hk.
      destruct (decide (k = id)) as [->|Hne].
      * rewrite lookup_insert_eq in Hk. injection Hk as <-. fields.
        split; [lia|]. intros ->. contradiction.
      * rewrite lookup_insert_ne in Hk by congruence. apply Hent, Hk.
    + apply list_elem_of_singleton in Hw as ->. fields.
      split; [left|]. split; [lia|].
      intros k cmd Hk.
      destruct (decide (k = id)) as [->|Hne].
      * rewrite lookup_insert_eq in Hk. injection Hk as <-. fields. auto.
      * rewrite lookup_insert_ne in Hk by congruence.
        destruct (c_entries _ _ C k cmd Hk) as (_ & _ & Hlt).
        split; [lia|contradiction].
  - intros t Ht. destruct (c_timers _ _ C t Ht) as (Hin & Hent).
    split; [right; exact Hin|].
    intros cmd Hk. rewrite lookup_insert_ne in Hk; [apply Hent, Hk|].
    intros E. rewrite <- E in Hin. contradiction.
Qed.

Lemma dropWrite_elem_of (h : nat) (w : StoreWrite) (ws : list StoreWrite) :
  w ∈ dropWrite h ws -> w ∈ ws.
Proof.
  unfold dropWrite. rewrite !list_elem_of_In, filter_In. tauto.
Qed.

Lemma dropTimer_elem_of (h : nat) (t : Timer) (ts : list Timer) :
  t ∈ dropTimer h ts -> t ∈ ts.
Proof.
  unfold dropTimer. rewrite !list_elem_of_In, filter_In. tauto.
Qed.

Lemma findWrite_elem_of (h : nat) (ws : list StoreWrite) (w : StoreWrite) :
  findWrite h ws = Some w -> w ∈ ws /\ write_promise w = h.
Proof.
  unfold findWrite. intros H. apply find_some in H as [Hin Heq].
  split; [apply list_elem_of_In, Hin|]. apply Nat.eqb_eq, Heq.
Qed.

Lemma findTimer_elem_of (h : nat) (now : Z) (ts : list Timer) (t : Timer) :
  findTimer h now ts = Some t ->
  t ∈ ts /\ timer_promise t = h /\ timer_due t <= now.
Proof.
  unfold findTimer. intros H. apply find_some in H as [Hin Heq].
  apply andb_true_iff in Heq as [Hp Hd].
  split; [apply list_elem_of_In, Hin|].
  split; [apply Nat.eqb_eq, Hp|]. apply Z.leb_le, Hd.
Qed.

(** A state that differs only by having fewer timers, or other deletions of
    acknowledgment records asked for. *)
Lemma consistent_weaken (issued : list string) (s s' : Commands) :
  pendingCommands s' = pendingCommands s -> promises s' = promises s ->
  nextPromise s' = nextPromise s -> writes s' = writes s ->
  calls s' = calls s -> (forall t, t ∈ timers s' -> t ∈ timers s) ->
  consistent issued s -> consistent issued s'.
Proof.
  intros Hp Hq Hn Hw Hc Ht C.
  split; unfold present; rewrite ?Hp, ?Hq, ?Hn, ?Hw, ?Hc.
  - apply (c_unissued _ _ C).
  - apply (c_once _ _ C).
  - apply (c_entries _ _ C).
  - apply (c_distinct _ _ C).
  - apply (c_writes _ _ C).
  - intros t Hin. apply (c_timers _ _ C), Ht, Hin.
Qed.

Lemma consistent_armTimeout (issued : list string) (s : Commands)
    (now : Z) (w : StoreWrite) :
  consistent issued s -> w ∈ writes s ->
  consistent issued (armTimeout now w s).
Proof.
  intros C Hw. destruct (c_writes _ _ C w Hw) as (Hin & Hlt & Hent).
  split; unfold armTimeout, present; fields.
  - apply (c_unissued _ _ C).
  - apply (c_once _ _ C).
  - apply (c_entries _ _ C).
  - apply (c_distinct _ _ C).
  - intros w' Hw'. apply (c_writes _ _ C), (dropWrite_elem_of _ _ _ Hw').
  - intros t Ht. apply elem_of_app in Ht as [Ht|Ht].
    + apply (c_timers _ _ C), Ht.
    + apply list_elem_of_singleton in Ht as ->. fields.
      split; [exact Hin|]. intros cmd Hk. apply (Hent _ _ Hk). reflexivity.
Qed.

Lemma not_registry_call_write_failure (k id : string) (h : nat)
    (o : PromiseState) :
  is_registry_call k {| call_id := id; call_origin := ByWriteFailure;
                        call_promise := h; call_outcome := o |} = false.
Proof. reflexivity. Qed.

Lemma consistent_sendFailed (issued : list string) (s : Commands)
    (w : StoreWrite) (error : JsError) :
  consistent issued s -> w ∈ writes s ->
  consistent issued (sendFailed w error s).
Proof.
  intros C Hw. destruct (c_writes _ _ C w Hw) as (Hin & Hlt & Hent).
  split; unfold sendFailed, present; fields.
  - intros k Hk. destruct (c_unissued _ _ C k Hk) as [Hnone Hcalls].
    split; [apply lookup_delete_None; right; exact Hnone|].
    rewrite registry_calls_cons, not_registry_call_write_failure. exact Hcalls.
  - intros k. rewrite registry_calls_cons, not_registry_call_write_failure.
    pose proof (c_once _ _ C k) as Hk. unfold present in Hk.
    destruct (delete (write_id w) (pendingCommands s) !! k) eqn:E.
    + apply lookup_delete_Some in E as [_ E]. rewrite E in Hk. exact Hk.
    + destruct (pendingCommands s !! k); lia.
  - intros k cmd Hk. apply lookup_delete_Some in Hk as [Hne Hk].
    destruct (c_entries _ _ C k cmd Hk) as (Hid & Hp & Hn).
    split; [exact Hid|]. split; [|exact Hn].
    rewrite settle_other; [exact Hp|].
    intros E. apply Hne. symmetry. apply (Hent _ _ Hk). congruence.
  - intros k k' cmd cmd' Hk Hk'.
    apply lookup_delete_Some in Hk as [_ Hk].
    apply lookup_delete_Some in Hk' as [_ Hk'].
    apply (c_distinct _ _ C _ _ _ _ Hk Hk').
  - intros w' Hw'. apply dropWrite_elem_of in Hw'.
    destruct (c_writes _ _ C w' Hw') as (Hin' & Hlt' & Hent').
    split; [exact Hin'|]. split; [exact Hlt'|].
    intros k cmd Hk. apply lookup_delete_Some in Hk as [_ Hk].
    apply Hent', Hk.
  - intros t Ht. destruct (c_timers _ _ C t Ht) as (Hin' & Hent').
    split; [exact Hin'|].
    intros cmd Hk. apply lookup_delete_Some in Hk as [_ Hk]. apply Hent', Hk.
Qed.

Lemma is_registry_call_retire (k k' : string) (o : Origin) (h : nat)
    (outcome : PromiseState) :
  through_registry o = true ->
  is_registry_call k' {| call_id := k; call_origin := o; call_promise := h;
                         call_outcome := outcome |} =
    bool_decide (k = k').
Proof.
  intros Ho. unfold is_registry_call. fields. rewrite Ho. cbn [andb].
  destruct (String.eqb_spec k k'); [rewrite bool_decide_true|
    rewrite bool_decide_false]; auto.
Qed.

Lemma consistent_retire (issued : list string) (s : Commands) (k : string)
    (o : Origin) (cmd : PendingCommand) (outcome : PromiseState) :
  consistent issued s -> pendingCommands s !! k = Some cmd ->
  through_registry o = true ->
  consistent issued (retire k o cmd outcome s).
Proof.
  intros C Hcmd Ho.
  split; unfold retire, present; fields.
  - intros k' Hk'. destruct (c_unissued _ _ C k' Hk') as [Hnone Hcalls].
    split; [apply lookup_delete_None; right; exact Hnone|].
    rewrite registry_calls_cons, is_registry_call_retire by exact Ho.
    rewrite bool_decide_false; [exact Hcalls|]. intros ->. congruence.
  - intros k'. rewrite registry_calls_cons, is_registry_call_retire by exact Ho.
    pose proof (c_once _ _ C k') as Hk'. unfold present in Hk'.
    destruct (decide (k = k')) as [<-|Hne].
    + rewrite bool_decide_true, lookup_delete_eq by reflexivity.
      rewrite Hcmd in Hk'. lia.
    + rewrite bool_decide_false, lookup_delete_ne by assumption. exact Hk'.
  - intros k' cmd' Hk'. apply lookup_delete_Some in Hk' as [Hne Hk'].
    destruct (c_entries _ _ C k' cmd' Hk') as (Hid & Hp & Hn).
    split; [exact Hid|]. split; [|exact Hn].
    rewrite settle_other; [exact Hp|].
    intros E. apply Hne. apply (c_distinct _ _ C _ _ _ _ Hcmd Hk' E).
  - intros k1 k2 cmd1 cmd2 Hk1 Hk2.
    apply lookup_delete_Some in Hk1 as [_ Hk1].
    apply lookup_delete_Some in Hk2 as [_ Hk2].
    apply (c_distinct _ _ C _ _ _ _ Hk1 Hk2).
  - intros w Hw. destruct (c_writes _ _ C w Hw) as (Hin & Hlt & Hent).
    split; [exact Hin|]. split; [exact Hlt|].
    intros k' cmd' Hk'. apply lookup_delete_Some in Hk' as [_ Hk'].
    apply Hent, Hk'.
  - intros t Ht. destruct (c_timers _ _ C t Ht) as (Hin & Hent).
    split; [exact Hin|].
    intros cmd' Hk'. apply lookup_delete_Some in Hk' as [_ Hk'].
    apply Hent, Hk'.
Qed.

Lemma foldr_invoke_fields (cs : list Call) (s : Commands) :
  pendingCommands (foldr invoke s cs) = pendingCommands s /\
  nextPromise (foldr invoke s cs) = nextPromise s /\
  writes (foldr invoke s cs) = writes s /\
  timers (foldr invoke s cs) = timers s /\
  calls (foldr invoke s cs) = cs ++ calls s.
Proof.
  induction cs as [|c cs (Hp & Hn & Hw & Ht & Hc)]; cbn [foldr]; fields.
  - auto.
  - rewrite Hc. auto.
Qed.

Lemma foldr_invoke_promise_other (cs : list Call) (s : Commands) (p : nat) :
  (forall c, c ∈ cs -> call_promise c <> p) ->
  promises (foldr invoke s cs) !! p = promises s !! p.
Proof.
  induction cs as [|c cs IH]; intros H; cbn [foldr]; fields; [reflexivity|].
  rewrite settle_other by (apply H; left).
  apply IH. intros c' Hc'. apply H. right. exact Hc'.
Qed.

Lemma registry_calls_expire_list (l : list (string * PendingCommand))
    (k : string) :
  NoDup (l.*1) ->
  registry_calls k (expireCall <$> l) =
    if decide (k ∈ l.*1) then 1%nat else 0%nat.
Proof.
  induction l as [|[k0 c0] l IH]; intros Hnd.
  - rewrite decide_False by apply not_elem_of_nil. reflexivity.
  - rewrite fmap_cons in *. apply NoDup_cons in Hnd as [Hnot Hnd].
    rewrite registry_calls_cons, IH by exact Hnd.
    unfold expireCall at 1.
    rewrite is_registry_call_retire by reflexivity. cbn [fst] in *.
    destruct (decide (k0 = k)) as [->|Hne].
    + rewrite bool_decide_true by reflexivity.
      rewrite decide_False by exact Hnot.
      rewrite decide_True by left. reflexivity.
    + rewrite bool_decide_false by exact Hne.
      destruct (decide (k ∈ l.*1)) as [Hin|Hin].
      * rewrite decide_True by (right; exact Hin). reflexivity.
      * rewrite decide_False; [reflexivity|].
        intros [E|E]%elem_of_cons; [apply Hne; symmetry; exact E|].
        apply Hin, E.
Qed.

Lemma registry_calls_expire_map (m : gmap string PendingCommand) (k : string) :
  registry_calls k (expireCall <$> map_to_list m) =
    match m !! k with Some _ => 1%nat | None => 0%nat end.
Proof.
  rewrite registry_calls_expire_list by apply NoDup_fst_map_to_list.
  destruct (m !! k) as [cmd|] eqn:E.
  - rewrite decide_True; [reflexivity|].
    apply list_elem_of_fmap. exists (k, cmd).
    split; [reflexivity|]. apply elem_of_map_to_list, E.
  - rewrite decide_False; [reflexivity|].
    intros ([k' cmd] & Hk & Hin)%list_elem_of_fmap. cbn in Hk. subst k'.
    apply elem_of_map_to_list in Hin. congruence.
Qed.

Lemma sweep_pending (now : Z) (s : Commands) (k : string)
    (cmd : PendingCommand) :
  pendingCommands (sweep now s) !! k = Some cmd <->
  pendingCommands s !! k = Some cmd /\ expired now cmd = false.
Proof.
  unfold sweep.
  destruct (foldr_invoke_fields
    (expireCall <$> map_to_list
       (filter (fun entry => expired now entry.2 = true) (pendingCommands s)))
    (setPendingCommands
       (filter (fun entry => expired now entry.2 = false)) s)) as (-> & _).
  fields. apply map_lookup_filter_Some.
Qed.

Lemma consistent_sweep (issued : list string) (s : Commands) (now : Z) :
  consistent issued s -> consistent issued (sweep now s).
Proof.
  intros C.
  set (old := filter (fun entry : string * PendingCommand =>
                        expired now entry.2 = true) (pendingCommands s)).
  set (base := setPendingCommands
                 (filter (fun entry : string * PendingCommand =>
                            expired now entry.2 = false)) s).
  assert (Hsweep : sweep now s = foldr invoke base (expireCall <$> map_to_list old))
    by reflexivity.
  destruct (foldr_invoke_fields (expireCall <$> map_to_list old) base)
    as (Hp & Hn & Hw & Ht & Hc).
  assert (Hsub : forall k cmd, pendingCommands (sweep now s) !! k = Some cmd ->
                               pendingCommands s !! k = Some cmd).
  { intros k cmd Hk. apply sweep_pending in Hk. tauto. }
  assert (Hcalls : forall k, registry_calls k (calls (sweep now s)) =
    (match old !! k with Some _ => 1 | None => 0 end +
     registry_calls k (calls s))%nat).
  { intros k. rewrite Hsweep, Hc, registry_calls_app,
      registry_calls_expire_map. reflexivity. }
  split.
  - intros k Hk. destruct (c_unissued _ _ C k Hk) as [Hnone Hz].
    split.
    + destruct (pendingCommands (sweep now s) !! k) eqn:E; [|reflexivity].
      apply Hsub in E. congruence.
    + rewrite Hcalls, Hz.
      destruct (old !! k) eqn:E; [|reflexivity].
      apply map_lookup_filter_Some in E as [E _]. congruence.
  - intros k. rewrite Hcalls. unfold present.
    pose proof (c_once _ _ C k) as Hk. unfold present in Hk.
    destruct (pendingCommands s !! k) as [cmd|] eqn:E.
    + destruct (expired now cmd) eqn:Ex.
      * replace (old !! k) with (Some cmd)
          by (symmetry; apply map_lookup_filter_Some; auto).
        destruct (pendingCommands (sweep now s) !! k) eqn:E'; [|lia].
        apply sweep_pending in E' as [E1 E2]. congruence.
      * replace (old !! k) with (@None PendingCommand).
        2:{ symmetry. apply map_lookup_filter_None. right.
            intros cmd' Hc' Hex. cbn in Hex. congruence. }
        destruct (pendingCommands (sweep now s) !! k); lia.
    + replace (old !! k) with (@None PendingCommand).
      2:{ symmetry. apply map_lookup_filter_None. left. exact E. }
      destruct (pendingCommands (sweep now s) !! k) eqn:E'; [|lia].
      apply Hsub in E'. congruence.
  - intros k cmd Hk. apply sweep_pending in Hk as [Hk Hex].
    destruct (c_entries _ _ C k cmd Hk) as (Hid & Hpend & Hlt).
    split; [exact Hid|]. rewrite Hsweep, Hn. split; [|exact Hlt].
    rewrite foldr_invoke_promise_other; [exact Hpend|].
    intros c ([k' cmd'] & -> & Hin)%list_elem_of_fmap Heq.
    apply elem_of_map_to_list, map_lookup_filter_Some in Hin as [Hk' Hex'].
    cbn in Heq, Hex'.
    assert (k' = k) as -> by (apply (c_distinct _ _ C _ _ _ _ Hk' Hk Heq)).
    congruence.
  - intros k k' cmd cmd' Hk Hk'.
    apply (c_distinct _ _ C _ _ _ _ (Hsub _ _ Hk) (Hsub _ _ Hk')).
  - rewrite Hsweep, Hw, Hn. intros w Hin.
    destruct (c_writes _ _ C w Hin) as (Hi & Hlt & Hent).
    split; [exact Hi|]. split; [exact Hlt|].
    intros k cmd Hk. rewrite <- Hsweep in Hk. apply Hent, Hsub, Hk.
  - rewrite Hsweep, Ht. intros t Hin.
    destruct (c_timers _ _ C t Hin) as (Hi & Hent).
    split; [exact Hi|].
    intros cmd Hk. rewrite <- Hsweep in Hk. apply Hent, Hsub, Hk.
Qed.

Lemma consistent_timeoutCallback (issued : list string) (s : Commands)
    (t : Timer) :
  consistent issued s -> consistent issued (timeoutCallback t s).
Proof.
  intros C. unfold timeoutCallback.
  destruct (pendingCommands s !! timer_id t) as [cmd|] eqn:E; [|exact C].
  apply (consistent_retire issued s (timer_id t) ByTimeout cmd); auto.
Qed.

Lemma consistent_processAck (issued : list string) (s : Commands)
    (now : Z) (ack : JsVal) :
  consistent issued s -> consistent issued (processAck now s ack).
Proof.
  intros C. rewrite processAck_cases.
  destruct (ack_key ack) as [id|]; [|exact C].
  destruct (pendingCommands s !! id) as [cmd|] eqn:E; [|exact C].
  eapply consistent_weaken;
    [..|apply (consistent_retire issued s id ByAck cmd (Fulfilled ack) C E);
        reflexivity]; try reflexivity.
  auto.
Qed.

Lemma consistent_onAckSnapshot (issued : list string) (s : Commands)
    (now : Z) (data : JsVal) :
  consistent issued s -> consistent issued (onAckSnapshot now data s).
Proof.
  intros C. unfold onAckSnapshot.
  destruct (truthy data && is_object_type (typeof data)); [|exact C].
  revert s C. induction (Object_values data) as [|ack acks IH]; intros s C;
    [exact C|].
  cbn [foldl]. apply IH, consistent_processAck, C.
Qed.


Lemma consistent_step (issued : list string) (now : Z) (e : Event)
    (s s' : Commands) :
  consistent issued s -> step now e s = Some s' ->
  (forall id, id ∈ sent_ids [(now, e)] -> id ∉ issued) ->
  consistent (sent_ids [(now, e)] ++ issued) s'.
Proof.
  intros C Hstep Hfresh. destruct e as [rnd ty|h|h err|h|data|];
    cbn [step] in Hstep; cbn [sent_ids omap snd fst app].
  - injection Hstep as <-. apply consistent_sendStart; [exact C|].
    apply Hfresh. cbn. left.
  - destruct (findWrite h (writes s)) as [w|] eqn:E; [|discriminate].
    injection Hstep as <-. apply findWrite_elem_of in E as [Hin _].
    apply consistent_armTimeout; assumption.
  - destruct (findWrite h (writes s)) as [w|] eqn:E; [|discriminate].
    injection Hstep as <-. apply findWrite_elem_of in E as [Hin _].
    apply consistent_sendFailed; assumption.
  - destruct (findTimer h now (timers s)) as [t|] eqn:E; [|discriminate].
    injection Hstep as <-. apply consistent_timeoutCallback.
    eapply consistent_weaken; [..|exact C]; try reflexivity.
    intros t'. fields. apply dropTimer_elem_of.
  - injection Hstep as <-. apply consistent_onAckSnapshot, C.
  - injection Hstep as <-. apply consistent_sweep, C.
Qed.

Lemma sent_ids_cons (te : Z * Event) (trace : list (Z * Event)) :
  sent_ids (te :: trace) = sent_ids [te] ++ sent_ids trace.
Proof.
  unfold sent_ids. cbn [omap].
  destruct te as [now []]; reflexivity.
Qed.

Lemma consistent_run (trace : list (Z * Event)) (issued : list string)
    (s s' : Commands) :
  consistent issued s -> run trace s = Some s' ->
  NoDup (sent_ids trace) ->
  (forall id, id ∈ sent_ids trace -> id ∉ issued) ->
  consistent (reverse (sent_ids trace) ++ issued) s'.
Proof.
  revert issued s. induction trace as [|[now e] trace IH];
    intros issued s C Hrun Hnd Hfresh.
  - injection Hrun as <-. exact C.
  - cbn [run] in Hrun.
    destruct (step now e s) as [s1|] eqn:Hstep; [|discriminate].
    cbn [mbind option_bind] in Hrun.
    rewrite sent_ids_cons in *.
    apply NoDup_app in Hnd as (Hnd1 & Hdis & Hnd2).
    assert (C1 : consistent (sent_ids [(now, e)] ++ issued) s1).
    { eapply consistent_step; eauto.
      intros id Hid. apply Hfresh, elem_of_app. left. exact Hid. }
    specialize (IH _ _ C1 Hrun Hnd2).
    rewrite reverse_app, <- app_assoc.
    replace (reverse (sent_ids [(now, e)])) with (sent_ids [(now, e)])
      by (destruct e; reflexivity).
    apply IH. intros id Hid [Hin|Hin]%elem_of_app.
    + apply (Hdis id Hin Hid).
    + apply (Hfresh id); [apply elem_of_app; right; exact Hid|exact Hin].
Qed.

(** Every state reached from the start by sends that generated different
    ids. *)
Lemma consistent_reachable (trace : list (Z * Event)) (s : Commands) :
  run trace initialCommands = Some s -> NoDup (sent_ids trace) ->
  consistent (reverse (sent_ids trace)) s.
Proof.
  intros Hrun Hnd.
  rewrite <- (app_nil_r (reverse (sent_ids trace))).
  eapply consistent_run; eauto using consistent_initial.
  intros id _. apply not_elem_of_nil.
Qed.

(** C1, as the code has it. An acknowledgment whose [commandId] is the key
    of an entry resolves the handle of that entry with the record and removes
    the entry in the same step, so that the same record delivered again
    changes nothing; a whole snapshot delivered twice changes nothing the
    second time; an acknowledgment that matches no entry changes nothing; and
    in every state reached by sends that generated different ids, the
    registry has resolved or rejected (by a match, the timeout or the sweep)
    at most one handle for each id, the handle of a matched entry being
    still pending when the acknowledgment resolves it. *)
Theorem acknowledgment_resolves_once :
  (forall (now : Z) (s : Commands) (ack : JsVal) (id : string)
          (cmd : PendingCommand),
     ack_key ack = Some id -> pendingCommands s !! id = Some cmd ->
     pendingCommands (processAck now s ack) = delete id (pendingCommands s) /\
     calls (processAck now s ack) =
       {| call_id := id; call_origin := ByAck;
          call_promise := cmd_promise cmd;
          call_outcome := Fulfilled ack |} :: calls s /\
     promises (processAck now s ack) =
       settle (cmd_promise cmd) (Fulfilled ack) (promises s) /\
     forall now', processAck now' (processAck now s ack) ack =
                  processAck now s ack) /\
  (forall (now : Z) (s : Commands) (ack : JsVal),
     (forall id, ack_key ack = Some id -> pendingCommands s !! id = None) ->
     processAck now s ack = s) /\
  (forall (now now' : Z) (data : JsVal) (s : Commands),
     onAckSnapshot now' data (onAckSnapshot now data s) =
     onAckSnapshot now data s) /\
  (forall (trace : list (Z * Event)) (s : Commands),
     run trace initialCommands = Some s -> NoDup (sent_ids trace) ->
     (forall id, (registry_calls id (calls s) <= 1)%nat) /\
     (forall now ack id cmd,
        ack_key ack = Some id -> pendingCommands s !! id = Some cmd ->
        promises s !! cmd_promise cmd = Some Pending /\
        promises (processAck now s ack) !! cmd_promise cmd =
          Some (Fulfilled ack))).
Proof.
  split; [|split; [|split]].
  - intros now s ack id cmd Hk Hcmd.
    assert (Hs : processAck now s ack =
      scheduleAckDelete (now + 5000) id
        (retire id ByAck cmd (Fulfilled ack) s)).
    { rewrite processAck_cases, Hk, Hcmd. reflexivity. }
    split; [rewrite Hs; reflexivity|].
    split; [rewrite Hs; reflexivity|].
    split; [rewrite Hs; reflexivity|].
    intros now'. apply processAck_unmatched.
    intros id' Hk'. rewrite Hk in Hk'. injection Hk' as <-.
    rewrite processAck_pending, Hk. apply lookup_delete_eq.
  - apply processAck_unmatched.
  - apply onAckSnapshot_again.
  - intros trace s Hrun Hnd.
    pose proof (consistent_reachable trace s Hrun Hnd) as C.
    split.
    + intros id. pose proof (c_once _ _ C id). lia.
    + intros now ack id cmd Hk Hcmd.
      destruct (c_entries _ _ C id cmd Hcmd) as (_ & Hp & _).
      split; [exact Hp|].
      rewrite processAck_cases, Hk, Hcmd. fields.
      apply settle_pending, Hp.
Qed.

Lemma acknowledgment_resolves_once_witness :
  exists s,
    run sample_acknowledged_trace initialCommands = Some s /\
    NoDup (sent_ids sample_acknowledged_trace) /\
    (registry_calls "cmd_0_abcdefghi" (calls s) <= 1)%nat /\
    promises s !! 0%nat = Some (Fulfilled sample_ack).
Proof.
  eexists. split; [vm_compute; reflexivity|].
  assert (Hnd : NoDup (sent_ids sample_acknowledged_trace))
    by (apply NoDup_singleton).
  split; [exact Hnd|]. split; [|reflexivity].
  refine (proj1 (proj2 (proj2 (proj2 acknowledgment_resolves_once))
                   sample_acknowledged_trace _ _ Hnd) _).
  vm_compute. reflexivity.
Defined.

(** C1, as the specification words it, fails: nothing keeps two sends from
    generating the same id. Two commands sent in the same millisecond with
    the same random string get the id [cmd_0_abcdefghi]; each is acknowledged
    in turn, and the registry resolves two handles for that id. *)
Lemma acknowledgment_resolves_twice :
  exists s,
    run colliding_trace initialCommands = Some s /\
    sent_ids colliding_trace = ["cmd_0_abcdefghi"; "cmd_0_abcdefghi"] /\
    registry_calls "cmd_0_abcdefghi" (calls s) = 2%nat /\
    promises s !! 0%nat = Some (Fulfilled sample_ack) /\
    promises s !! 1%nat = Some (Fulfilled sample_ack).
Proof.
  eexists. split; [vm_compute; reflexivity|].
  repeat split; vm_compute; reflexivity.
Qed.

(** ** Command registry: the timeout *)

Lemma timeoutCallback_present (t : Timer) (s : Commands)
    (cmd : PendingCommand) :
  pendingCommands s !! timer_id t = Some cmd ->
  timeoutCallback t s =
    retire (timer_id t) ByTimeout cmd
      (RejectedWith (timeoutError (timer_type t))) s.
Proof. intros H. unfold timeoutCallback. rewrite H. reflexivity. Qed.

Lemma timeoutCallback_absent (t : Timer) (s : Commands) :
  pendingCommands s !! timer_id t = None -> timeoutCallback t s = s.
Proof. intros H. unfold timeoutCallback. rewrite H. reflexivity. Qed.

(** C2, as the code has it. The timer of a command is set when its write
    completes, to fire 10 seconds after that, and cannot fire before. When it
    fires in a state reached by sends that generated different ids, either the
    entry is gone (a match or the sweep took it) and nothing changes, or the
    entry is there: its handle is the pending handle of that send, it becomes
    rejected with the error [Command <type> timed out] naming the type of that
    command, and the entry is removed in the same step, so that an
    acknowledgment for that id arriving later changes nothing. *)
Theorem timeout_rejects_after_write :
  (forall (now : Z) (h : nat) (s : Commands) (w : StoreWrite),
     findWrite h (writes s) = Some w ->
     exists s', step now (Written h) s = Some s' /\
       timers s' = timers s ++
         [{| timer_due := now + 10000; timer_id := write_id w;
             timer_type := write_type w; timer_promise := h |}] /\
       pendingCommands s' = pendingCommands s /\
       promises s' = promises s /\ calls s' = calls s) /\
  (forall (now : Z) (h : nat) (s : Commands),
     (forall t, t ∈ timers s -> timer_promise t = h -> now < timer_due t) ->
     step now (TimerFired h) s = None) /\
  (forall (trace : list (Z * Event)) (s s' : Commands) (now : Z) (h : nat),
     run trace initialCommands = Some s -> NoDup (sent_ids trace) ->
     step now (TimerFired h) s = Some s' ->
     exists t, t ∈ timers s /\ timer_promise t = h /\ timer_due t <= now /\
       match pendingCommands s !! timer_id t with
       | None =>
           pendingCommands s' = pendingCommands s /\
           promises s' = promises s /\ calls s' = calls s
       | Some cmd =>
           cmd_type cmd = timer_type t /\ cmd_promise cmd = h /\
           promises s !! h = Some Pending /\
           promises s' !! h =
             Some (RejectedWith
                     (Error ("Command " +:+ cmd_type cmd +:+ " timed out"))) /\
           pendingCommands s' = delete (timer_id t) (pendingCommands s) /\
           forall now' ack, ack_key ack = Some (timer_id t) ->
                            processAck now' s' ack = s'
       end).
Proof.
  split; [|split].
  - intros now h s w Hw. exists (armTimeout now w s).
    cbn [step]. rewrite Hw. split; [reflexivity|].
    apply findWrite_elem_of in Hw as [_ <-]. repeat split.
  - intros now h s Hnot. cbn [step].
    destruct (findTimer h now (timers s)) as [t|] eqn:E; [|reflexivity].
    apply findTimer_elem_of in E as (Hin & Hp & Hdue).
    specialize (Hnot t Hin Hp). lia.
  - intros trace s s' now h Hrun Hnd Hstep.
    pose proof (consistent_reachable trace s Hrun Hnd) as C.
    cbn [step] in Hstep.
    destruct (findTimer h now (timers s)) as [t|] eqn:E; [|discriminate].
    injection Hstep as <-.
    apply findTimer_elem_of in E as (Hin & Hp & Hdue).
    exists t. split; [exact Hin|]. split; [exact Hp|]. split; [exact Hdue|].
    destruct (pendingCommands s !! timer_id t) as [cmd|] eqn:Hcmd.
    + destruct (c_timers _ _ C t Hin) as (_ & Hent).
      destruct (Hent cmd Hcmd) as [Hpr Hty].
      destruct (c_entries _ _ C _ cmd Hcmd) as (_ & Hpend & _).
      rewrite (timeoutCallback_present t _ cmd) by exact Hcmd.
      unfold retire. fields.
      split; [exact Hty|]. split; [congruence|].
      split; [congruence|].
      split.
      { rewrite Hty, <- Hp, <- Hpr. apply settle_pending, Hpend. }
      split; [reflexivity|].
      intros now' ack Hk. apply processAck_unmatched.
      intros id Hk'. rewrite Hk in Hk'. injection Hk' as <-.
      fields. apply lookup_delete_eq.
    + rewrite timeoutCallback_absent by exact Hcmd. fields. auto.
Qed.

Lemma timeout_rejects_after_write_witness :
  exists s s',
    run sample_timed_out_trace initialCommands = Some s /\
    NoDup (sent_ids sample_timed_out_trace) /\
    step 10100 (TimerFired 0%nat) s = Some s' /\
    promises s' !! 0%nat =
      Some (RejectedWith (Error "Command RELAY_CONTROL timed out")) /\
    pendingCommands s' !! "cmd_0_abcdefghi" = None.
Proof.
  eexists. eexists.
  assert (Hnd : NoDup (sent_ids sample_timed_out_trace))
    by (apply NoDup_singleton).
  split; [vm_compute; reflexivity|]. split; [exact Hnd|].
  split; [vm_compute; reflexivity|].
  destruct (proj2 (proj2 timeout_rejects_after_write)
              sample_timed_out_trace _ _ 10100 0%nat
              eq_refl Hnd eq_refl) as (t & _).
  split; reflexivity.
Defined.

(** Where two sends generated the same id, the entry under that id is that
    of the second command: the timer of the first command rejects the handle
    of the second, with an error that names the type of the first, and the
    handle of the first command stays pending. *)
Lemma timeout_on_shared_id :
  exists s s',
    run shared_id_trace initialCommands = Some s /\
    sent_ids shared_id_trace = ["cmd_0_abcdefghi"; "cmd_0_abcdefghi"] /\
    step 10100 (TimerFired 0%nat) s = Some s' /\
    promises s' !! 0%nat = Some Pending /\
    promises s' !! 1%nat =
      Some (RejectedWith (Error "Command RELAY_CONTROL timed out")) /\
    pendingCommands s' !! "cmd_0_abcdefghi" = None.
Proof.
  eexists. eexists.
  split; [vm_compute; reflexivity|].
  split; [reflexivity|].
  split; [vm_compute; reflexivity|].
  repeat split; reflexivity.
Qed.

(** C2, as the specification words it, fails. More than 10 seconds after the
    command was issued and with no acknowledgment, its handle is still pending
    and its timer cannot fire, because the 10 seconds run from the end of the
    write; the clean-up at 15500 then rejects the handle with [Command
    expired], and when the timer fires at 16000 nothing is left for it: the
    handle is never rejected with the timeout error. *)
Lemma timeout_not_from_issuance :
  exists s s',
    run slow_write_trace initialCommands = Some s /\
    promises s !! 0%nat = Some Pending /\
    is_Some (pendingCommands s !! "cmd_0_abcdefghi") /\
    step 10500 (TimerFired 0%nat) s = None /\
    run [(15500, Sweep); (16000, TimerFired 0%nat)] s = Some s' /\
    promises s' !! 0%nat = Some (RejectedWith (Error "Command expired")) /\
    RejectedWith (Error "Command expired") <>
      RejectedWith (timeoutError "RELAY_CONTROL") /\
    timers s' = [] /\ writes s' = [].
Proof.
  eexists. eexists.
  split; [vm_compute; reflexivity|].
  split; [reflexivity|].
  split; [eexists; vm_compute; reflexivity|].
  split; [reflexivity|].
  split; [vm_compute; reflexivity|].
  split; [reflexivity|].
  split; [discriminate|].
  split; reflexivity.
Qed.

(** ** Command registry: the ids *)

Lemma keyed_by_id_subseteq (m m' : gmap string PendingCommand) :
  m' ⊆ m -> keyed_by_id m -> keyed_by_id m'.
Proof.
  intros Hsub Hm k cmd Hk. apply (Hm k cmd).
  eapply lookup_weaken; eassumption.
Qed.

Lemma keyed_by_id_processAck (now : Z) (s : Commands) (ack : JsVal) :
  keyed_by_id (pendingCommands s) ->
  keyed_by_id (pendingCommands (processAck now s ack)).
Proof.
  rewrite processAck_pending. destruct (ack_key ack); [|auto].
  apply keyed_by_id_subseteq, delete_subseteq.
Qed.

Lemma keyed_by_id_step (now : Z) (e : Event) (s s' : Commands) :
  step now e s = Some s' ->
  keyed_by_id (pendingCommands s) -> keyed_by_id (pendingCommands s').
Proof.
  intros Hstep Hs. destruct e as [rnd ty|h|h err|h|data|];
    cbn [step] in Hstep.
  - injection Hstep as <-. unfold sendStart. fields.
    intros k cmd Hk.
    destruct (decide (k = generateCommandId now rnd)) as [->|Hne].
    + rewrite lookup_insert_eq in Hk. injection Hk as <-. reflexivity.
    + rewrite lookup_insert_ne in Hk by congruence. apply Hs, Hk.
  - destruct (findWrite h (writes s)); [|discriminate].
    injection Hstep as <-. exact Hs.
  - destruct (findWrite h (writes s)); [|discriminate].
    injection Hstep as <-. unfold sendFailed. fields.
    revert Hs. apply keyed_by_id_subseteq, delete_subseteq.
  - destruct (findTimer h now (timers s)) as [t|]; [|discriminate].
    injection Hstep as <-. unfold timeoutCallback. fields.
    destruct (pendingCommands s !! timer_id t); [|exact Hs]. fields.
    revert Hs. apply keyed_by_id_subseteq, delete_subseteq.
  - injection Hstep as <-. unfold onAckSnapshot.
    destruct (truthy data && is_object_type (typeof data)); [|exact Hs].
    revert s Hs. induction (Object_values data) as [|ack acks IH];
      intros s Hs; [exact Hs|].
    cbn [foldl]. apply IH, keyed_by_id_processAck, Hs.
  - injection Hstep as <-. intros k cmd Hk.
    apply sweep_pending in Hk as [Hk _]. apply Hs, Hk.
Qed.

Lemma keyed_by_id_run (trace : list (Z * Event)) (s s' : Commands) :
  run trace s = Some s' ->
  keyed_by_id (pendingCommands s) -> keyed_by_id (pendingCommands s').
Proof.
  revert s. induction trace as [|[now e] trace IH]; intros s Hrun Hs.
  - injection Hrun as <-. exact Hs.
  - cbn [run] in Hrun.
    destruct (step now e s) as [s1|] eqn:Hstep; [|discriminate].
    cbn [mbind option_bind] in Hrun.
    eapply IH; [exact Hrun|]. eapply keyed_by_id_step; eassumption.
Qed.

(** C3, as the code has it. An id is made of the reading of the clock and of
    nine characters of the random string, and of nothing else: two sends get
    the same id exactly when both are the same, so the ids of a sequence of
    sends are pairwise distinct when no two of them read the same millisecond
    and draw the same nine characters. Whatever the ids, the registry is a map
    keyed by id in which every entry is stored under its own id: no two
    pending entries share an id. *)
Theorem generateCommandId_distinct :
  (forall (t1 t2 : Z) (r1 r2 : string),
     generateCommandId t1 r1 = generateCommandId t2 r2 <->
     t1 = t2 /\ substr 2 9 r1 = substr 2 9 r2) /\
  (forall sends : list (Z * string),
     NoDup (id_source <$> sends) -> NoDup (id_of_send <$> sends)) /\
  (forall (trace : list (Z * Event)) (s : Commands),
     run trace initialCommands = Some s ->
     keyed_by_id (pendingCommands s)).
Proof.
  split; [apply generateCommandId_eq|]. split.
  - intros sends. induction sends as [|[t r] sends IH]; intros Hnd;
      [constructor|].
    rewrite fmap_cons in *. apply NoDup_cons in Hnd as [Hnot Hnd].
    apply NoDup_cons. split; [|apply IH, Hnd].
    intros ([t' r'] & Heq & Hin)%list_elem_of_fmap.
    apply Hnot. apply list_elem_of_fmap. exists (t', r').
    split; [|exact Hin].
    unfold id_of_send in Heq. cbn [fst snd] in Heq.
    apply generateCommandId_eq in Heq as [-> Hr].
    unfold id_source. cbn [fst snd]. rewrite Hr. reflexivity.
  - intros trace s Hrun. eapply keyed_by_id_run; [exact Hrun|].
    intros k cmd Hk. cbn in Hk. rewrite lookup_empty in Hk. discriminate.
Qed.

Lemma generateCommandId_distinct_witness :
  NoDup (id_source <$> sample_sends) /\
  NoDup (id_of_send <$> sample_sends) /\
  exists s,
    run sample_acknowledged_trace initialCommands = Some s /\
    keyed_by_id (pendingCommands s).
Proof.
  assert (Hnd : NoDup (id_source <$> sample_sends)).
  { apply (bool_decide_unpack _). vm_compute. exact I. }
  split; [exact Hnd|].
  split; [apply (proj1 (proj2 generateCommandId_distinct)), Hnd|].
  eexists. split; [vm_compute; reflexivity|].
  apply (proj2 (proj2 generateCommandId_distinct) sample_acknowledged_trace).
  vm_compute. reflexivity.
Defined.

(** C3, as the specification words it, fails. Two commands sent in the same
    millisecond with random strings that differ only after their eleventh
    character get the same id; the second entry replaces the first in the
    registry. *)
Lemma generateCommandId_collision :
  "0.k3j5h2l9xq7" <> "0.k3j5h2l9xzz" /\
  generateCommandId 1700000000000 "0.k3j5h2l9xq7" =
    generateCommandId 1700000000000 "0.k3j5h2l9xzz" /\
  exists s,
    run [(1700000000000, Send "0.k3j5h2l9xq7" "RELAY_CONTROL");
         (1700000000000, Send "0.k3j5h2l9xzz" "RESET_PROTECTION")]
      initialCommands = Some s /\
    size (pendingCommands s) = 1%nat /\
    size (promises s) = 2%nat /\
    (cmd_type <$> pendingCommands s !! "cmd_1700000000000_k3j5h2l9x") =
      Some "RESET_PROTECTION".
Proof.
  split; [discriminate|]. split; [reflexivity|].
  eexists. split; [vm_compute; reflexivity|].
  repeat split; vm_compute; reflexivity.
Qed.

(** ** The reduced screen *)

Lemma settle_keeps_settled (h h' : nat) (o o' : PromiseState)
    (ps : gmap nat PromiseState) :
  ps !! h = Some o -> o <> Pending -> settle h' o' ps !! h = Some o.
Proof.
  intros H Ho. destruct (decide (h' = h)) as [->|Hne].
  - rewrite (settle_settled h o' o) by assumption. exact H.
  - rewrite settle_other by exact Hne. exact H.
Qed.

Lemma reduced_step_keeps_settled (now : Z) (e : SmartWallSocketApp.Event)
    (s s' : Commands) (h : nat) (o : PromiseState) :
  SmartWallSocketApp.step now e s = Some s' ->
  promises s !! h = Some o -> o <> Pending -> (h < nextPromise s)%nat ->
  promises s' !! h = Some o /\ (h < nextPromise s')%nat.
Proof.
  intros Hstep Hh Ho Hlt. destruct e as [rnd ty|h'|h' err|h'];
    cbn [SmartWallSocketApp.step] in Hstep.
  - injection Hstep as <-. unfold sendStart. fields.
    rewrite lookup_insert_ne by lia. split; [exact Hh|lia].
  - destruct (findWrite h' (writes s)) as [w|]; [|discriminate].
    injection Hstep as <-. unfold SmartWallSocketApp.sendWritten, armTimeout.
    fields. split; [|exact Hlt]. apply settle_keeps_settled; assumption.
  - destruct (findWrite h' (writes s)) as [w|]; [|discriminate].
    injection Hstep as <-. unfold sendFailed. fields.
    split; [|exact Hlt]. apply settle_keeps_settled; assumption.
  - destruct (findTimer h' now (timers s)) as [t|]; [|discriminate].
    injection Hstep as <-. unfold SmartWallSocketApp.timeoutCallback. fields.
    destruct (pendingCommands s !! timer_id t); fields;
      [|split; assumption].
    split; [|exact Hlt]. apply settle_keeps_settled; assumption.
Qed.

Lemma reduced_run_keeps_settled (trace : list (Z * SmartWallSocketApp.Event))
    (s s' : Commands) (h : nat) (o : PromiseState) :
  SmartWallSocketApp.run trace s = Some s' ->
  promises s !! h = Some o -> o <> Pending -> (h < nextPromise s)%nat ->
  promises s' !! h = Some o.
Proof.
  revert s. induction trace as [|[now e] trace IH]; intros s Hrun Hh Ho Hlt.
  - injection Hrun as <-. exact Hh.
  - cbn [SmartWallSocketApp.run] in Hrun.
    destruct (SmartWallSocketApp.step now e s) as [s1|] eqn:Hstep;
      [|discriminate].
    cbn [mbind option_bind] in Hrun.
    destruct (reduced_step_keeps_settled now e s s1 h o Hstep Hh Ho Hlt)
      as [Hh1 Hlt1].
    apply (IH s1 Hrun Hh1 Ho Hlt1).
Qed.

Lemma reduced_step_keeps_entry (now : Z) (e : SmartWallSocketApp.Event)
    (s s' : Commands) (id : string) :
  SmartWallSocketApp.step now e s = Some s' -> ~ concerns id now e s ->
  pendingCommands s' !! id = pendingCommands s !! id.
Proof.
  intros Hstep Hnot. destruct e as [rnd ty|h'|h' err|h'];
    cbn [SmartWallSocketApp.step concerns] in *.
  - injection Hstep as <-. unfold sendStart. fields.
    apply lookup_insert_ne. exact Hnot.
  - destruct (findWrite h' (writes s)) as [w|]; [|discriminate].
    injection Hstep as <-. reflexivity.
  - destruct (findWrite h' (writes s)) as [w|]; [|discriminate].
    injection Hstep as <-. unfold sendFailed. fields.
    apply lookup_delete_ne. intros E. apply Hnot. exists w. auto.
  - destruct (findTimer h' now (timers s)) as [t|]; [|discriminate].
    injection Hstep as <-. unfold SmartWallSocketApp.timeoutCallback. fields.
    destruct (pendingCommands s !! timer_id t); fields; [|reflexivity].
    apply lookup_delete_ne. intros E. apply Hnot. exists t. auto.
Qed.

Lemma dropWrite_elem_of_iff (h : nat) (w : StoreWrite) (ws : list StoreWrite) :
  w ∈ dropWrite h ws <-> w ∈ ws /\ write_promise w <> h.
Proof.
  unfold dropWrite. rewrite !list_elem_of_In, filter_In, negb_true_iff.
  rewrite Nat.eqb_neq. reflexivity.
Qed.

Lemma dropTimer_elem_of_iff (h : nat) (t : Timer) (ts : list Timer) :
  t ∈ dropTimer h ts <-> t ∈ ts /\ timer_promise t <> h.
Proof.
  unfold dropTimer. rewrite !list_elem_of_In, filter_In, negb_true_iff.
  rewrite Nat.eqb_neq. reflexivity.
Qed.

Lemma reduced_consistent_initial : reduced_consistent [] initialCommands.
Proof.
  split; cbn; intros; try (exfalso; eapply not_elem_of_nil; eassumption).
  rewrite lookup_empty in *. destruct H as [? H]. discriminate H.
Qed.

Lemma reduced_consistent_sendStart (issued : list string) (s : Commands)
    (now : Z) (rnd36 commandType : string) :
  reduced_consistent issued s ->
  generateCommandId now rnd36 ∉ issued ->
  reduced_consistent (generateCommandId now rnd36 :: issued)
    (sendStart now rnd36 commandType s).
Proof.
  intros C Hfresh. set (id := generateCommandId now rnd36) in *.
  split; unfold sendStart; fold id; fields.
  - intros k Hk. destruct (decide (k = id)) as [->|Hne]; [left|].
    rewrite lookup_insert_ne in Hk by congruence.
    right. apply (r_pending _ _ C), Hk.
  - intros w Hw. apply elem_of_app in Hw as [Hw|Hw].
    + destruct (r_writes _ _ C w Hw) as (Hin & Hlt & Hent & Hp).
      split; [right; exact Hin|]. split; [lia|].
      rewrite lookup_insert_ne by (intros E; rewrite E in Hfresh; contradiction).
      rewrite lookup_insert_ne by lia. auto.
    + apply list_elem_of_singleton in Hw as ->. fields.
      rewrite !lookup_insert_eq. split; [left|]. split; [lia|]. eauto.
  - intros t Ht. destruct (r_timers _ _ C t Ht) as (Hin & Hlt & Hent & Hp).
    split; [right; exact Hin|]. split; [lia|].
    rewrite lookup_insert_ne by (intros E; rewrite E in Hfresh; contradiction).
    rewrite lookup_insert_ne by lia. auto.
  - intros w w' Hw Hw' Hid.
    apply elem_of_app in Hw as [Hw|Hw]; apply elem_of_app in Hw' as [Hw'|Hw'];
      rewrite ?list_elem_of_singleton in *; subst; fields.
    + apply (r_write_ids _ _ C w w'); assumption.
    + destruct (r_writes _ _ C w Hw) as (Hin & _). rewrite Hid in Hin.
      contradiction.
    + destruct (r_writes _ _ C w' Hw') as (Hin & _). rewrite <- Hid in Hin.
      contradiction.
    + reflexivity.
  - apply (r_timer_ids _ _ C).
  - intros w t Hw Ht. apply elem_of_app in Hw as [Hw|Hw].
    + apply (r_apart _ _ C w t); assumption.
    + apply list_elem_of_singleton in Hw as ->. fields.
      destruct (r_timers _ _ C t Ht) as (Hin & _).
      intros E. rewrite <- E in Hin. contradiction.
Qed.

Lemma reduced_consistent_sendWritten (issued : list string) (s : Commands)
    (now : Z) (w : StoreWrite) :
  reduced_consistent issued s -> w ∈ writes s ->
  reduced_consistent issued (SmartWallSocketApp.sendWritten now w s).
Proof.
  intros C Hw. destruct (r_writes _ _ C w Hw) as (Hin & Hlt & Hent & Hp).
  split; unfold SmartWallSocketApp.sendWritten, armTimeout; fields.
  - apply (r_pending _ _ C).
  - intros w' [Hw' Hne]%dropWrite_elem_of_iff.
    destruct (r_writes _ _ C w' Hw') as (Hin' & Hlt' & Hent' & Hp').
    rewrite settle_other by congruence. auto.
  - intros t Ht. apply elem_of_app in Ht as [Ht|Ht].
    + destruct (r_timers _ _ C t Ht) as (Hin' & Hlt' & Hent' & Hp').
      split; [exact Hin'|]. split; [exact Hlt'|]. split; [exact Hent'|].
      apply settle_keeps_settled; [exact Hp'|discriminate].
    + apply list_elem_of_singleton in Ht as ->. fields.
      split; [exact Hin|]. split; [exact Hlt|]. split; [exact Hent|].
      apply settle_pending, Hp.
  - intros w1 w2 [Hw1 _]%dropWrite_elem_of_iff [Hw2 _]%dropWrite_elem_of_iff.
    apply (r_write_ids _ _ C w1 w2); assumption.
  - intros t t' Ht Ht' Hid.
    apply elem_of_app in Ht as [Ht|Ht]; apply elem_of_app in Ht' as [Ht'|Ht'];
      rewrite ?list_elem_of_singleton in *; subst; fields.
    + apply (r_timer_ids _ _ C t t'); assumption.
    + exfalso. apply (r_apart _ _ C w t Hw Ht). symmetry. exact Hid.
    + exfalso. apply (r_apart _ _ C w t' Hw Ht'). exact Hid.
    + reflexivity.
  - intros w' t [Hw' Hne]%dropWrite_elem_of_iff Ht.
    apply elem_of_app in Ht as [Ht|Ht].
    + apply (r_apart _ _ C w' t); assumption.
    + apply list_elem_of_singleton in Ht as ->. fields.
      intros E. apply Hne. apply (r_write_ids _ _ C w' w); assumption.
Qed.

Lemma reduced_consistent_sendFailed (issued : list string) (s : Commands)
    (w : StoreWrite) (error : JsError) :
  reduced_consistent issued s -> w ∈ writes s ->
  reduced_consistent issued (sendFailed w error s).
Proof.
  intros C Hw. destruct (r_writes _ _ C w Hw) as (Hin & Hlt & Hent & Hp).
  split; unfold sendFailed; fields.
  - intros k [cmd Hk]. apply lookup_delete_Some in Hk as [_ Hk].
    apply (r_pending _ _ C). eauto.
  - intros w' [Hw' Hne]%dropWrite_elem_of_iff.
    destruct (r_writes _ _ C w' Hw') as (Hin' & Hlt' & Hent' & Hp').
    rewrite settle_other by congruence.
    rewrite lookup_delete_ne; [auto|].
    intros E. apply Hne. symmetry.
    apply (r_write_ids _ _ C w w'); assumption.
  - intros t Ht.
    destruct (r_timers _ _ C t Ht) as (Hin' & Hlt' & Hent' & Hp').
    rewrite lookup_delete_ne by (apply (r_apart _ _ C w t); assumption).
    split; [exact Hin'|]. split; [exact Hlt'|]. split; [exact Hent'|].
    apply settle_keeps_settled; [exact Hp'|discriminate].
  - intros w1 w2 [Hw1 _]%dropWrite_elem_of_iff [Hw2 _]%dropWrite_elem_of_iff.
    apply (r_write_ids _ _ C w1 w2); assumption.
  - apply (r_timer_ids _ _ C).
  - intros w' t [Hw' _]%dropWrite_elem_of_iff Ht.
    apply (r_apart _ _ C w' t); assumption.
Qed.

Lemma reduced_consistent_timeout (issued : list string) (s : Commands)
    (t : Timer) :
  reduced_consistent issued s -> t ∈ timers s ->
  reduced_consistent issued
    (SmartWallSocketApp.timeoutCallback t
       (setTimers (dropTimer (timer_promise t) (timers s)) s)).
Proof.
  intros C Ht. destruct (r_timers _ _ C t Ht) as (Hin & Hlt & [cmd Hent] & Hp).
  unfold SmartWallSocketApp.timeoutCallback. fields. rewrite Hent.
  split; fields.
  - intros k [cmd' Hk]. apply lookup_delete_Some in Hk as [_ Hk].
    apply (r_pending _ _ C). eauto.
  - intros w Hw.
    destruct (r_writes _ _ C w Hw) as (Hin' & Hlt' & Hent' & Hp').
    rewrite (settle_settled _ _ (Fulfilled JUndefined))
      by (exact Hp || discriminate).
    rewrite lookup_delete_ne; [auto|].
    intros E. apply (r_apart _ _ C w t Hw Ht). symmetry. exact E.
  - intros t' [Ht' Hne]%dropTimer_elem_of_iff.
    destruct (r_timers _ _ C t' Ht') as (Hin' & Hlt' & Hent' & Hp').
    rewrite (settle_settled _ _ (Fulfilled JUndefined))
      by (exact Hp || discriminate).
    rewrite lookup_delete_ne; [auto|].
    intros E. apply Hne. symmetry.
    apply (r_timer_ids _ _ C t t'); assumption.
  - apply (r_write_ids _ _ C).
  - intros t1 t2 [Ht1 _]%dropTimer_elem_of_iff [Ht2 _]%dropTimer_elem_of_iff.
    apply (r_timer_ids _ _ C t1 t2); assumption.
  - intros w t' Hw [Ht' _]%dropTimer_elem_of_iff.
    apply (r_apart _ _ C w t'); assumption.
Qed.


Lemma reduced_consistent_step (issued : list string) (now : Z)
    (e : SmartWallSocketApp.Event) (s s' : Commands) :
  reduced_consistent issued s -> SmartWallSocketApp.step now e s = Some s' ->
  (forall id, id ∈ reduced_sent_ids [(now, e)] -> id ∉ issued) ->
  reduced_consistent (reduced_sent_ids [(now, e)] ++ issued) s'.
Proof.
  intros C Hstep Hfresh. destruct e as [rnd ty|h|h err|h];
    cbn [SmartWallSocketApp.step] in Hstep;
    cbn [reduced_sent_ids omap snd fst app].
  - injection Hstep as <-. apply reduced_consistent_sendStart; [exact C|].
    apply Hfresh. cbn. left.
  - destruct (findWrite h (writes s)) as [w|] eqn:E; [|discriminate].
    injection Hstep as <-. apply findWrite_elem_of in E as [Hin _].
    apply reduced_consistent_sendWritten; assumption.
  - destruct (findWrite h (writes s)) as [w|] eqn:E; [|discriminate].
    injection Hstep as <-. apply findWrite_elem_of in E as [Hin _].
    apply reduced_consistent_sendFailed; assumption.
  - destruct (findTimer h now (timers s)) as [t|] eqn:E; [|discriminate].
    injection Hstep as <-. apply findTimer_elem_of in E as (Hin & <- & _).
    apply reduced_consistent_timeout; assumption.
Qed.

Lemma reduced_sent_ids_cons (te : Z * SmartWallSocketApp.Event)
    (trace : list (Z * SmartWallSocketApp.Event)) :
  reduced_sent_ids (te :: trace) =
    reduced_sent_ids [te] ++ reduced_sent_ids trace.
Proof.
  unfold reduced_sent_ids. cbn [omap]. destruct te as [now []]; reflexivity.
Qed.

Lemma reduced_consistent_run (trace : list (Z * SmartWallSocketApp.Event))
    (issued : list string) (s s' : Commands) :
  reduced_consistent issued s -> SmartWallSocketApp.run trace s = Some s' ->
  NoDup (reduced_sent_ids trace) ->
  (forall id, id ∈ reduced_sent_ids trace -> id ∉ issued) ->
  exists issued', reduced_consistent issued' s'.
Proof.
  revert issued s. induction trace as [|[now e] trace IH];
    intros issued s C Hrun Hnd Hfresh.
  - injection Hrun as <-. exists issued. exact C.
  - cbn [SmartWallSocketApp.run] in Hrun.
    destruct (SmartWallSocketApp.step now e s) as [s1|] eqn:Hstep;
      [|discriminate].
    cbn [mbind option_bind] in Hrun.
    rewrite reduced_sent_ids_cons in *.
    apply NoDup_app in Hnd as (Hnd1 & Hdis & Hnd2).
    assert (C1 : reduced_consistent (reduced_sent_ids [(now, e)] ++ issued) s1).
    { eapply reduced_consistent_step; eauto.
      intros id Hid. apply Hfresh, elem_of_app. left. exact Hid. }
    apply (IH _ _ C1 Hrun Hnd2).
    intros id Hid [Hin|Hin]%elem_of_app.
    + apply (Hdis id Hin Hid).
    + apply (Hfresh id); [apply elem_of_app; right; exact Hid|exact Hin].
Qed.

(** C10. In the reduced screen, when the write of a command succeeds its
    promise, until then pending, is fulfilled at once, with no acknowledgment
    involved; the entry stays in the registry and a timer is set for 10
    seconds later. The entry is still there after every event that is not the
    timer (or a failed write, or a new send) of that same id, the timer cannot
    fire before the 10 seconds, and the promise stays fulfilled whatever
    happens. When the timer fires, the entry is removed and [reject] is
    called with the timeout error, which leaves the fulfilled promise as it
    is. In every state reached from the start by sends that generated
    different ids, a command whose timer is set and has not fired has its
    entry in the registry and its promise fulfilled. *)
Theorem sendCommand_resolves_on_write :
  (forall (now : Z) (h : nat) (s : Commands) (w : StoreWrite),
     findWrite h (writes s) = Some w -> promises s !! h = Some Pending ->
     exists s', SmartWallSocketApp.step now (SmartWallSocketApp.Written h) s
                  = Some s' /\
       promises s' !! h = Some (Fulfilled JUndefined) /\
       pendingCommands s' = pendingCommands s /\
       timers s' = timers s ++
         [{| timer_due := now + 10000; timer_id := write_id w;
             timer_type := write_type w; timer_promise := h |}]) /\
  (forall (now : Z) (e : SmartWallSocketApp.Event) (s s' : Commands)
          (id : string),
     SmartWallSocketApp.step now e s = Some s' -> ~ concerns id now e s ->
     pendingCommands s' !! id = pendingCommands s !! id) /\
  (forall (now : Z) (h : nat) (s : Commands),
     (forall t, t ∈ timers s -> timer_promise t = h -> now < timer_due t) ->
     SmartWallSocketApp.step now (SmartWallSocketApp.TimerFired h) s = None) /\
  (forall (trace : list (Z * SmartWallSocketApp.Event)) (s s' : Commands)
          (h : nat) (v : JsVal),
     SmartWallSocketApp.run trace s = Some s' ->
     promises s !! h = Some (Fulfilled v) -> (h < nextPromise s)%nat ->
     promises s' !! h = Some (Fulfilled v)) /\
  (forall (now : Z) (h : nat) (s s' : Commands) (t : Timer) (v : JsVal),
     findTimer h now (timers s) = Some t ->
     is_Some (pendingCommands s !! timer_id t) ->
     promises s !! h = Some (Fulfilled v) ->
     SmartWallSocketApp.step now (SmartWallSocketApp.TimerFired h) s
       = Some s' ->
     pendingCommands s' !! timer_id t = None /\
     calls s' =
       {| call_id := timer_id t; call_origin := ByTimeout; call_promise := h;
          call_outcome := RejectedWith (timeoutError (timer_type t)) |}
       :: calls s /\
     promises s' = promises s) /\
  (forall (trace : list (Z * SmartWallSocketApp.Event)) (s : Commands)
          (t : Timer),
     SmartWallSocketApp.run trace initialCommands = Some s ->
     NoDup (reduced_sent_ids trace) -> t ∈ timers s ->
     is_Some (pendingCommands s !! timer_id t) /\
     promises s !! timer_promise t = Some (Fulfilled JUndefined)).
Proof.
  split; [|split; [|split; [|split; [|split]]]].
  - intros now h s w Hw Hp.
    exists (SmartWallSocketApp.sendWritten now w s).
    cbn [SmartWallSocketApp.step]. rewrite Hw. split; [reflexivity|].
    apply findWrite_elem_of in Hw as [_ <-].
    unfold SmartWallSocketApp.sendWritten, armTimeout. fields.
    split; [apply settle_pending, Hp|]. split; reflexivity.
  - apply reduced_step_keeps_entry.
  - intros now h s Hnot. cbn [SmartWallSocketApp.step].
    destruct (findTimer h now (timers s)) as [t|] eqn:E; [|reflexivity].
    apply findTimer_elem_of in E as (Hin & Hp & Hdue).
    specialize (Hnot t Hin Hp). lia.
  - intros trace s s' h v Hrun Hp Hlt.
    eapply reduced_run_keeps_settled; eauto.
  - intros now h s s' t v Ht [cmd Hcmd] Hp Hstep.
    cbn [SmartWallSocketApp.step] in Hstep. rewrite Ht in Hstep.
    injection Hstep as <-.
    apply findTimer_elem_of in Ht as (_ & Hpr & _).
    unfold SmartWallSocketApp.timeoutCallback. fields. rewrite Hcmd. fields.
    split; [apply lookup_delete_eq|]. rewrite Hpr.
    split; [reflexivity|].
    apply (settle_settled h _ (Fulfilled v)); [exact Hp|discriminate].
  - intros trace s t Hrun Hnd Ht.
    destruct (reduced_consistent_run trace [] initialCommands s
                reduced_consistent_initial Hrun Hnd) as [issued C].
    { intros id _. apply not_elem_of_nil. }
    destruct (r_timers _ _ C t Ht) as (_ & _ & Hent & Hp). auto.
Qed.

Lemma sendCommand_resolves_on_write_witness :
  exists s s',
    SmartWallSocketApp.run sample_reduced_trace initialCommands = Some s /\
    promises s !! 0%nat = Some (Fulfilled JUndefined) /\
    is_Some (pendingCommands s !! "cmd_0_abcdefghi") /\
    SmartWallSocketApp.step 10199 (SmartWallSocketApp.TimerFired 0%nat) s
      = None /\
    SmartWallSocketApp.step 10200 (SmartWallSocketApp.TimerFired 0%nat) s
      = Some s' /\
    pendingCommands s' !! "cmd_0_abcdefghi" = None /\
    promises s' = promises s.
Proof.
  eexists. eexists.
  split; [vm_compute; reflexivity|].
  split; [reflexivity|].
  split; [eexists; vm_compute; reflexivity|].
  split; [reflexivity|].
  split; [vm_compute; reflexivity|].
  match goal with
  | |- pendingCommands ?s' !! _ = None /\ promises ?s' = promises ?s =>
      destruct (proj1 (proj2 (proj2 (proj2 (proj2
                  sendCommand_resolves_on_write))))
                  10200 0%nat s s'
                  {| timer_due := 10200; timer_id := "cmd_0_abcdefghi";
                     timer_type := "RELAY_CONTROL"; timer_promise := 0 |}
                  JUndefined)
        as (Hgone & _ & Hsame)
  end.
  - reflexivity.
  - eexists. vm_compute. reflexivity.
  - reflexivity.
  - reflexivity.
  - split; [exact Hgone|exact Hsame].
Defined.

(** ** Liveness monitor *)

Lemma last_cons_default {A : Type} (a d : A) (l : list A) :
  List.last (a :: l) d = List.last l a.
Proof.
  revert a d. induction l as [|b l IH]; intros a d; [reflexivity|].
  change (List.last (a :: b :: l) d) with (List.last (b :: l) d).
  rewrite (IH b d), (IH b a). reflexivity.
Qed.


Section LivenessProperties.
Context `{rt : JsRuntime}.



Lemma connectionCheck_state (now : Z) (s : Connectivity) :
  lastDataReceived (connectionCheck now s) = lastDataReceived s /\
  connectionRetryCount (connectionCheck now s) = connectionRetryCount s /\
  (isConnected (connectionCheck now s) = false <->
   isConnected s = false \/
   (0 < lastDataReceived s /\ 15000 < now - lastDataReceived s)).
Proof.
  unfold connectionCheck.
  destruct (Z.ltb_spec 0 (lastDataReceived s));
    destruct (Z.ltb_spec 15000 (now - lastDataReceived s));
    cbn [andb isConnected lastDataReceived connectionRetryCount];
    (split; [reflexivity|]); (split; [reflexivity|]);
    intuition (auto; lia).
Qed.



End LivenessProperties.



(** * Further properties of the code *)

(** ** Alert aggregator: which alerts are shown *)

Section AlertOrder.
Context `{rt : JsRuntime}.

(** X1. The list shown holds as many alerts as entries of the batch that are
    objects with a truthy type, message and timestamp, up to ten: no entry
    that passes is lost while the list has room. This unless the type, the
    message or the timestamp of an entry that passes cannot be converted (it
    is an object with an own property [toString], or an array that holds
    one): the conversion throws and the list shown is empty. *)
Theorem validateAlertData_count (data : JsVal) :
  length (validateAlertData data) =
  if existsb alert_throws (alerts_kept data) then 0%nat
  else Nat.min 10 (length (alerts_kept data)).
Proof.
  rewrite validateAlertData_alertArray, length_take, Array_sort_length.
  destruct (existsb alert_throws (alerts_kept data)) eqn:E.
  - rewrite alertArray_None by exact E. reflexivity.
  - rewrite (proj2 (alertArray_Some data E)). reflexivity.
Qed.

(** X2. When no conversion throws and the timestamps of the alerts kept are
    numbers, the alerts kept are all the entries that pass the filter, and
    the list shown is the first part of an arrangement of all of them that
    is sorted most recent first: it is sorted, and every alert left out is
    no more recent than any alert shown. *)
Theorem validateAlertData_most_recent (data : JsVal) :
  existsb alert_throws (alerts_kept data) = false ->
  Forall timestamp_is_number (alertArray data) ->
  mapM alert_map (alerts_kept data) = Some (alertArray data) /\
  exists rest,
    validateAlertData data ++ rest ≡ₚ alertArray data /\
    sorted_descending (validateAlertData data ++ rest) /\
    (rest <> [] -> length (validateAlertData data) = 10%nat).
Proof.
  intros Ht Hn. split; [apply alertArray_Some, Ht|].
  rewrite validateAlertData_alertArray.
  exists (drop 10 (Array_sort alert_compare (alertArray data))).
  rewrite take_drop. split; [apply Array_sort_Permutation|].
  split; [apply Array_sort_sorted, Hn|].
  intros Hrest. rewrite length_take.
  destruct (Nat.le_gt_cases (length (Array_sort alert_compare
                                       (alertArray data))) 10) as [Hl|Hl];
    [|lia].
  rewrite drop_ge in Hrest by exact Hl. congruence.
Qed.
End AlertOrder.

Lemma validateAlertData_most_recent_witness :
  mapM (alert_map (rt := sample_runtime)) (alerts_kept sample_alert_batch) =
    Some (alertArray (rt := sample_runtime) sample_alert_batch) /\
  exists rest,
    validateAlertData (rt := sample_runtime) sample_alert_batch ++ rest ≡ₚ
      alertArray (rt := sample_runtime) sample_alert_batch /\
    sorted_descending
      (validateAlertData (rt := sample_runtime) sample_alert_batch ++ rest) /\
    (rest <> [] ->
     length (validateAlertData (rt := sample_runtime) sample_alert_batch) =
     10%nat).
Proof.
  apply (validateAlertData_most_recent (rt := sample_runtime)
           sample_alert_batch).
  - reflexivity.
  - repeat constructor.
Defined.

Lemma same_time_not_greater (t : number) (x y : AlertData) :
  same_time t x = true -> same_time t y = true ->
  num_gt (alert_compare x y) zero = false.
Proof.
  unfold same_time, alert_compare, num_gt, num_sub.
  destruct (alert_timestamp x) as [| |qx|], (alert_timestamp y) as [| |qy|], t;
    cbn [num_eq num_neg num_add num_lt zero num_of_Z]; try discriminate;
    try reflexivity.
  intros Hx Hy. apply Qeq_bool_iff in Hx, Hy.
  apply Qlt_bool_false_iff.
  assert (E : (qy + - qx == 0)%Q).
  { rewrite Hx, Hy. apply Qplus_opp_r. }
  rewrite E. apply Qle_refl.
Qed.

Lemma sort_insert_same_time (t : number) (x : AlertData) (l : list AlertData) :
  filter (same_time t) (sort_insert alert_compare x l) =
  filter (same_time t) (x :: l).
Proof.
  induction l as [|y l IH]; [reflexivity|].
  cbn [sort_insert].
  destruct (num_gt (alert_compare x y) zero) eqn:E; [|reflexivity].
  rewrite filter_cons, IH, !filter_cons.
  destruct (same_time t x) eqn:Ex, (same_time t y) eqn:Ey;
    cbn [Is_true]; try reflexivity.
  rewrite (same_time_not_greater t x y Ex Ey) in E. discriminate.
Qed.

Lemma Array_sort_same_time (t : number) (l : list AlertData) :
  filter (same_time t) (Array_sort alert_compare l) = filter (same_time t) l.
Proof.
  induction l as [|x l IH]; [reflexivity|].
  cbn [Array_sort]. rewrite sort_insert_same_time, !filter_cons, IH.
  reflexivity.
Qed.

(** X3. When the timestamps of the alerts kept are numbers, alerts with the
    same timestamp are shown in the order of the batch: the alerts of time
    [t] in the list shown are the first alerts of time [t] among those kept,
    in the same order. The comparison of the alerts is then a consistent
    ordering, for which the result of a stable sort is determined. *)
Theorem validateAlertData_stable `{rt : JsRuntime} (data : JsVal) (t : number) :
  Forall timestamp_is_number (alertArray data) ->
  filter (same_time t) (validateAlertData data) `prefix_of`
  filter (same_time t) (alertArray data).
Proof.
  intros _. rewrite validateAlertData_alertArray.
  rewrite <- (Array_sort_same_time t (alertArray data)).
  rewrite <- (take_drop 10 (Array_sort alert_compare (alertArray data))) at 2.
  rewrite filter_app. apply prefix_app_r. reflexivity.
Qed.

Lemma validateAlertData_stable_witness :
  filter (same_time (Fin 1700000300))
    (validateAlertData (rt := sample_runtime) sample_alert_batch)
  `prefix_of`
  filter (same_time (Fin 1700000300))
    (alertArray (rt := sample_runtime) sample_alert_batch).
Proof.
  apply (validateAlertData_stable (rt := sample_runtime) sample_alert_batch
           (Fin 1700000300)).
  repeat constructor.
Defined.

(** ** Telemetry sanitizer: validating twice *)

Lemma Math_max_zero_again (x : number) :
  Math_max zero (Math_max zero x) = Math_max zero x.
Proof.
  destruct x as [| |q|]; try reflexivity.
  unfold Math_max, zero, num_of_Z. cbn [num_lt].
  destruct (Qlt_bool (inject_Z 0) q) eqn:E.
  - cbn [num_lt]. rewrite E. reflexivity.
  - reflexivity.
Qed.

Section SanitizerAgain.
Context `{rt : JsRuntime}.

Lemma parseNumeric_number (x : number) (name : string) (d : number) :
  isNaN x = false -> parseNumeric (JNum x) name d = Some x.
Proof.
  intros H. unfold parseNumeric. cbn [ToNumber mbind option_bind].
  rewrite H. reflexivity.
Qed.

Lemma parseNumeric_clamped_again (v : JsVal) (name name' : string)
    (d d' r : number) :
  isNaN d = false ->
  Math_max zero <$> parseNumeric v name d = Some r ->
  Math_max zero <$> parseNumeric (JNum r) name' d' = Some r.
Proof.
  intros Hd H.
  rewrite parseNumeric_number
    by (eapply parseNumeric_clamped_not_NaN; eassumption).
  apply fmap_Some in H as (x & _ & ->).
  cbn [fmap option_fmap option_map]. rewrite Math_max_zero_again.
  reflexivity.
Qed.

Lemma parseTimestamp_again (v : JsVal) (t1 t1' t2 : Z) (r : number) :
  parseTimestamp v t1 t2 = Some r ->
  parseTimestamp (JNum r) t1' t2 = Some r.
Proof.
  intros H.
  destruct (parseTimestamp_stamped v t1 t2 r H) as (x & _ & _ & _ & Hlo & Hhi).
  pose proof (parseTimestamp_not_NaN v t1 t2 r H) as Hn.
  unfold parseTimestamp. rewrite parseNumeric_number by exact Hn.
  cbn [mbind option_bind]. fold (earliest t2). fold (latest t2).
  unfold num_gt.
  rewrite num_le_negb_lt in Hlo, Hhi.
  - apply negb_true_iff in Hlo, Hhi. rewrite Hlo, Hhi. reflexivity.
  - exact Hn.
  - apply latest_not_NaN.
  - apply earliest_not_NaN.
  - exact Hn.
Qed.

Lemma lastCommandId_again (s : string) :
  ToString (js_or (JStr s) (JStr "")) = Some s.
Proof.
  unfold js_or. cbn [truthy].
  destruct (String.eqb_spec s ""); cbn [negb ToString]; congruence.
Qed.
End SanitizerAgain.

(** X4. A validated record that goes through the validator again, at the
    same readings of the clock, comes out unchanged: every field of the
    result is already a value the validator accepts as it is. *)
Theorem validateTelemetryData_idempotent `{rt : JsRuntime}
    (clk : nat -> Z) (data : JsVal) (st : TelemetryData) :
  validateTelemetryData clk data = Some st ->
  validateTelemetryData clk (telemetry_value st) = Some st.
Proof.
  intros H. apply validateTelemetryData_Some in H. cbv zeta in H.
  destruct H as (_ & Hc & Hp & Hv & He & _ & _ & Ht & Hh & Hw & Hx & Hth &
                 _ & _ & _ & _ & Hl).
  apply validateTelemetryData_Some. split; [reflexivity|].
  cbv zeta. unfold telemetry_value.
  repeat match goal with
  | |- context [get_prop (JObj ?l) ?k] =>
      let v := eval cbv [get_prop assoc String.eqb Ascii.eqb Bool.eqb] in
               (get_prop (JObj l) k) in
      change (get_prop (JObj l) k) with v
  end.
  rewrite (parseNumeric_clamped_again _ _ _ zero _ _ eq_refl Hc),
    (parseNumeric_clamped_again _ _ _ zero _ _ eq_refl Hp),
    (parseNumeric_clamped_again _ _ _ zero _ _ eq_refl He),
    (parseNumeric_clamped_again _ _ _ zero _ _ eq_refl Hw),
    (parseNumeric_clamped_again _ _ _ zero _ _ eq_refl Hx),
    (parseNumeric_clamped_again _ _ _ (num_of_Z 10) _ _ eq_refl Hth),
    (parseTimestamp_again _ _ _ _ _ Ht), (parseTimestamp_again _ _ _ _ _ Hh),
    (parseNumeric_number (voltage st))
      by (eapply (parseNumeric_not_NaN _ _ (num_of_Z 230)), Hv; reflexivity).
  rewrite (parseNumeric_number (lastCommandTime st))
      by (eapply (parseNumeric_not_NaN _ _ zero), Hl; reflexivity).
  rewrite lastCommandId_again.
  repeat split.
Qed.

Lemma validateTelemetryData_idempotent_witness :
  exists st,
    validateTelemetryData (rt := sample_runtime) (fun _ => 1700000000000)
      sample_telemetry = Some st /\
    validateTelemetryData (rt := sample_runtime) (fun _ => 1700000000000)
      (telemetry_value st) = Some st.
Proof.
  eexists. split; [reflexivity|].
  apply (validateTelemetryData_idempotent (rt := sample_runtime)
           (fun _ => 1700000000000) sample_telemetry).
  reflexivity.
Defined.

(** ** Telemetry sanitizer: the two screens *)

Section TwoValidators.
Context `{rt : JsRuntime}.

Lemma reduced_parseNumeric (v : JsVal) (name : string) (d : number) :
  IndexTsx.parseNumeric v d = parseNumeric v name d.
Proof. reflexivity. Qed.

Lemma reduced_parseBoolean (v : JsVal) (name : string) :
  IndexTsx.parseBoolean v false =
  parseBoolean v name false &&
  match typeof v with TBoolean => true | _ => false end.
Proof.
  destruct v; cbn [IndexTsx.parseBoolean parseBoolean typeof];
    rewrite ?andb_true_r, ?andb_false_r; reflexivity.
Qed.

(** What a record accepted by the reduced screen is made of. *)
Lemma reduced_validateTelemetryData_Some (now : Z) (data : JsVal)
    (r : IndexTsx.TelemetryData) :
  IndexTsx.validateTelemetryData now data = Some r <->
  is_record data = true /\
  let f := get_prop data in
  Math_max zero <$> IndexTsx.parseNumeric (f "current") zero =
    Some (IndexTsx.current r) /\
  Math_max zero <$> IndexTsx.parseNumeric (f "power") zero =
    Some (IndexTsx.power r) /\
  IndexTsx.parseNumeric (f "voltage") (num_of_Z 230) =
    Some (IndexTsx.voltage r) /\
  Math_max zero <$> IndexTsx.parseNumeric (f "energy") zero =
    Some (IndexTsx.energy r) /\
  IndexTsx.relayState r = IndexTsx.parseBoolean (f "relayState") false /\
  IndexTsx.parseNumeric (f "timestamp") (seconds_of_ms now) =
    Some (IndexTsx.timestamp r).
Proof.
  unfold IndexTsx.validateTelemetryData.
  assert (Hrec : negb (truthy data) || negb (is_object_type (typeof data)) =
                 negb (is_record data))
    by (destruct data; simpl; rewrite ?orb_true_r; reflexivity).
  rewrite Hrec. clear Hrec.
  destruct (is_record data); cbn [negb];
    [|split; [discriminate|intros [H _]; discriminate H]].
  cbv zeta.
  repeat match goal with
  | |- context [mbind _ ?m] =>
      let o := fresh "o" in
      remember m as o eqn:E; clear E; destruct o as [?x|];
      cbn [mbind option_bind];
      [|split; [discriminate|intros H; decompose [and] H; discriminate]]
  end.
  destruct r. cbn. split.
  - intros H. apply (inj Some) in H. injection H as <- <- <- <- <- <-.
    repeat split.
  - intros H. decompose [and] H. repeat
      match goal with E : Some _ = Some _ |- _ => apply (inj Some) in E end.
    subst. reflexivity.
Qed.

Lemma parseNumeric_is_Some (v : JsVal) (name : string) (d : number) :
  throws_on_conversion v = false -> is_Some (parseNumeric v name d).
Proof.
  intros H. destruct (parseNumeric v name d) eqn:E; [eauto|].
  apply parseNumeric_None in E. congruence.
Qed.

(** A record accepted by the full screen is accepted by the reduced screen,
    with the same current, power, voltage and energy. *)
Lemma reduced_accepts (now : Z) (clk : nat -> Z) (data : JsVal)
    (st : TelemetryData) :
  validateTelemetryData clk data = Some st ->
  exists r, IndexTsx.validateTelemetryData now data = Some r /\
    IndexTsx.current r = current st /\
    IndexTsx.power r = power st /\
    IndexTsx.voltage r = voltage st /\
    IndexTsx.energy r = energy st /\
    IndexTsx.relayState r =
      relayState st &&
      match typeof (get_prop data "relayState") with
      | TBoolean => true
      | _ => false
      end.
Proof.
  intros H. apply validateTelemetryData_Some in H. cbv zeta in H.
  destruct H as (Hrec & Hc & Hp & Hv & He & Hr & _ & Ht & _).
  apply (Some_not_None _ _ _ (parseTimestamp_None _ _ _)) in Ht.
  destruct (parseNumeric_is_Some _ "timestamp" (seconds_of_ms now) Ht)
    as [ts Hts].
  exists {| IndexTsx.current := current st; IndexTsx.power := power st;
            IndexTsx.voltage := voltage st; IndexTsx.energy := energy st;
            IndexTsx.relayState :=
              IndexTsx.parseBoolean (get_prop data "relayState") false;
            IndexTsx.timestamp := ts |}.
  split.
  - apply reduced_validateTelemetryData_Some.
    split; [exact Hrec|]. cbv zeta.
    cbn [IndexTsx.current IndexTsx.power IndexTsx.voltage IndexTsx.energy
         IndexTsx.relayState IndexTsx.timestamp].
    split; [exact Hc|]. split; [exact Hp|]. split; [exact Hv|].
    split; [exact He|]. split; [reflexivity|exact Hts].
  - cbn. rewrite Hr. repeat split.
    apply reduced_parseBoolean.
Qed.
End TwoValidators.

(** X5. Every value that the validator of the full screen accepts, the
    validator of the reduced screen accepts too, and it gives the same
    current, power, voltage and energy. The relay state of the reduced
    screen is that of the full screen when the raw value is a boolean, and
    [false] on every other raw value: a string or a number never switches
    the reduced screen on. The reduced screen accepts more: it converts
    five fields where the full screen converts eleven, and a record of which
    one of the other six cannot be converted is accepted by the reduced
    screen and rejected by the full screen. *)
Theorem validateTelemetryData_reduced_agrees `{rt : JsRuntime}
    (now : Z) (clk : nat -> Z) (data : JsVal) :
  match validateTelemetryData clk data,
        IndexTsx.validateTelemetryData now data with
  | Some st, Some r =>
      IndexTsx.current r = current st /\
      IndexTsx.power r = power st /\
      IndexTsx.voltage r = voltage st /\
      IndexTsx.energy r = energy st /\
      IndexTsx.relayState r =
        relayState st &&
        match typeof (get_prop data "relayState") with
        | TBoolean => true
        | _ => false
        end
  | Some _, None => False
  | None, _ => True
  end /\
  validateTelemetryData clk record_with_unconvertible_heartbeat = None /\
  is_Some (IndexTsx.validateTelemetryData now
             record_with_unconvertible_heartbeat).
Proof.
  split; [|split; [reflexivity|]].
  - destruct (validateTelemetryData clk data) as [st|] eqn:E; [|exact I].
    destruct (reduced_accepts now clk data st E) as (r & -> & H). exact H.
  - eexists. reflexivity.
Qed.

(** ** Schedule planner: what is written *)

(** X6. In a zone whose offset is constant: with one reading of the clock,
    two strings of the accepted format are never rejected, and the record
    written starts no earlier than the second of the reading, at most 24
    hours after it, and lasts a whole number of minutes, from one minute to
    24 hours. *)
Theorem plan_whole_minutes (tz : Z) (s e : string) (now : Z) :
  validateTimeFormat s = true -> validateTimeFormat e = true ->
  exists startTime endTime,
    plan (fixed_zone tz) s e now = ScheduleWrite true startTime endTime /\
    now / 1000 <= startTime <= now / 1000 + 86400 /\
    60 <= endTime - startTime <= 86400 /\
    (endTime - startTime) mod 60 = 0.
Proof.
  intros Hs He. unfold plan.
  destruct (handleScheduleSet_validated tz s e now now Hs He)
    as (S & E0 & _ & _ & (hs & ms & [HS HSm]) & (he & me & [HE HEm]) & Hrun).
  exists (S / 1000), (rolled_end S E0 / 1000).
  assert (Hspan : 0 < rolled_end S E0 - S <= msPerDay).
  { unfold rolled_end. destruct (Z.leb_spec E0 S); lia. }
  assert (Hmin : exists k, rolled_end S E0 = S + 60000 * k).
  { assert (HS60 : (S + tz) mod 60000 = 0).
    { revert HSm. change msPerDay with (60000 * 1440).
      intros HSm. Z.to_euclidean_division_equations. lia. }
    assert (HE60 : (E0 + tz) mod 60000 = 0).
    { revert HEm. change msPerDay with (60000 * 1440).
      intros HEm. Z.to_euclidean_division_equations. lia. }
    unfold rolled_end. change msPerDay with 86400000.
    destruct (E0 <=? S);
      [exists ((E0 + tz) / 60000 - (S + tz) / 60000 + 1440)
      |exists ((E0 + tz) / 60000 - (S + tz) / 60000)];
      Z.to_euclidean_division_equations; lia. }
  destruct Hmin as [k Hk].
  split.
  { rewrite Hrun.
    destruct (Z.ltb_spec msPerDay (rolled_end S E0 - S)); [lia|reflexivity]. }
  rewrite Hk in *. revert Hspan HS. change msPerDay with 86400000.
  intros Hspan HS.
  repeat split; Z.to_euclidean_division_equations; lia.
Qed.

Lemma plan_whole_minutes_witness :
  exists startTime endTime,
    plan (fixed_zone 3600000) "08:30" " 17:45 " 1700000000000 =
      ScheduleWrite true startTime endTime /\
    1700000000000 / 1000 <= startTime <= 1700000000000 / 1000 + 86400 /\
    60 <= endTime - startTime <= 86400 /\
    (endTime - startTime) mod 60 = 0.
Proof.
  apply (plan_whole_minutes 3600000 "08:30" " 17:45 " 1700000000000);
    reflexivity.
Defined.

(** X7. Two strings of the accepted format that resolve to the same time,
    as the same string given twice does, are not rejected and do not give an
    empty schedule: the end is moved a day later and the record written
    lasts exactly 24 hours. This holds in every zone. *)
Theorem plan_same_time_full_day (zone : TimeZone) (s e : string) (now : Z) :
  validateTimeFormat s = true -> validateTimeFormat e = true ->
  parseTimeToTimestamp zone now s = parseTimeToTimestamp zone now e ->
  exists startTime,
    plan zone s e now = ScheduleWrite true startTime (startTime + 86400).
Proof.
  intros Hs He Heq. unfold plan.
  destruct (handleScheduleSet_resolved zone s e now now Hs He)
    as (hs & ms & he & me & _ & _ & HS & HE & Hrun).
  cbv zeta in Hrun.
  set (S := resolve_time zone now hs ms) in *.
  set (E0 := resolve_time zone now he me) in *.
  rewrite Heq, HE in HS. injection HS as HS.
  clearbody S E0. subst E0.
  exists (S / 1000). rewrite Hrun. unfold rolled_end.
  rewrite Z.leb_refl. change msPerDay with 86400000.
  destruct (Z.ltb_spec 86400000 (S + 86400000 - S)); [lia|].
  f_equal. Z.to_euclidean_division_equations. lia.
Qed.

Lemma plan_same_time_full_day_witness :
  exists startTime,
    plan (fixed_zone 3600000) "9:00" "09:00" 1700000000000 =
      ScheduleWrite true startTime (startTime + 86400).
Proof.
  apply (plan_same_time_full_day (fixed_zone 3600000) "9:00" "09:00"
           1700000000000);
    reflexivity.
Defined.

(** X8. The quick schedule rejects a duration that is not from 1 to 1440
    minutes and writes nothing; on every other duration it writes an active
    schedule that starts at the second of the clock reading and lasts the
    duration, from 60 seconds to the 24 hours that the planner allows. *)
Theorem handleQuickSchedule_span (minutes now : Z) :
  match handleQuickSchedule minutes now with
  | InvalidDuration => minutes <= 0 \/ 1440 < minutes
  | QuickScheduleWrite active startTime endTime =>
      1 <= minutes <= 1440 /\ active = true /\
      startTime * 1000 <= now < (startTime + 1) * 1000 /\
      endTime - startTime = minutes * 60 /\
      60 <= endTime - startTime /\
      (endTime - startTime) * 1000 <= msPerDay
  end.
Proof.
  unfold handleQuickSchedule. change msPerDay with 86400000.
  destruct (Z.leb_spec minutes 0), (Z.ltb_spec 1440 minutes); cbn [orb];
    try lia.
  repeat split; try lia; Z.to_euclidean_division_equations; lia.
Qed.

(** ** Command registry: a settled handle stays as it is *)

Lemma foldr_invoke_keeps_settled (cs : list Call) (s : Commands) (h : nat)
    (o : PromiseState) :
  promises s !! h = Some o -> o <> Pending ->
  promises (foldr invoke s cs) !! h = Some o.
Proof.
  intros Hh Ho. induction cs as [|c cs IH]; cbn [foldr]; fields; [exact Hh|].
  apply settle_keeps_settled; assumption.
Qed.

Lemma processAck_keeps_settled (now : Z) (s : Commands) (ack : JsVal)
    (h : nat) (o : PromiseState) :
  promises s !! h = Some o -> o <> Pending ->
  promises (processAck now s ack) !! h = Some o.
Proof.
  intros Hh Ho. rewrite processAck_cases.
  destruct (ack_key ack) as [id|]; [|exact Hh].
  destruct (pendingCommands s !! id); [|exact Hh].
  fields. apply settle_keeps_settled; assumption.
Qed.

Lemma processAck_nextPromise (now : Z) (s : Commands) (ack : JsVal) :
  nextPromise (processAck now s ack) = nextPromise s.
Proof.
  rewrite processAck_cases.
  destruct (ack_key ack) as [id|]; [|reflexivity].
  destruct (pendingCommands s !! id); reflexivity.
Qed.

Lemma onAckSnapshot_keeps_settled (now : Z) (data : JsVal) (s : Commands)
    (h : nat) (o : PromiseState) :
  promises s !! h = Some o -> o <> Pending ->
  promises (onAckSnapshot now data s) !! h = Some o.
Proof.
  intros Hh Ho. unfold onAckSnapshot.
  destruct (truthy data && is_object_type (typeof data)); [|exact Hh].
  revert s Hh. induction (Object_values data) as [|ack acks IH];
    intros s Hh; [exact Hh|].
  cbn [foldl]. apply IH, processAck_keeps_settled; assumption.
Qed.

Lemma onAckSnapshot_nextPromise (now : Z) (data : JsVal) (s : Commands) :
  nextPromise (onAckSnapshot now data s) = nextPromise s.
Proof.
  unfold onAckSnapshot.
  destruct (truthy data && is_object_type (typeof data)); [|reflexivity].
  revert s. induction (Object_values data) as [|ack acks IH]; intros s;
    [reflexivity|].
  cbn [foldl]. rewrite IH. apply processAck_nextPromise.
Qed.

Lemma step_keeps_settled (now : Z) (e : Event) (s s' : Commands) (h : nat)
    (o : PromiseState) :
  step now e s = Some s' ->
  promises s !! h = Some o -> o <> Pending -> (h < nextPromise s)%nat ->
  promises s' !! h = Some o /\ (h < nextPromise s')%nat.
Proof.
  intros Hstep Hh Ho Hlt. destruct e as [rnd ty|h'|h' err|h'|data|];
    cbn [step] in Hstep.
  - injection Hstep as <-. unfold sendStart. fields.
    rewrite lookup_insert_ne by lia. split; [exact Hh|lia].
  - destruct (findWrite h' (writes s)) as [w|]; [|discriminate].
    injection Hstep as <-. unfold armTimeout. fields. split; assumption.
  - destruct (findWrite h' (writes s)) as [w|]; [|discriminate].
    injection Hstep as <-. unfold sendFailed. fields.
    split; [|exact Hlt]. apply settle_keeps_settled; assumption.
  - destruct (findTimer h' now (timers s)) as [t|]; [|discriminate].
    injection Hstep as <-. unfold timeoutCallback. fields.
    destruct (pendingCommands s !! timer_id t); fields;
      [|split; assumption].
    split; [|exact Hlt]. apply settle_keeps_settled; assumption.
  - injection Hstep as <-. rewrite onAckSnapshot_nextPromise.
    split; [|exact Hlt]. apply onAckSnapshot_keeps_settled; assumption.
  - injection Hstep as <-. unfold sweep.
    match goal with
    | |- context [foldr invoke ?s0 ?cs] =>
        destruct (foldr_invoke_fields cs s0) as (_ & -> & _)
    end.
    split; [|exact Hlt]. apply foldr_invoke_keeps_settled; assumption.
Qed.

(** On the full screen a handle that is resolved or rejected stays so. *)
Lemma run_keeps_settled (trace : list (Z * Event)) (s s' : Commands)
    (h : nat) (o : PromiseState) :
  run trace s = Some s' ->
  promises s !! h = Some o -> o <> Pending -> (h < nextPromise s)%nat ->
  promises s' !! h = Some o.
Proof.
  revert s. induction trace as [|[now e] trace IH]; intros s Hrun Hh Ho Hlt.
  - injection Hrun as <-. exact Hh.
  - cbn [run] in Hrun.
    destruct (step now e s) as [s1|] eqn:Hstep; [|discriminate].
    cbn [mbind option_bind] in Hrun.
    destruct (step_keeps_settled now e s s1 h o Hstep Hh Ho Hlt)
      as [Hh1 Hlt1].
    apply (IH s1 Hrun Hh1 Ho Hlt1).
Qed.


(** ** Command registry: the clean-up *)

Lemma sweep_nothing_old (now : Z) (s : Commands) :
  (forall k cmd, pendingCommands s !! k = Some cmd ->
                 now - cmd_timestamp cmd <= 15000) ->
  sweep now s = s.
Proof.
  intros Hyoung. unfold sweep.
  assert (Hold : filter (fun entry => expired now entry.2 = true)
                   (pendingCommands s) = ∅).
  { apply map_empty. intros k. apply map_lookup_filter_None. right.
    intros cmd Hk. cbn [snd]. unfold expired.
    specialize (Hyoung k cmd Hk).
    destruct (Z.ltb_spec 15000 (now - cmd_timestamp cmd)); [lia|discriminate]. }
  rewrite Hold, map_to_list_empty. cbn [fmap list_fmap foldr].
  unfold setPendingCommands. rewrite map_filter_id.
  - destruct s; reflexivity.
  - intros k cmd Hk. cbn [snd]. unfold expired.
    specialize (Hyoung k cmd Hk).
    destruct (Z.ltb_spec 15000 (now - cmd_timestamp cmd)); [lia|reflexivity].
Qed.

(** X10. The clean-up does nothing to a registry in which no entry is older
    than 15 seconds, and after a clean-up no entry is older than 15 seconds:
    so a second clean-up, at the same time or earlier, changes nothing. *)
Theorem sweep_idempotent (now now' : Z) (s : Commands) :
  now' <= now ->
  (forall k cmd, pendingCommands (sweep now s) !! k = Some cmd ->
     pendingCommands s !! k = Some cmd /\ now - cmd_timestamp cmd <= 15000) /\
  sweep now' (sweep now s) = sweep now s.
Proof.
  intros Hle.
  assert (Hyoung : forall k cmd,
    pendingCommands (sweep now s) !! k = Some cmd ->
    pendingCommands s !! k = Some cmd /\ now - cmd_timestamp cmd <= 15000).
  { intros k cmd [Hk Hexp]%sweep_pending. split; [exact Hk|].
    unfold expired in Hexp.
    destruct (Z.ltb_spec 15000 (now - cmd_timestamp cmd)); [discriminate|lia]. }
  split; [exact Hyoung|].
  apply sweep_nothing_old. intros k cmd Hk.
  destruct (Hyoung k cmd Hk) as [_ H]. lia.
Qed.

Lemma sweep_idempotent_witness :
  exists s,
    run sample_waiting_trace initialCommands = Some s /\
    sweep 5500 (sweep 16000 s) = sweep 16000 s.
Proof.
  eexists. split; [vm_compute; reflexivity|].
  refine (proj2 (sweep_idempotent 16000 5500 _ _)). lia.
Defined.

(** ** Command registry: no handle is left behind *)

Lemma settle_Pending_inv (h h' : nat) (o : PromiseState)
    (ps : gmap nat PromiseState) :
  o <> Pending -> settle h o ps !! h' = Some Pending ->
  h' <> h /\ ps !! h' = Some Pending.
Proof.
  intros Ho. unfold settle.
  destruct (ps !! h) as [[]|] eqn:E; intros H;
    try (split; [intros ->; congruence|exact H]).
  destruct (decide (h' = h)) as [->|Hne].
  - rewrite lookup_insert_eq in H. congruence.
  - rewrite lookup_insert_ne in H by congruence. split; assumption.
Qed.

Lemma covered_retire (k : string) (o : Origin) (cmd : PendingCommand)
    (outcome : PromiseState) (s : Commands) :
  outcome <> Pending -> pendingCommands s !! k = Some cmd ->
  covered s -> covered (retire k o cmd outcome s).
Proof.
  intros Ho Hk Hcov h Hh. unfold retire in *. fields.
  apply settle_Pending_inv in Hh as [Hne Hp]; [|exact Ho].
  destruct (Hcov h Hp) as (k' & cmd' & Hk' & Hc').
  exists k', cmd'. split; [|exact Hc'].
  rewrite lookup_delete_ne; [exact Hk'|].
  intros ->. rewrite Hk' in Hk. congruence.
Qed.

Lemma covered_timeoutCallback (t : Timer) (s : Commands) :
  covered s -> covered (timeoutCallback t s).
Proof.
  intros Hcov. unfold timeoutCallback.
  destruct (pendingCommands s !! timer_id t) as [cmd|] eqn:E; [|exact Hcov].
  apply (covered_retire (timer_id t) ByTimeout cmd); [discriminate|exact E|].
  exact Hcov.
Qed.

Lemma covered_processAck (now : Z) (s : Commands) (ack : JsVal) :
  covered s -> covered (processAck now s ack).
Proof.
  intros Hcov. rewrite processAck_cases.
  destruct (ack_key ack) as [id|]; [|exact Hcov].
  destruct (pendingCommands s !! id) as [cmd|] eqn:E; [|exact Hcov].
  pose proof (covered_retire id ByAck cmd (Fulfilled ack) s) as H.
  intros h Hh. apply H; [discriminate|exact E|exact Hcov|exact Hh].
Qed.

Lemma covered_onAckSnapshot (now : Z) (data : JsVal) (s : Commands) :
  covered s -> covered (onAckSnapshot now data s).
Proof.
  unfold onAckSnapshot.
  destruct (truthy data && is_object_type (typeof data)); [|auto].
  revert s. induction (Object_values data) as [|ack acks IH]; intros s Hcov;
    [exact Hcov|].
  cbn [foldl]. apply IH, covered_processAck, Hcov.
Qed.

Lemma foldr_invoke_Pending_inv (cs : list Call) (s : Commands) (h : nat) :
  (forall c, c ∈ cs -> call_outcome c <> Pending) ->
  promises (foldr invoke s cs) !! h = Some Pending ->
  promises s !! h = Some Pending /\ forall c, c ∈ cs -> call_promise c <> h.
Proof.
  induction cs as [|c cs IH]; intros Ho H; cbn [foldr] in H; fields.
  - split; [exact H|]. intros c Hc. inversion Hc.
  - apply settle_Pending_inv in H as [Hne H]; [|apply Ho; left].
    destruct IH as [Hp Hcs]; [intros c' Hc'; apply Ho; right; exact Hc'|exact H|].
    split; [exact Hp|].
    intros c' [->|Hc']%elem_of_cons; [congruence|apply Hcs, Hc'].
Qed.

Lemma covered_sweep (now : Z) (s : Commands) :
  covered s -> covered (sweep now s).
Proof.
  intros Hcov h Hh.
  assert (Hinv : promises s !! h = Some Pending /\
    forall c, c ∈ expireCall <$> map_to_list
                (filter (fun entry => expired now entry.2 = true)
                   (pendingCommands s)) -> call_promise c <> h).
  { unfold sweep in Hh.
    apply foldr_invoke_Pending_inv in Hh; [exact Hh|].
    intros c ([k cmd] & -> & _)%list_elem_of_fmap. discriminate. }
  destruct Hinv as [Hp Hcs].
  destruct (Hcov h Hp) as (k & cmd & Hk & Hc).
  exists k, cmd. split; [|exact Hc].
  apply sweep_pending. split; [exact Hk|].
  destruct (expired now cmd) eqn:E; [|reflexivity].
  exfalso. apply (Hcs (expireCall (k, cmd))); [|exact Hc].
  apply list_elem_of_fmap. exists (k, cmd). split; [reflexivity|].
  apply elem_of_map_to_list, map_lookup_filter_Some. split; assumption.
Qed.

Lemma covered_step (issued : list string) (now : Z) (e : Event)
    (s s' : Commands) :
  consistent issued s -> covered s -> step now e s = Some s' ->
  (forall id, id ∈ sent_ids [(now, e)] -> id ∉ issued) ->
  covered s'.
Proof.
  intros C Hcov Hstep Hfresh. destruct e as [rnd ty|h|h err|h|data|];
    cbn [step] in Hstep.
  - injection Hstep as <-. intros h Hh. unfold sendStart in *. fields.
    destruct (decide (h = nextPromise s)) as [->|Hne].
    + eexists _, _. split; [apply lookup_insert_eq|reflexivity].
    + rewrite lookup_insert_ne in Hh by congruence.
      destruct (Hcov h Hh) as (k & cmd & Hk & Hc).
      exists k, cmd. split; [|exact Hc].
      rewrite lookup_insert_ne; [exact Hk|].
      intros <-.
      destruct (c_unissued _ _ C (generateCommandId now rnd)) as [Hnone _].
      { apply Hfresh. cbn. left. }
      congruence.
  - destruct (findWrite h (writes s)) as [w|] eqn:E; [|discriminate].
    injection Hstep as <-. exact Hcov.
  - destruct (findWrite h (writes s)) as [w|] eqn:E; [|discriminate].
    injection Hstep as <-. apply findWrite_elem_of in E as [Hin _].
    intros h' Hh. unfold sendFailed in *. fields.
    apply settle_Pending_inv in Hh as [Hne Hp]; [|discriminate].
    destruct (Hcov h' Hp) as (k & cmd & Hk & Hc).
    exists k, cmd. split; [|exact Hc].
    rewrite lookup_delete_ne; [exact Hk|].
    intros <-.
    destruct (c_writes _ _ C w Hin) as (_ & _ & Hw).
    destruct (Hw (write_id w) cmd Hk) as [_ Hw2].
    destruct (Hw2 eq_refl) as [Hw3 _]. congruence.
  - destruct (findTimer h now (timers s)) as [t|] eqn:E; [|discriminate].
    injection Hstep as <-. apply covered_timeoutCallback. exact Hcov.
  - injection Hstep as <-. apply covered_onAckSnapshot, Hcov.
  - injection Hstep as <-. apply covered_sweep, Hcov.
Qed.

Lemma covered_run (trace : list (Z * Event)) (issued : list string)
    (s s' : Commands) :
  consistent issued s -> covered s -> run trace s = Some s' ->
  NoDup (sent_ids trace) ->
  (forall id, id ∈ sent_ids trace -> id ∉ issued) ->
  covered s'.
Proof.
  revert issued s. induction trace as [|[now e] trace IH];
    intros issued s C Hcov Hrun Hnd Hfresh.
  - injection Hrun as <-. exact Hcov.
  - cbn [run] in Hrun.
    destruct (step now e s) as [s1|] eqn:Hstep; [|discriminate].
    cbn [mbind option_bind] in Hrun.
    rewrite sent_ids_cons in *.
    apply NoDup_app in Hnd as (Hnd1 & Hdis & Hnd2).
    assert (Hf1 : forall id, id ∈ sent_ids [(now, e)] -> id ∉ issued).
    { intros id Hid. apply Hfresh, elem_of_app. left. exact Hid. }
    assert (C1 : consistent (sent_ids [(now, e)] ++ issued) s1)
      by (eapply consistent_step; eauto).
    assert (Hcov1 : covered s1)
      by (apply (covered_step issued now e s s1 C Hcov Hstep Hf1)).
    apply (IH _ _ C1 Hcov1 Hrun Hnd2).
    intros id Hid [Hin|Hin]%elem_of_app.
    + apply (Hdis id Hin Hid).
    + apply (Hfresh id); [apply elem_of_app; right; exact Hid|exact Hin].
Qed.

(** X11. In every state reached from the start by sends that generated
    different ids, a handle that is still pending has its entry in the
    registry, where the acknowledgment, the timer and the clean-up look for
    it; and right after a clean-up every handle still pending belongs to a
    command that is at most 15 seconds old. So no handle stays pending
    for ever: the first clean-up more than 15 seconds after the command was
    sent finds it settled or rejects it. *)
Theorem no_handle_left_behind (trace : list (Z * Event)) (s : Commands) :
  run trace initialCommands = Some s -> NoDup (sent_ids trace) ->
  covered s /\
  forall now h, promises (sweep now s) !! h = Some Pending ->
    exists k cmd,
      pendingCommands (sweep now s) !! k = Some cmd /\ cmd_promise cmd = h /\
      now - cmd_timestamp cmd <= 15000.
Proof.
  intros Hrun Hnd.
  assert (Hcov : covered s).
  { eapply (covered_run trace []); eauto using consistent_initial.
    - intros h Hh. cbn in Hh. rewrite lookup_empty in Hh. discriminate.
    - intros id _. apply not_elem_of_nil. }
  split; [exact Hcov|].
  intros now h Hh.
  destruct (covered_sweep now s Hcov h Hh) as (k & cmd & Hk & Hc).
  exists k, cmd. split; [exact Hk|]. split; [exact Hc|].
  apply sweep_pending in Hk as [_ Hexp]. unfold expired in Hexp.
  destruct (Z.ltb_spec 15000 (now - cmd_timestamp cmd)); [discriminate|lia].
Qed.

Lemma no_handle_left_behind_witness :
  exists s,
    run sample_waiting_trace initialCommands = Some s /\
    covered s /\
    forall now h, promises (sweep now s) !! h = Some Pending ->
      exists k cmd,
        pendingCommands (sweep now s) !! k = Some cmd /\ cmd_promise cmd = h /\
        now - cmd_timestamp cmd <= 15000.
Proof.
  eexists. split; [vm_compute; reflexivity|].
  refine (no_handle_left_behind sample_waiting_trace _ _ _).
  - vm_compute. reflexivity.
  - apply NoDup_singleton.
Defined.

(** ** Command registry: a write that fails *)

Lemma findWrite_dropWrite (h : nat) (ws : list StoreWrite) :
  findWrite h (dropWrite h ws) = None.
Proof.
  unfold findWrite, dropWrite.
  induction ws as [|w ws IH]; [reflexivity|].
  cbn [List.filter]. destruct (Nat.eqb (write_promise w) h) eqn:E;
    cbn [negb]; [exact IH|].
  cbn [List.find]. rewrite E. exact IH.
Qed.

(** X12. In every state reached from the start by sends that generated
    different ids, when the write of a command fails the entry of the
    command is taken out of the registry and every other entry is left, no
    timer is set, the write is over, and the handle of the command is not
    pending any more: it is rejected with the error of the store if the
    entry was still in the registry, and keeps the outcome it already had if
    an acknowledgment or the clean-up had taken the entry before. *)
Theorem write_failure_rejects_at_once (trace : list (Z * Event))
    (s : Commands) (now : Z) (h : nat) (w : StoreWrite) (err : JsError) :
  run trace initialCommands = Some s -> NoDup (sent_ids trace) ->
  findWrite h (writes s) = Some w ->
  exists s',
    step now (WriteFailed h err) s = Some s' /\
    pendingCommands s' = delete (write_id w) (pendingCommands s) /\
    timers s' = timers s /\
    findWrite h (writes s') = None /\
    promises s' !! h <> Some Pending /\
    (is_Some (pendingCommands s !! write_id w) ->
     promises s' !! h = Some (RejectedWith err)) /\
    (pendingCommands s !! write_id w = None ->
     promises s' !! h = promises s !! h).
Proof.
  intros Hrun Hnd Hfind.
  pose proof (consistent_reachable trace s Hrun Hnd) as C.
  assert (Hcov : covered s).
  { eapply (covered_run trace []); eauto using consistent_initial.
    - intros p Hp. cbn in Hp. rewrite lookup_empty in Hp. discriminate.
    - intros id _. apply not_elem_of_nil. }
  exists (sendFailed w err s). cbn [step]. rewrite Hfind.
  apply findWrite_elem_of in Hfind as [Hin <-].
  split; [reflexivity|]. unfold sendFailed. fields.
  split; [reflexivity|]. split; [reflexivity|].
  split; [apply findWrite_dropWrite|].
  split; [|split].
  - intros Hp. apply settle_Pending_inv in Hp as [Hne _];
      [congruence|discriminate].
  - intros [cmd Hk]. apply settle_pending.
    destruct (c_writes _ _ C w Hin) as (_ & _ & Hw).
    destruct (Hw (write_id w) cmd Hk) as [_ Hw2].
    destruct (Hw2 eq_refl) as [<- _].
    apply (c_entries _ _ C (write_id w) cmd Hk).
  - intros Hnone. unfold settle.
    destruct (promises s !! write_promise w) as [[]|] eqn:Ep;
      try exact Ep.
    destruct (Hcov _ Ep) as (k & cmd & Hk & Hc).
    destruct (c_writes _ _ C w Hin) as (_ & _ & Hw).
    destruct (Hw k cmd Hk) as [Hw1 _]. rewrite (Hw1 Hc) in Hk. congruence.
Qed.

Lemma write_failure_rejects_at_once_witness :
  exists s s',
    run sample_writing_trace initialCommands = Some s /\
    step 300 (WriteFailed 0%nat (Error "PERMISSION_DENIED")) s = Some s' /\
    pendingCommands s' = delete "cmd_0_abcdefghi" (pendingCommands s) /\
    promises s' !! 0%nat = Some (RejectedWith (Error "PERMISSION_DENIED")).
Proof.
  eexists.
  destruct (write_failure_rejects_at_once sample_writing_trace
              (sendStart 0 "0.abcdefghijk" "RELAY_CONTROL" initialCommands)
              300 0%nat
              {| write_id := "cmd_0_abcdefghi"; write_type := "RELAY_CONTROL";
                 write_promise := 0 |}
              (Error "PERMISSION_DENIED"))
    as (s' & Hstep & Hpending & _ & _ & _ & Hrej & _).
  - reflexivity.
  - apply NoDup_singleton.
  - reflexivity.
  - exists s'. split; [reflexivity|]. split; [exact Hstep|].
    split; [exact Hpending|]. apply Hrej.
    eexists. vm_compute. reflexivity.
Defined.

(** ** Command registry: a snapshot of several acknowledgments *)

Lemma foldl_processAck_keeps_settled (now : Z) (acks : list JsVal)
    (s : Commands) (h : nat) (o : PromiseState) :
  promises s !! h = Some o -> o <> Pending ->
  promises (foldl (processAck now) s acks) !! h = Some o.
Proof.
  intros Hh Ho. revert s Hh. induction acks as [|ack acks IH]; intros s Hh;
    [exact Hh|].
  cbn [foldl]. apply IH, processAck_keeps_settled; assumption.
Qed.

Lemma foldl_processAck_untouched (now : Z) (acks : list JsVal) (s : Commands)
    (k : string) :
  k ∉ omap ack_key acks ->
  pendingCommands (foldl (processAck now) s acks) !! k =
  pendingCommands s !! k.
Proof.
  revert s. induction acks as [|ack acks IH]; intros s Hk; [reflexivity|].
  cbn [foldl omap list_omap] in *. rewrite IH.
  - rewrite processAck_pending.
    destruct (ack_key ack) as [id|]; [|reflexivity].
    apply lookup_delete_ne. intros ->. apply Hk. left.
  - intros Hin. apply Hk. destruct (ack_key ack); [right|]; exact Hin.
Qed.

Lemma foldl_processAck_resolves (issued : list string) (now : Z)
    (acks : list JsVal) (s : Commands) (k : string) (cmd : PendingCommand) :
  consistent issued s -> pendingCommands s !! k = Some cmd ->
  k ∈ omap ack_key acks ->
  exists ack, ack ∈ acks /\ ack_key ack = Some k /\
    promises (foldl (processAck now) s acks) !! cmd_promise cmd =
      Some (Fulfilled ack).
Proof.
  revert s. induction acks as [|a acks IH]; intros s C Hk Hin;
    [inversion Hin|].
  cbn [foldl omap list_omap] in *.
  destruct (decide (ack_key a = Some k)) as [Ha|Ha].
  - exists a. split; [left|]. split; [exact Ha|].
    apply foldl_processAck_keeps_settled; [|discriminate].
    rewrite processAck_cases, Ha, Hk. fields.
    apply settle_pending, (c_entries _ _ C k cmd Hk).
  - destruct (IH (processAck now s a)) as (ack & Hack & Hkey & Hp).
    + apply consistent_processAck, C.
    + rewrite processAck_pending.
      destruct (ack_key a) as [id|]; [|exact Hk].
      rewrite lookup_delete_ne; [exact Hk|congruence].
    + destruct (ack_key a) as [id|]; [|exact Hin].
      apply elem_of_cons in Hin as [->|Hin]; [congruence|exact Hin].
    + exists ack. split; [right; exact Hack|]. split; assumption.
Qed.

(** X13. One snapshot can acknowledge several commands. In every state
    reached from the start by sends that generated different ids, after a
    snapshot is processed: an entry whose id no record of the snapshot
    carries is left in the registry with its handle pending; an entry whose
    id a record carries is taken out and its handle is resolved with a
    record of the snapshot that carries its id. *)
Theorem onAckSnapshot_batch (trace : list (Z * Event)) (s : Commands)
    (now : Z) (data : JsVal) (k : string) (cmd : PendingCommand) :
  run trace initialCommands = Some s -> NoDup (sent_ids trace) ->
  pendingCommands s !! k = Some cmd ->
  if decide (k ∈ acknowledged_ids data) then
    pendingCommands (onAckSnapshot now data s) !! k = None /\
    exists ack, ack ∈ Object_values data /\ ack_key ack = Some k /\
      promises (onAckSnapshot now data s) !! cmd_promise cmd =
        Some (Fulfilled ack)
  else
    pendingCommands (onAckSnapshot now data s) !! k = Some cmd /\
    promises (onAckSnapshot now data s) !! cmd_promise cmd = Some Pending.
Proof.
  intros Hrun Hnd Hk.
  pose proof (consistent_reachable trace s Hrun Hnd) as C.
  pose proof (consistent_onAckSnapshot _ s now data C) as C'.
  assert (Hdata : truthy data && is_object_type (typeof data) = false ->
                  acknowledged_ids data = []).
  { unfold acknowledged_ids. destruct data; cbn; try reflexivity;
      discriminate. }
  unfold acknowledged_ids in *. unfold onAckSnapshot in *.
  destruct (truthy data && is_object_type (typeof data)).
  - destruct (decide (k ∈ omap ack_key (Object_values data))) as [Hin|Hin].
    + destruct (foldl_processAck_resolves _ now _ s k cmd C Hk Hin)
        as (ack & Hack & Hkey & Hp).
      split; [eapply foldl_processAck_consumed; eassumption|].
      exists ack. split; [exact Hack|]. split; assumption.
    + assert (Hk' : pendingCommands
                      (foldl (processAck now) s (Object_values data)) !! k =
                    Some cmd)
        by (rewrite foldl_processAck_untouched; assumption).
      split; [exact Hk'|]. apply (c_entries _ _ C' k cmd Hk').
  - rewrite (Hdata eq_refl). rewrite decide_False by apply not_elem_of_nil.
    split; [exact Hk|]. apply (c_entries _ _ C k cmd Hk).
Qed.

Lemma onAckSnapshot_batch_witness :
  exists s cmd ack,
    run sample_two_commands_trace initialCommands = Some s /\
    pendingCommands s !! "cmd_200_zyxwvutsr" = Some cmd /\
    pendingCommands (onAckSnapshot 2000 sample_ack_snapshot s) !!
      "cmd_200_zyxwvutsr" = None /\
    ack ∈ Object_values sample_ack_snapshot /\
    promises (onAckSnapshot 2000 sample_ack_snapshot s) !! cmd_promise cmd =
      Some (Fulfilled ack).
Proof.
  pose (s := default initialCommands
               (run sample_two_commands_trace initialCommands)).
  pose (cmd := {| cmd_id := "cmd_200_zyxwvutsr";
                  cmd_type := "RESET_PROTECTION";
                  cmd_timestamp := 200; cmd_promise := 1 |}).
  assert (Hrun : run sample_two_commands_trace initialCommands = Some s)
    by (vm_compute; reflexivity).
  assert (Hnd : NoDup (sent_ids sample_two_commands_trace)).
  { apply NoDup_cons. split; [|apply NoDup_singleton].
    intros H%list_elem_of_singleton. discriminate H. }
  assert (Hk : pendingCommands s !! "cmd_200_zyxwvutsr" = Some cmd)
    by (vm_compute; reflexivity).
  pose proof (onAckSnapshot_batch sample_two_commands_trace s 2000
                sample_ack_snapshot "cmd_200_zyxwvutsr" cmd Hrun Hnd Hk) as H.
  rewrite decide_True in H by (vm_compute; left).
  destruct H as (Hnone & ack & Hack & _ & Hp).
  exists s, cmd, ack. repeat split; assumption.
Defined.

(** ** The dialogs of the full screen *)

Lemma includes_append (needle a t : string) :
  includes needle t = true -> includes needle (a +:+ t) = true.
Proof.
  intros H. induction a as [|c a IH]; [exact H|].
  change (includes needle (String c a +:+ t)) with
    (String.prefix needle (String c (a +:+ t)) || includes needle (a +:+ t)).
  rewrite IH. apply orb_true_r.
Qed.

Lemma timeoutError_includes (commandType : string) :
  match timeoutError commandType with
  | Error message => includes "timed out" message = true
  end.
Proof.
  unfold timeoutError. apply (includes_append _ "Command ").
  apply includes_append. reflexivity.
Qed.

(** X14. The handlers tell a timeout from another failure by looking for
    [timed out] in the message of the error. The rejection made by the timer
    of [sendCommandWithAck] carries it for every command type, so that
    [handleManualControl] and [handleResetTrip] show their timeout dialog;
    the rejection made by the clean-up, [Command expired], does not, and is
    shown as a plain error. In both cases [handleManualControl] sets the
    switch to the opposite of the value asked for. *)
Theorem timeout_is_reported_as_timeout (commandType : string)
    (value manualRelay : bool) :
  handleManualControl_settled value manualRelay
    (Thrown (timeoutError commandType)) = (ControlTimeout, negb value) /\
  handleResetTrip_settled (Thrown (timeoutError commandType)) = ResetTimeout /\
  handleManualControl_settled value manualRelay (Thrown expiredError) =
    (ControlError "Command expired", negb value) /\
  handleResetTrip_settled (Thrown expiredError) = ResetError "Command expired".
Proof.
  pose proof (timeoutError_includes commandType) as H.
  unfold handleManualControl_settled, handleResetTrip_settled.
  destruct (timeoutError commandType) as [message]. rewrite H.
  repeat split.
Qed.

(** X15. When the switch is pressed while it shows [shown],
    [handleManualControl] is called with the opposite value. Once the
    command is settled the switch is set to the new value only if the device
    reports the command as processed. When the device answers
    [NO_CHANGE_REQUIRED] the switch is left as it is at that moment
    ([current]: the telemetry may have set it since the press). On every
    other outcome (blocked, not processed, timed out, failed) the switch is
    set to the value it showed at the press, whatever it shows by then. *)
Theorem handleManualControl_switch (shown current : bool) (r : Awaited) :
  let after := (handleManualControl_settled (negb shown) current r).2 in
  match r with
  | Resolved result =>
      (truthy (get_prop result "processed") = true -> after = negb shown) /\
      (truthy (get_prop result "processed") = false ->
       get_prop result "result" = JStr "NO_CHANGE_REQUIRED" ->
       after = current) /\
      (truthy (get_prop result "processed") = false ->
       get_prop result "result" <> JStr "NO_CHANGE_REQUIRED" ->
       after = shown)
  | Thrown _ => after = shown
  end.
Proof.
  unfold handleManualControl_settled. destruct r as [result|[message]].
  - destruct (truthy (get_prop result "processed")); cbn [snd].
    + split; [reflexivity|]. split; discriminate.
    + split; [discriminate|]. split.
      * intros _ ->. reflexivity.
      * intros _ Hne. rewrite negb_involutive.
        destruct (get_prop result "result") as [| | | |c| |];
          try reflexivity.
        destruct (String.eqb_spec c "NO_CHANGE_REQUIRED") as [->|_];
          [congruence|reflexivity].
  - cbn [snd]. apply negb_involutive.
Qed.

(** X16. The colour of the status indicator and its text are chosen by the
    same cases, in the same order: offline when the screen is not
    connected, whatever the telemetry says; else tripped when the overcurrent
    protection has tripped, even with the relay on; else on or off. *)
Theorem status_colour_matches_text (isConnected : bool)
    (telemetry : option TelemetryData) :
  (statusText isConnected telemetry, getStatusColor isConnected telemetry) =
  if negb isConnected then ("Offline", "#8E8E93")
  else
    match telemetry with
    | Some t =>
        if overcurrentTripped t then ("Tripped", "#6E6E73")
        else if relayState t then ("ON", "#000000")
        else ("OFF", "#BDBDBD")
    | None => ("OFF", "#BDBDBD")
    end.
Proof.
  unfold statusText, getStatusColor.
  destruct isConnected; [|reflexivity]. cbn [negb].
  destruct telemetry as [t|]; [|reflexivity]. cbn [from_option].
  destruct (overcurrentTripped t), (relayState t); reflexivity.
Qed.

(** ** Liveness monitor: the time since the last update *)

Section LivenessMore.
Context `{rt : JsRuntime}.

Lemma liveness_run_app (t1 t2 : list (Z * LivenessEvent)) (s : Connectivity) :
  liveness_run (t1 ++ t2) s = liveness_run t2 (liveness_run t1 s).
Proof. unfold liveness_run. apply foldl_app. Qed.



Lemma liveness_step_last (now : Z) (e : LivenessEvent) (s : Connectivity) :
  lastDataReceived (liveness_step now e s) = lastDataReceived s \/
  lastDataReceived (liveness_step now e s) = now /\
  exists data, e = TelemetrySnapshot data /\
    is_Some (validateTelemetryData (fun _ => now) data).
Proof.
  destruct e as [data| |]; cbn [liveness_step].
  - unfold onTelemetry. destruct (truthy data); [|left; reflexivity].
    destruct (validateTelemetryData _ data) eqn:E; [|left; reflexivity].
    right. split; [reflexivity|]. exists data. rewrite E. split; eauto.
  - left. reflexivity.
  - left. apply connectionCheck_state.
Qed.

Lemma liveness_run_last (trace : list (Z * LivenessEvent)) (T0 : Z)
    (s : Connectivity) :
  StronglySorted Z.le (T0 :: trace.*1) ->
  let s' := liveness_run trace s in
  lastDataReceived s' = lastDataReceived s \/
  lastDataReceived s' <= time_after T0 trace /\
  exists data, (lastDataReceived s', TelemetrySnapshot data) ∈ trace /\
    is_Some (validateTelemetryData (fun _ => lastDataReceived s') data).
Proof.
  revert T0 s. induction trace as [|[now e] trace IH]; intros T0 s Hsorted;
    [left; reflexivity|].
  unfold liveness_run, time_after. rewrite fmap_cons. cbn [foldl fst snd].
  rewrite last_cons_default.
  apply StronglySorted_inv in Hsorted as [Hrest Hle].
  rewrite fmap_cons in Hrest. cbn [fst] in Hrest.
  destruct (IH now (liveness_step now e s) Hrest)
    as [Hsame|(Hb & data & Hin & Hok)].
  - fold (liveness_run trace (liveness_step now e s)). rewrite Hsame.
    destruct (liveness_step_last now e s) as [->|(-> & data & -> & Hok)];
      [left; reflexivity|].
    right. split.
    + clear -Hrest. unfold time_after.
      apply StronglySorted_inv in Hrest as [_ Hall].
      destruct (trace.*1) as [|t ts] eqn:E using rev_ind; [cbn; lia|].
      rewrite last_last. rewrite Forall_app, Forall_singleton in Hall.
      apply Hall.
    + exists data. split; [left|exact Hok].
  - right. split; [exact Hb|]. exists data. split; [right; exact Hin|exact Hok].
Qed.

(** X18. Along events whose times do not decrease, the time of the last
    update kept by the screen is 0 until a first update is accepted and is
    then the time of an accepted update of the past: the number of seconds
    shown after [Last update:] is never negative. *)
Theorem lastUpdateSeconds_nonneg (trace : list (Z * LivenessEvent))
    (T0 now : Z) :
  StronglySorted Z.le (T0 :: trace.*1) -> time_after T0 trace <= now ->
  let s := liveness_run trace initialConnectivity in
  (lastDataReceived s = 0 \/
   exists data, (lastDataReceived s, TelemetrySnapshot data) ∈ trace /\
     is_Some (validateTelemetryData (fun _ => lastDataReceived s) data)) /\
  match lastUpdateSeconds now s with
  | Some n => 0 <= n
  | None => lastDataReceived s <= 0
  end.
Proof.
  intros Hsorted Hnow.
  pose proof (liveness_run_last trace T0 initialConnectivity Hsorted) as H.
  cbv zeta in *.
  set (s := liveness_run trace initialConnectivity) in *.
  destruct H as [Hsame|(Hb & data & Hin & Hok)].
  - cbn in Hsame. split; [left; exact Hsame|].
    unfold lastUpdateSeconds. rewrite Hsame. cbn. lia.
  - split; [right; exists data; split; assumption|].
    unfold lastUpdateSeconds.
    destruct (Z.ltb_spec 0 (lastDataReceived s)); [|assumption].
    apply Z.div_pos; lia.
Qed.
End LivenessMore.

Lemma lastUpdateSeconds_nonneg_witness :
  match lastUpdateSeconds 21000
          (liveness_run (rt := sample_runtime) sample_liveness_trace
             initialConnectivity)
  with
  | Some n => 0 <= n
  | None =>
      lastDataReceived
        (liveness_run (rt := sample_runtime) sample_liveness_trace
           initialConnectivity) <= 0
  end.
Proof.
  refine (proj2 (lastUpdateSeconds_nonneg (rt := sample_runtime)
                   sample_liveness_trace 0 21000 _ _)).
  - repeat constructor; vm_compute; discriminate.
  - vm_compute. discriminate.
Defined.

(** ** The reduced screen: one command at a time *)

Lemma serialised_press (now : Z) (rnd36 : string)
    (isConnected manualRelay : bool) (s : Commands) :
  serialised s ->
  match IndexTsx.handleToggleSwitch now rnd36 isConnected manualRelay s with
  | IndexTsx.Toggled _ s' =>
      serialised s' /\ pendingCommands s = ∅ /\ isConnected = true
  | IndexTsx.PleaseWait => pendingCommands s <> ∅
  | IndexTsx.NotConnected => isConnected = false
  end.
Proof.
  intros Hs. unfold IndexTsx.handleToggleSwitch.
  destruct isConnected; [|reflexivity]. cbn [negb].
  destruct (Nat.ltb_spec 0 (size (pendingCommands s))) as [Hsz|Hsz].
  - intros E. rewrite E, map_size_empty in Hsz. lia.
  - assert (He : pendingCommands s = ∅) by (apply map_size_empty_iff; lia).
    split; [|split; [exact He|reflexivity]].
    destruct Hs as [_ Hw Ht|w cmd Hp _ _|t cmd Hp _ _].
    + eapply (ser_writing _ {| write_id := generateCommandId now rnd36;
                               write_type := "RELAY_CONTROL";
                               write_promise := nextPromise s |}).
      * unfold sendStart. fields. rewrite He. apply insert_empty.
      * unfold sendStart. fields. rewrite Hw. reflexivity.
      * unfold sendStart. fields. exact Ht.
    + rewrite He in Hp. symmetry in Hp.
      apply map_non_empty_singleton in Hp. contradiction.
    + rewrite He in Hp. symmetry in Hp.
      apply map_non_empty_singleton in Hp. contradiction.
Qed.

Lemma findWrite_singleton (h : nat) (w w' : StoreWrite) :
  findWrite h [w] = Some w' -> w' = w /\ dropWrite h [w] = [].
Proof.
  unfold findWrite, dropWrite. cbn [List.find List.filter].
  destruct (Nat.eqb (write_promise w) h); [|discriminate].
  intros [= <-]. split; reflexivity.
Qed.

Lemma findTimer_singleton (h : nat) (now : Z) (t t' : Timer) :
  findTimer h now [t] = Some t' -> t' = t /\ dropTimer h [t] = [].
Proof.
  unfold findTimer, dropTimer. cbn [List.find List.filter].
  destruct (Nat.eqb (timer_promise t) h); [|discriminate]. cbn [andb negb].
  destruct (timer_due t <=? now); [|discriminate].
  intros [= <-]. split; reflexivity.
Qed.

Lemma serialised_step (now : Z) (e : IndexTsx.ScreenEvent) (s s' : Commands) :
  serialised s -> IndexTsx.screen_step now e s = Some s' -> serialised s'.
Proof.
  intros Hs Hstep. destruct e as [rnd c m|h|h err|h];
    cbn [IndexTsx.screen_step SmartWallSocketApp.step] in Hstep.
  - pose proof (serialised_press now rnd c m s Hs) as H.
    destruct (IndexTsx.handleToggleSwitch now rnd c m s);
      injection Hstep as <-; [exact Hs|exact Hs|apply H].
  - destruct (findWrite h (writes s)) as [w|] eqn:E; [|discriminate].
    injection Hstep as <-.
    destruct Hs as [_ Hw _|w0 cmd Hp Hw Ht|t cmd _ Hw _];
      rewrite Hw in E; try discriminate.
    pose proof E as E'. apply findWrite_elem_of in E' as [_ Hh].
    apply findWrite_singleton in E as [-> Hdrop].
    apply (ser_waiting _ {| timer_due := now + 10000; timer_id := write_id w0;
                            timer_type := write_type w0;
                            timer_promise := write_promise w0 |} cmd);
      unfold SmartWallSocketApp.sendWritten, armTimeout; fields.
    + exact Hp.
    + rewrite Hw, Hh. exact Hdrop.
    + rewrite Ht. reflexivity.
  - destruct (findWrite h (writes s)) as [w|] eqn:E; [|discriminate].
    injection Hstep as <-.
    destruct Hs as [_ Hw _|w0 cmd Hp Hw Ht|t cmd _ Hw _];
      rewrite Hw in E; try discriminate.
    pose proof E as E'. apply findWrite_elem_of in E' as [_ Hh].
    apply findWrite_singleton in E as [-> Hdrop].
    apply ser_idle; unfold sendFailed; fields.
    + rewrite Hp. apply delete_singleton_eq.
    + rewrite Hw, Hh. exact Hdrop.
    + exact Ht.
  - destruct (findTimer h now (timers s)) as [t|] eqn:E; [|discriminate].
    injection Hstep as <-.
    destruct Hs as [_ _ Ht|w0 cmd _ _ Ht|t0 cmd Hp Hw Ht];
      rewrite Ht in E; try discriminate.
    apply findTimer_singleton in E as [-> Hdrop].
    unfold SmartWallSocketApp.timeoutCallback. fields.
    rewrite Hp, lookup_singleton_eq.
    apply ser_idle; fields.
    + rewrite Hp. apply delete_singleton_eq.
    + exact Hw.
    + rewrite Ht. exact Hdrop.
Qed.

Lemma serialised_run (trace : list (Z * IndexTsx.ScreenEvent))
    (s s' : Commands) :
  serialised s -> IndexTsx.screen_run trace s = Some s' -> serialised s'.
Proof.
  revert s. induction trace as [|[now e] trace IH]; intros s Hs Hrun.
  - injection Hrun as <-. exact Hs.
  - cbn [IndexTsx.screen_run] in Hrun.
    destruct (IndexTsx.screen_step now e s) as [s1|] eqn:Hstep;
      [|discriminate].
    cbn [mbind option_bind] in Hrun.
    apply (IH s1); [|exact Hrun]. apply (serialised_step now e s); assumption.
Qed.

(** X19. On the reduced screen the button sends a command only when the
    registry is empty, and the entry of a command stays in the registry
    after its write has succeeded, until its timer fires. So in every state
    reached from the start by presses, completed writes, failed writes and
    timers, at most one command is under way; a press while the screen is
    connected sends a command exactly when no write and no timer is under
    way and is refused otherwise; and during the 10 seconds after a write
    succeeded no timer can fire and every press leaves the state as it is. *)
Theorem toggle_one_at_a_time (trace : list (Z * IndexTsx.ScreenEvent))
    (s : Commands) :
  IndexTsx.screen_run trace initialCommands = Some s ->
  (size (pendingCommands s) <= 1)%nat /\
  (length (writes s) + length (timers s) = size (pendingCommands s))%nat /\
  (forall now rnd36 manualRelay,
     IndexTsx.handleToggleSwitch now rnd36 true manualRelay s =
     match writes s, timers s with
     | [], [] =>
         IndexTsx.Toggled (negb manualRelay)
           (sendStart now rnd36 "RELAY_CONTROL" s)
     | _, _ => IndexTsx.PleaseWait
     end) /\
  (forall written h s1,
     IndexTsx.screen_step written (IndexTsx.Written h) s = Some s1 ->
     forall now, now < written + 10000 ->
       (forall h', IndexTsx.screen_step now (IndexTsx.TimerFired h') s1 = None) /\
       (forall rnd36 isConnected manualRelay,
          IndexTsx.screen_step now
            (IndexTsx.Press rnd36 isConnected manualRelay) s1 = Some s1)).
Proof.
  intros Hrun.
  assert (Hs : serialised s).
  { apply (serialised_run trace initialCommands); [|exact Hrun].
    apply ser_idle; reflexivity. }
  assert (Hsize : (size (pendingCommands s) <= 1)%nat /\
    (length (writes s) + length (timers s) = size (pendingCommands s))%nat).
  { destruct Hs as [Hp Hw Ht|w cmd Hp Hw Ht|t cmd Hp Hw Ht];
      rewrite Hp, Hw, Ht, ?map_size_empty, ?map_size_singleton; cbn; lia. }
  split; [apply Hsize|]. split; [apply Hsize|]. split.
  - intros now rnd m. unfold IndexTsx.handleToggleSwitch. cbn [negb].
    destruct Hs as [Hp Hw Ht|w cmd Hp Hw Ht|t cmd Hp Hw Ht];
      rewrite Hp, ?Hw, ?Ht, ?map_size_empty, ?map_size_singleton;
      reflexivity.
  - intros written h s1 Hstep now Hnow.
    pose proof (serialised_step written _ s s1 Hs Hstep) as Hs1.
    cbn [IndexTsx.screen_step SmartWallSocketApp.step] in Hstep.
    destruct (findWrite h (writes s)) as [w|] eqn:E; [|discriminate].
    injection Hstep as <-.
    destruct Hs as [_ Hw _|w0 cmd Hp Hw Ht|t cmd _ Hw _];
      rewrite Hw in E; try discriminate.
    apply findWrite_singleton in E as [-> _].
    split.
    + intros h'. cbn [IndexTsx.screen_step SmartWallSocketApp.step].
      unfold SmartWallSocketApp.sendWritten, armTimeout. fields.
      rewrite Ht. unfold findTimer. cbn [app List.find]. fields.
      destruct (Z.leb_spec (written + 10000) now); [lia|].
      rewrite andb_false_r. reflexivity.
    + intros rnd c m. cbn [IndexTsx.screen_step].
      unfold IndexTsx.handleToggleSwitch. destruct c; [|reflexivity].
      cbn [negb].
      unfold SmartWallSocketApp.sendWritten, armTimeout. fields.
      rewrite Hp, map_size_singleton. reflexivity.
Qed.

Lemma toggle_one_at_a_time_witness :
  exists s,
    IndexTsx.screen_run sample_presses initialCommands = Some s /\
    (size (pendingCommands s) <= 1)%nat /\
    IndexTsx.handleToggleSwitch 4000 "0.mnopqrstuvw" true true s =
      IndexTsx.PleaseWait.
Proof.
  pose (s := default initialCommands
               (IndexTsx.screen_run sample_presses initialCommands)).
  assert (Hrun : IndexTsx.screen_run sample_presses initialCommands = Some s)
    by (vm_compute; reflexivity).
  destruct (toggle_one_at_a_time sample_presses s Hrun)
    as (Hsize & _ & Hpress & _).
  exists s. split; [exact Hrun|]. split; [exact Hsize|].
  rewrite Hpress. reflexivity.
Defined.

(** ** Schedule planner: the strings accepted *)

Lemma in_range_digit_char (hi c : ascii) :
  (code hi <= 57)%N -> in_range "0" hi c = true ->
  exists d, 0 <= d <= Z.of_N (code hi) - 48 /\ c = digit_char d.
Proof.
  intros Hhi Hc. apply in_range_code in Hc.
  change (code "0") with 48%N in Hc.
  exists (Z.of_N (code c) - 48). split; [lia|].
  unfold digit_char.
  replace (48 + Z.to_N (Z.of_N (code c) - 48))%N with (code c) by lia.
  unfold code. symmetry. apply ascii_N_embedding.
Qed.

Ltac as_digit H hi d :=
  let Hb := fresh "Hb" in
  destruct (in_range_digit_char hi _ ltac:(vm_compute; discriminate) H)
    as (d & Hb & ->);
  change (Z.of_N (code hi) - 48) with
    (ltac:(let v := eval vm_compute in (Z.of_N (code hi) - 48) in exact v))
    in Hb.

Lemma two_digits_of (a b : Z) :
  0 <= b <= 9 ->
  two_digits (a * 10 + b) = String (digit_char a) (String (digit_char b) "").
Proof.
  intros Hb. unfold two_digits.
  replace ((a * 10 + b) / 10) with a
    by (Z.to_euclidean_division_equations; lia).
  replace ((a * 10 + b) mod 10) with b
    by (Z.to_euclidean_division_equations; lia).
  reflexivity.
Qed.

Lemma timeRegex_test_clock_text (t : string) :
  timeRegex_test t = true ->
  exists pad h m, 0 <= h < 24 /\ 0 <= m < 60 /\ t = clock_text pad h m.
Proof.
  unfold timeRegex_test.
  destruct t as [|c1 [|c2 [|c3 [|c4 [|c5 [|c6 r]]]]]];
    cbn [list_ascii_of_string]; try discriminate.
  - rewrite !andb_true_iff. intros (((H1 & H2) & H3) & H4).
    apply Ascii.eqb_eq in H2. subst c2.
    as_digit H1 "9"%char h. as_digit H3 "5"%char a. as_digit H4 "9"%char b.
    exists false, h, (a * 10 + b). split; [lia|]. split; [lia|].
    unfold clock_text. cbn [orb].
    destruct (Z.leb_spec 10 h); [lia|].
    rewrite two_digits_of by lia. reflexivity.
  - rewrite !andb_true_iff, orb_true_iff, !andb_true_iff.
    intros (((Hh & H3) & H4) & H5).
    apply Ascii.eqb_eq in H3. subst c3.
    as_digit H4 "5"%char a. as_digit H5 "9"%char b.
    destruct Hh as [[H1 H2]|[H1 H2]].
    + as_digit H1 "1"%char d1. as_digit H2 "9"%char d2.
      exists true, (d1 * 10 + d2), (a * 10 + b). split; [lia|]. split; [lia|].
      unfold clock_text. cbn [orb]. rewrite !two_digits_of by lia.
      reflexivity.
    + apply Ascii.eqb_eq in H1. subst c1. as_digit H2 "3"%char d2.
      exists true, (2 * 10 + d2), (a * 10 + b). split; [lia|]. split; [lia|].
      unfold clock_text. cbn [orb]. rewrite !two_digits_of by lia.
      reflexivity.
Qed.

Lemma clock_text_checked (pad : bool) (h m : Z) :
  0 <= h < 24 -> 0 <= m < 60 ->
  timeRegex_test (clock_text pad h m) = true /\
  read_time (clock_text pad h m) = Some (h, m).
Proof.
  intros Hh Hm.
  assert (Hall : clock_texts_checked = true) by (vm_compute; reflexivity).
  unfold clock_texts_checked in Hall.
  rewrite forallb_forall in Hall.
  specialize (Hall pad ltac:(destruct pad; cbn; tauto)).
  rewrite forallb_forall in Hall.
  specialize (Hall h ltac:(apply list_elem_of_In, elem_of_seqZ; lia)).
  rewrite forallb_forall in Hall.
  specialize (Hall m ltac:(apply list_elem_of_In, elem_of_seqZ; lia)).
  cbv zeta in Hall. apply andb_true_iff in Hall as [Ht Hr].
  split; [exact Ht|].
  destruct (read_time (clock_text pad h m)) as [[h' m']|]; [|discriminate].
  apply andb_true_iff in Hr as [->%Z.eqb_eq ->%Z.eqb_eq]. reflexivity.
Qed.

Lemma parseTimeToTimestamp_read_time (zone : TimeZone) (now : Z) (s : string) :
  parseTimeToTimestamp zone now s =
  match read_time (trim s) with
  | Some (h, m) => Some (resolve_time zone now h m)
  | None => None
  end.
Proof.
  unfold parseTimeToTimestamp, read_time, resolve_time.
  destruct (split_colon (trim s) "") as [|hs [|ms rest]]; try reflexivity.
  destruct (digits_to_Z hs), (digits_to_Z ms); try reflexivity.
  destruct (_ <=? _); reflexivity.
Qed.

(** X20. The strings accepted by [validateTimeFormat] are, up to white space
    around them, exactly the times of day from 0:00 to 23:59 written with a
    two-digit minute and an hour of one or two digits, as [9:05], [09:05]
    and [23:59]; no other string is accepted. *)
Theorem validateTimeFormat_accepts (s : string) :
  validateTimeFormat s = true <->
  exists pad h m, 0 <= h < 24 /\ 0 <= m < 60 /\ trim s = clock_text pad h m.
Proof.
  unfold validateTimeFormat. split.
  - apply timeRegex_test_clock_text.
  - intros (pad & h & m & Hh & Hm & ->).
    apply clock_text_checked; assumption.
Qed.

(** X21. A string that is the text of the time of day [h]:[m], up to white
    space around it, resolves to the next time, strictly after the clock
    reading and at most 24 hours after it, at which the local clock shows
    [h]:[m] and no seconds; there is one such time. The local time is the
    universal time plus a constant offset. *)
Theorem parseTimeToTimestamp_clock_text (tz now : Z) (s : string)
    (pad : bool) (h m : Z) :
  0 <= h < 24 -> 0 <= m < 60 -> trim s = clock_text pad h m ->
  exists t,
    parseTimeToTimestamp (fixed_zone tz) now s = Some t /\
    is_next_occurrence tz now h m t /\
    forall t', is_next_occurrence tz now h m t' -> t' = t.
Proof.
  intros Hh Hm Hs. exists (resolve_time (fixed_zone tz) now h m).
  rewrite parseTimeToTimestamp_read_time, Hs.
  destruct (clock_text_checked pad h m Hh Hm) as [_ ->].
  split; [reflexivity|].
  pose proof (resolve_time_next tz now h m Hh Hm) as Hnext.
  split; [exact Hnext|].
  intros t' Ht'. apply (next_occurrence_unique tz now h m); assumption.
Qed.

Lemma parseTimeToTimestamp_clock_text_witness :
  exists t,
    parseTimeToTimestamp (fixed_zone 3600000) 1700000000000 " 7:05 " =
      Some t /\
    is_next_occurrence 3600000 1700000000000 7 5 t /\
    forall t', is_next_occurrence 3600000 1700000000000 7 5 t' -> t' = t.
Proof.
  apply (parseTimeToTimestamp_clock_text 3600000 1700000000000 " 7:05 "
           false 7 5); [lia|lia|reflexivity].
Defined.

(** ** Command registry: where the entries come from *)

Lemma step_entries (now : Z) (e : Event) (s s' : Commands) (k : string)
    (cmd : PendingCommand) :
  step now e s = Some s' -> pendingCommands s' !! k = Some cmd ->
  pendingCommands s !! k = Some cmd \/ sent_in [(now, e)] k cmd.
Proof.
  intros Hstep Hk. destruct e as [rnd ty|h|h err|h|data|];
    cbn [step] in Hstep.
  - injection Hstep as <-. unfold sendStart in Hk. fields.
    destruct (decide (k = generateCommandId now rnd)) as [->|Hne].
    + rewrite lookup_insert_eq in Hk. injection Hk as <-. right.
      exists rnd. fields. split; [left|]. split; reflexivity.
    + rewrite lookup_insert_ne in Hk by congruence. left. exact Hk.
  - destruct (findWrite h (writes s)); [|discriminate].
    injection Hstep as <-. left. exact Hk.
  - destruct (findWrite h (writes s)); [|discriminate].
    injection Hstep as <-. unfold sendFailed in Hk. fields.
    apply lookup_delete_Some in Hk as [_ Hk]. left. exact Hk.
  - destruct (findTimer h now (timers s)) as [t|]; [|discriminate].
    injection Hstep as <-. unfold timeoutCallback in Hk. fields.
    destruct (pendingCommands s !! timer_id t); fields; [|left; exact Hk].
    apply lookup_delete_Some in Hk as [_ Hk]. left. exact Hk.
  - injection Hstep as <-. left. unfold onAckSnapshot in Hk.
    destruct (truthy data && is_object_type (typeof data)); [|exact Hk].
    revert s Hk. induction (Object_values data) as [|ack acks IH];
      intros s Hk; [exact Hk|].
    cbn [foldl] in Hk. apply IH in Hk. rewrite processAck_pending in Hk.
    destruct (ack_key ack); [|exact Hk].
    apply lookup_delete_Some in Hk as [_ Hk]. exact Hk.
  - injection Hstep as <-. left. apply sweep_pending in Hk as [Hk _]. exact Hk.
Qed.

Lemma run_entries (trace : list (Z * Event)) (s s' : Commands) (k : string)
    (cmd : PendingCommand) :
  run trace s = Some s' -> pendingCommands s' !! k = Some cmd ->
  pendingCommands s !! k = Some cmd \/ sent_in trace k cmd.
Proof.
  revert s. induction trace as [|[now e] trace IH]; intros s Hrun Hk.
  - injection Hrun as <-. left. exact Hk.
  - cbn [run] in Hrun.
    destruct (step now e s) as [s1|] eqn:Hstep; [|discriminate].
    cbn [mbind option_bind] in Hrun.
    destruct (IH s1 Hrun Hk) as [Hk1|(rnd & Hin & Hid)].
    + destruct (step_entries now e s s1 k cmd Hstep Hk1)
        as [Hk0|(rnd & Hin & Hid)]; [left; exact Hk0|].
      right. exists rnd. split; [|exact Hid].
      apply list_elem_of_singleton in Hin. rewrite Hin. left.
    + right. exists rnd. split; [right; exact Hin|exact Hid].
Qed.

(** X22. The registry holds only commands that were sent: in every state
    reached from the start, each entry was put there by a send of the trace,
    at the time the entry records, with the type the entry records and under
    the id generated by that send; no acknowledgment, timer, failed write or
    clean-up adds an entry or alters one. In particular an entry that a
    clean-up at [now] leaves in the registry was sent at most 15 seconds
    before [now]. *)
Theorem entries_come_from_sends (trace : list (Z * Event)) (s : Commands)
    (k : string) (cmd : PendingCommand) :
  run trace initialCommands = Some s ->
  (pendingCommands s !! k = Some cmd -> sent_in trace k cmd) /\
  forall now, pendingCommands (sweep now s) !! k = Some cmd ->
    sent_in trace k cmd /\ now - 15000 <= cmd_timestamp cmd.
Proof.
  intros Hrun.
  assert (H : pendingCommands s !! k = Some cmd -> sent_in trace k cmd).
  { intros Hk. destruct (run_entries trace _ s k cmd Hrun Hk) as [H0|H0];
      [|exact H0].
    cbn in H0. rewrite lookup_empty in H0. discriminate. }
  split; [exact H|].
  intros now [Hk Hexp]%sweep_pending. split; [apply H, Hk|].
  unfold expired in Hexp.
  destruct (Z.ltb_spec 15000 (now - cmd_timestamp cmd)); [discriminate|lia].
Qed.

Lemma entries_come_from_sends_witness :
  exists s,
    run sample_waiting_trace initialCommands = Some s /\
    forall k cmd now, pendingCommands (sweep now s) !! k = Some cmd ->
      sent_in sample_waiting_trace k cmd /\ now - 15000 <= cmd_timestamp cmd.
Proof.
  pose (s := default initialCommands
               (run sample_waiting_trace initialCommands)).
  assert (Hrun : run sample_waiting_trace initialCommands = Some s)
    by (vm_compute; reflexivity).
  exists s. split; [exact Hrun|].
  intros k cmd.
  exact (proj2 (entries_come_from_sends sample_waiting_trace s k cmd Hrun)).
Defined.

(** ** Alert aggregator: timestamps given as text *)

Lemma digit_value_pretty_N_char (d : N) :
  (d < 10)%N -> digit_value (pretty_N_char d) = Some (Z.of_N d).
Proof.
  intros H.
  assert (Hd : (d = 0 \/ d = 1 \/ d = 2 \/ d = 3 \/ d = 4 \/ d = 5 \/ d = 6 \/
                d = 7 \/ d = 8 \/ d = 9)%N) by lia.
  repeat destruct Hd as [->|Hd]; try subst d; reflexivity.
Qed.

Lemma read_digits_pretty_N_go (x : N) (s : string) :
  (0 < x)%N ->
  read_digits digit_value 10 (pretty_N_go x s) None =
  read_digits digit_value 10 s (Some (Z.of_N x)).
Proof.
  revert s. induction (N.lt_wf_0 x) as [x _ IH]; intros s Hx.
  rewrite pretty_N_go_step by exact Hx.
  assert (Hmod : (x mod 10 < 10)%N) by (apply N.mod_lt; lia).
  destruct (decide (x / 10 = 0)%N) as [E|E].
  - rewrite E, pretty_N_go_0. cbn [read_digits].
    rewrite digit_value_pretty_N_char by exact Hmod.
    do 2 f_equal. pose proof (N.Div0.div_mod x 10) as Hdm.
    rewrite E in Hdm. f_equal. symmetry. exact Hdm.
  - rewrite IH; [|apply N.div_lt; lia|apply N.neq_0_lt_0, E].
    cbn [read_digits]. rewrite digit_value_pretty_N_char by exact Hmod.
    do 2 f_equal. pose proof (N.Div0.div_mod x 10) as Hdm.
    remember (x / 10)%N as q. remember (x mod 10)%N as r. lia.
Qed.

Lemma pretty_N_go_append (x : N) (s rest : string) :
  pretty_N_go x s +:+ rest = pretty_N_go x (s +:+ rest).
Proof.
  revert s. induction (N.lt_wf_0 x) as [x _ IH]; intros s.
  destruct (decide (x = 0)%N) as [->|Hx].
  - rewrite !pretty_N_go_0. reflexivity.
  - rewrite (pretty_N_go_step x s), (pretty_N_go_step x (s +:+ rest)) by lia.
    rewrite IH by (apply N.div_lt; lia). reflexivity.
Qed.

Lemma pretty_N_go_leading (x : N) (s : string) :
  (0 < x)%N ->
  exists d r, (1 <= d <= 9)%N /\ pretty_N_go x s = String (pretty_N_char d) r.
Proof.
  revert s. induction (N.lt_wf_0 x) as [x _ IH]; intros s Hx.
  rewrite pretty_N_go_step by exact Hx.
  destruct (decide (x / 10 = 0)%N) as [E|E].
  - rewrite E, pretty_N_go_0. exists (x mod 10)%N, s. split; [|reflexivity].
    pose proof (N.Div0.div_mod x 10). pose proof (N.mod_lt x 10 ltac:(discriminate)). lia.
  - apply IH; [apply N.div_lt; lia|apply N.neq_0_lt_0, E].
Qed.

Section TextTimestamps.
Context `{rt : JsRuntime}.

Lemma parseInt_leading_digit (d : N) (r : string) :
  (1 <= d <= 9)%N ->
  parseInt (String (pretty_N_char d) r) =
  match read_digits digit_value 10 (String (pretty_N_char d) r) None with
  | Some m => IntegerToNumber 10 m
  | None => NaN
  end.
Proof.
  intros H.
  assert (Hd : (d = 1 \/ d = 2 \/ d = 3 \/ d = 4 \/ d = 5 \/ d = 6 \/
                d = 7 \/ d = 8 \/ d = 9)%N) by lia.
  repeat destruct Hd as [->|Hd]; try subst d; reflexivity.
Qed.

Lemma read_digits_no_leading_digit (rest : string) (acc : option Z) :
  no_leading_digit rest = true ->
  read_digits digit_value 10 rest acc = acc.
Proof.
  destruct rest as [|c r]; [reflexivity|]. cbn [no_leading_digit read_digits].
  destruct (digit_value c); [|reflexivity].
  rewrite bool_decide_true by eauto. discriminate.
Qed.

(** The decimal writing of a positive integer, followed by anything that
    does not start with a digit, is read as that integer by the engine. *)
Lemma parseInt_pretty_integer (z : Z) (rest : string) :
  0 < z -> no_leading_digit rest = true ->
  parseInt (pretty z +:+ rest) = IntegerToNumber 10 z.
Proof.
  intros Hz Hrest. destruct z as [|p|p]; try lia.
  unfold pretty, pretty_Z, pretty, pretty_positive, pretty, pretty_N.
  rewrite decide_False by lia.
  rewrite pretty_N_go_append. change ("" +:+ rest) with rest.
  destruct (pretty_N_go_leading (N.pos p) rest) as (d & r & Hd & E); [lia|].
  rewrite E, parseInt_leading_digit by exact Hd. rewrite <- E.
  rewrite read_digits_pretty_N_go by lia.
  rewrite read_digits_no_leading_digit by exact Hrest. reflexivity.
Qed.

Lemma parseInt_pretty (z : Z) (rest : string) :
  0 < z <= 2 ^ 53 -> no_leading_digit rest = true ->
  parseInt (pretty z +:+ rest) = num_of_Z z.
Proof.
  intros Hz Hrest. rewrite parseInt_pretty_integer by (lia || exact Hrest).
  apply IntegerToNumber_exact. lia.
Qed.
End TextTimestamps.

(** X23. An alert whose timestamp is a text is read with [parseInt]: when
    the text is the decimal writing of a positive integer up to 2^53, alone
    or followed by anything that does not start with a digit (a unit, a
    space, a fraction), the alert gets that integer as its timestamp, the
    same as if the timestamp had been given as that number. Above 2^53 the
    engine gives a number near the integer, which is not stated here. *)
Theorem alert_timestamp_from_text `{rt : JsRuntime} (alert : JsVal) (z : Z)
    (rest : string) (a : AlertData) :
  0 < z <= 2 ^ 53 -> no_leading_digit rest = true ->
  get_prop alert "timestamp" = JStr (pretty z +:+ rest) ->
  alert_map alert = Some a ->
  alert_timestamp a = num_of_Z z /\
  truthy (get_prop alert "timestamp") = true.
Proof.
  intros Hz Hrest Hget Hmap. unfold alert_map in Hmap.
  rewrite Hget in Hmap.
  destruct (ToString (get_prop alert "type")); [|discriminate Hmap].
  destruct (ToString (get_prop alert "message")); [|discriminate Hmap].
  cbn [mbind option_bind] in Hmap. apply (inj Some) in Hmap. subst a.
  cbn [alert_timestamp].
  rewrite Hget. split; [apply parseInt_pretty; assumption|].
  cbn [truthy]. destruct (pretty z +:+ rest) eqn:E; [|reflexivity].
  exfalso. destruct z as [|p|p]; try lia.
  unfold pretty, pretty_Z, pretty, pretty_positive, pretty, pretty_N in E.
  rewrite decide_False in E by lia. rewrite pretty_N_go_append in E.
  destruct (pretty_N_go_leading (N.pos p) ("" +:+ rest)) as (d & r & _ & E');
    [lia|].
  rewrite E' in E. discriminate.
Qed.

Lemma alert_timestamp_from_text_witness :
  exists a,
    alert_map (rt := sample_runtime) sample_alert_with_text_time = Some a /\
    alert_timestamp a = num_of_Z 1700000000 /\
    truthy (get_prop sample_alert_with_text_time "timestamp") = true.
Proof.
  eexists. split; [reflexivity|].
  apply (alert_timestamp_from_text (rt := sample_runtime)
           sample_alert_with_text_time 1700000000 " s");
    [lia|reflexivity|reflexivity|reflexivity].
Defined.

(** ** Command registry: the acknowledgment records deleted *)

Lemma resolved_ids_app (l1 l2 : list Call) :
  resolved_ids (l1 ++ l2) = resolved_ids l1 ++ resolved_ids l2.
Proof. unfold resolved_ids. apply omap_app. Qed.

Lemma adds_nothing (trace : list (Z * Event)) (s s' : Commands) :
  ackDeletes s' = ackDeletes s -> calls s' = calls s -> adds trace s s'.
Proof.
  intros Hd Hc. exists [], []. rewrite app_nil_r.
  repeat split; [exact Hd|exact Hc|constructor].
Qed.

Lemma adds_call (trace : list (Z * Event)) (s s' : Commands) (cs : list Call) :
  ackDeletes s' = ackDeletes s -> calls s' = cs ++ calls s ->
  resolved_ids cs = [] -> adds trace s s'.
Proof.
  intros Hd Hc Hr. exists [], cs. rewrite app_nil_r, Hr.
  repeat split; [exact Hd|exact Hc|constructor].
Qed.

Lemma adds_trans (t t1 t2 : list (Z * Event)) (s s1 s2 : Commands) :
  t1 ⊆ t -> t2 ⊆ t -> adds t1 s s1 -> adds t2 s1 s2 -> adds t s s2.
Proof.
  intros H1 H2 (n1 & c1 & Hd1 & Hc1 & Hr1 & Hf1)
    (n2 & c2 & Hd2 & Hc2 & Hr2 & Hf2).
  exists (n1 ++ n2), (c2 ++ c1).
  rewrite Hd2, Hd1, Hc2, Hc1, !app_assoc. split; [reflexivity|].
  split; [reflexivity|].
  rewrite fmap_app, resolved_ids_app, reverse_app, Hr1, Hr2.
  split; [reflexivity|].
  apply Forall_app. split.
  - eapply Forall_impl; [exact Hf1|].
    intros d (now & data & Hin & H). exists now, data.
    split; [apply H1, Hin|exact H].
  - eapply Forall_impl; [exact Hf2|].
    intros d (now & data & Hin & H). exists now, data.
    split; [apply H2, Hin|exact H].
Qed.

Lemma adds_processAck (now : Z) (data : JsVal) (s : Commands) (ack : JsVal) :
  ack ∈ Object_values data ->
  adds [(now, AckSnapshot data)] s (processAck now s ack).
Proof.
  intros Hin. rewrite processAck_cases.
  destruct (ack_key ack) as [id|] eqn:Hkey;
    [|apply adds_nothing; reflexivity].
  destruct (pendingCommands s !! id) as [cmd|];
    [|apply adds_nothing; reflexivity].
  eexists [(now + 5000, id)], [_]. fields.
  split; [reflexivity|]. split; [reflexivity|]. split; [reflexivity|].
  apply Forall_singleton. exists now, data. split; [left|].
  split; [reflexivity|]. cbn [snd]. unfold acknowledged_ids.
  apply list_elem_of_omap. exists ack. split; assumption.
Qed.

Lemma adds_foldl_processAck (now : Z) (data : JsVal) (acks : list JsVal)
    (s : Commands) :
  (forall ack, ack ∈ acks -> ack ∈ Object_values data) ->
  adds [(now, AckSnapshot data)] s (foldl (processAck now) s acks).
Proof.
  revert s. induction acks as [|ack acks IH]; intros s Hin;
    [apply adds_nothing; reflexivity|].
  cbn [foldl].
  apply (adds_trans _ [(now, AckSnapshot data)] [(now, AckSnapshot data)]
           s (processAck now s ack)); try reflexivity.
  - apply adds_processAck, Hin. left.
  - apply IH. intros a Ha. apply Hin. right. exact Ha.
Qed.

Lemma foldr_invoke_ackDeletes (cs : list Call) (s : Commands) :
  ackDeletes (foldr invoke s cs) = ackDeletes s.
Proof. induction cs as [|c cs IH]; cbn [foldr]; fields; auto. Qed.

Lemma resolved_ids_expire (l : list (string * PendingCommand)) :
  resolved_ids (expireCall <$> l) = [].
Proof. induction l as [|e l IH]; [reflexivity|exact IH]. Qed.

Lemma adds_step (now : Z) (e : Event) (s s' : Commands) :
  step now e s = Some s' -> adds [(now, e)] s s'.
Proof.
  intros Hstep. destruct e as [rnd ty|h|h err|h|data|]; cbn [step] in Hstep.
  - injection Hstep as <-. apply adds_nothing; reflexivity.
  - destruct (findWrite h (writes s)); [|discriminate].
    injection Hstep as <-. apply adds_nothing; reflexivity.
  - destruct (findWrite h (writes s)) as [w|]; [|discriminate].
    injection Hstep as <-. eapply (adds_call _ _ _ [_]); reflexivity.
  - destruct (findTimer h now (timers s)) as [t|]; [|discriminate].
    injection Hstep as <-. unfold timeoutCallback. fields.
    destruct (pendingCommands s !! timer_id t);
      [eapply (adds_call _ _ _ [_]); reflexivity
      |apply adds_nothing; reflexivity].
  - injection Hstep as <-. unfold onAckSnapshot.
    destruct (truthy data && is_object_type (typeof data));
      [|apply adds_nothing; reflexivity].
    apply adds_foldl_processAck. auto.
  - injection Hstep as <-. unfold sweep.
    match goal with
    | |- context [foldr invoke ?s0 ?cs] =>
        destruct (foldr_invoke_fields cs s0) as (_ & _ & _ & _ & Hc);
        apply (adds_call _ _ _ cs);
          [rewrite foldr_invoke_ackDeletes; reflexivity
          |rewrite Hc; reflexivity|apply resolved_ids_expire]
    end.
Qed.

Lemma adds_run (trace : list (Z * Event)) (s s' : Commands) :
  run trace s = Some s' -> adds trace s s'.
Proof.
  revert s. induction trace as [|[now e] trace IH]; intros s Hrun.
  - injection Hrun as <-. apply adds_nothing; reflexivity.
  - cbn [run] in Hrun.
    destruct (step now e s) as [s1|] eqn:Hstep; [|discriminate].
    cbn [mbind option_bind] in Hrun.
    apply (adds_trans _ [(now, e)] trace s s1).
    + intros x Hx%list_elem_of_singleton. subst x. left.
    + intros x Hx. right. exact Hx.
    + apply adds_step, Hstep.
    + apply IH, Hrun.
Qed.

(** X24. The listener asks for the deletion of an acknowledgment record
    only when it has resolved a handle with it: in every state reached from
    the start, the records whose deletion was asked for are those of the
    acknowledgments resolved, one deletion for each, in the same order, and
    each deletion is due 5 seconds after a snapshot of the trace that
    carries the id. A record that matches no pending command is never
    deleted by this screen. *)
Theorem ack_deleted_when_resolved (trace : list (Z * Event)) (s : Commands) :
  run trace initialCommands = Some s ->
  (ackDeletes s).*2 = reverse (resolved_ids (calls s)) /\
  Forall (deletion_of trace) (ackDeletes s).
Proof.
  intros Hrun.
  destruct (adds_run trace _ s Hrun) as (new & cs & Hd & Hc & Hr & Hf).
  cbn [ackDeletes calls initialCommands app] in Hd, Hc.
  rewrite app_nil_r in Hc. rewrite Hd, Hc. split; assumption.
Qed.

Lemma ack_deleted_when_resolved_witness :
  exists s,
    run sample_acknowledged_trace initialCommands = Some s /\
    (ackDeletes s).*2 = reverse (resolved_ids (calls s)) /\
    Forall (deletion_of sample_acknowledged_trace) (ackDeletes s).
Proof.
  pose (s := default initialCommands
               (run sample_acknowledged_trace initialCommands)).
  assert (Hrun : run sample_acknowledged_trace initialCommands = Some s)
    by (vm_compute; reflexivity).
  exists s. split; [exact Hrun|].
  exact (ack_deleted_when_resolved sample_acknowledged_trace s Hrun).
Defined.

(** ** Schedule planner: the test on the duration *)

(** X25. [handleScheduleSet] reads the clock twice, once for each string.
    In a zone whose offset is constant, when the second reading is less than
    a minute after the first, two strings of the accepted format are never
    rejected as too long: the end is after the start, at most 24 hours after
    it, and both are written. Where the clocks change the test can reject
    with one reading: in New York at 23:55:30 of 31 October 2026, the night
    the clocks go back, the plan from ["23:56"] to ["23:55"] spans 24 hours
    and 59 minutes and is rejected. *)
Theorem handleScheduleSet_never_too_long :
  (forall (tz : Z) (s e : string) (nowS nowE : Z),
     validateTimeFormat s = true -> validateTimeFormat e = true ->
     nowS <= nowE < nowS + 60000 ->
     exists startTime endTime,
       handleScheduleSet (fixed_zone tz) s e nowS nowE =
         ScheduleWrite true startTime endTime /\
       60 <= endTime - startTime <= 86400) /\
  (parseTimeToTimestamp new_york_autumn_2026 1793505330000 "23:56" =
     Some 1793505360000 /\
   parseTimeToTimestamp new_york_autumn_2026 1793505330000 "23:55" =
     Some (1793505360000 + msPerDay + 59 * 60000) /\
   plan new_york_autumn_2026 "23:56" "23:55" 1793505330000 =
     Rejected ScheduleTooLong).
Proof.
  split; [|repeat split; vm_compute; reflexivity].
  intros tz s e nowS nowE Hs He Hnow.
  destruct (handleScheduleSet_validated tz s e nowS nowE Hs He)
    as (S & E0 & _ & _ & (hs & ms & [HS HSm]) & (he & me & [HE HEm]) & Hrun).
  exists (S / 1000), (rolled_end S E0 / 1000).
  assert (Hmin : exists k, rolled_end S E0 = S + 60000 * k).
  { assert (HS60 : (S + tz) mod 60000 = 0).
    { revert HSm. change msPerDay with (60000 * 1440).
      intros HSm. Z.to_euclidean_division_equations. lia. }
    assert (HE60 : (E0 + tz) mod 60000 = 0).
    { revert HEm. change msPerDay with (60000 * 1440).
      intros HEm. Z.to_euclidean_division_equations. lia. }
    unfold rolled_end. change msPerDay with 86400000.
    destruct (E0 <=? S);
      [exists ((E0 + tz) / 60000 - (S + tz) / 60000 + 1440)
      |exists ((E0 + tz) / 60000 - (S + tz) / 60000)];
      Z.to_euclidean_division_equations; lia. }
  destruct Hmin as [k Hk].
  assert (Hspan : 0 < rolled_end S E0 - S <= msPerDay).
  { revert HS HE Hk. unfold rolled_end. change msPerDay with 86400000.
    intros HS HE Hk. destruct (Z.leb_spec E0 S); lia. }
  split.
  { rewrite Hrun.
    destruct (Z.ltb_spec msPerDay (rolled_end S E0 - S)); [lia|reflexivity]. }
  rewrite Hk in *. revert Hspan. change msPerDay with 86400000.
  intros Hspan. split; Z.to_euclidean_division_equations; lia.
Qed.

Lemma handleScheduleSet_never_too_long_witness :
  exists startTime endTime,
    handleScheduleSet (fixed_zone 3600000) "10:00" "10:00"
      1700038799999 1700038800001 =
      ScheduleWrite true startTime endTime /\
    60 <= endTime - startTime <= 86400.
Proof.
  apply (proj1 handleScheduleSet_never_too_long 3600000 "10:00" "10:00"
           1700038799999 1700038800001); [reflexivity|reflexivity|lia].
Defined.

(** ** What the screens show *)

(** X26. The cost per hour shown by the full screen is never NaN and never
    negative: it is 0 while there is no telemetry, and it is computed from
    the power of a validated record, which is a number that is not
    negative. *)
Theorem costPerHour_nonneg `{rt : JsRuntime} (clk : nat -> Z) (data : JsVal) :
  costPerHour None = zero /\
  match validateTelemetryData clk data with
  | Some st =>
      isNaN (costPerHour (Some st)) = false /\
      num_le zero (costPerHour (Some st)) = true
  | None => True
  end.
Proof.
  split; [reflexivity|].
  destruct (validateTelemetryData clk data) as [st|] eqn:E; [|exact I].
  apply validateTelemetryData_Some in E. cbv zeta in E.
  destruct E as (_ & _ & Hpower & _).
  apply fmap_Some in Hpower as (x & Hx & Hpower).
  pose proof (parseNumeric_not_NaN _ _ zero _ eq_refl Hx) as Hn.
  pose proof (Math_max_zero_not_NaN _ Hn) as Hm.
  pose proof (Math_max_zero_nonneg _ Hn) as Hp.
  unfold costPerHour. cbn [from_option]. rewrite Hpower.
  destruct (Math_max zero x) as [| |q|]; try discriminate.
  - apply num_le_Fin in Hp.
    unfold num_div, num_of_Z. change (Qeq_bool (inject_Z 1000) 0) with false.
    cbn [num_mul isNaN]. split; [reflexivity|].
    apply num_le_Fin.
    apply Qmult_le_0_compat; [|discriminate].
    apply Qmult_le_0_compat; [exact Hp|discriminate].
  - split; reflexivity.
Qed.

Section ReducedLivenessProperties.
Context `{rt : JsRuntime}.



End ReducedLivenessProperties.

